(** * Transaction-kernel composition core: call context tracker, call-stack
      validator and kernel composer.

    A shallow embedding of
      - aztec-nr/aztec/src/context/private_context.nr            (Module Tracker)
      - private-kernel-lib/src/common.nr                         (Module Validator)
      - private-kernel-lib kernel_circuit_public_inputs_composer (Module Composer)
      - types/.../private_accumulated_data_builder.nr            (Module Builder)

    Conventions.
      - [Field] is a field element, carried as an integer; only equality and
        the cast [as u32] are used on it, every hash is a parameter.
      - [u32] values are integers in [0, 2^32).  Noir checks unsigned
        arithmetic: an addition or multiplication that leaves the range aborts
        the program, it does not wrap.  [u32_add] and [u32_mul] return [Err].
      - A failed [assert] aborts the whole computation; it is modelled by the
        error monad [result], which keeps the message of the assertion.
      - A Noir array [[T; N]] is a [list T] whose length is [N]; a loop
        [for i in 0..N] over such an array ranges over the list's indices.
      - [BoundedVec] is Noir's: a backing array and the number of used slots. *)

From Stdlib Require Import ZArith String Lia Sorted.
From stdpp Require Import base decidable option list.

Set Default Proof Using "Type".
Local Open Scope Z_scope.

(** ** Error monad *)

Inductive result (A : Type) : Type :=
| Ok (a : A)
| Err (msg : string).
Arguments Ok {A} a.
Arguments Err {A} msg.

Definition rbind {A B} (m : result A) (f : A -> result B) : result B :=
  match m with
  | Ok a => f a
  | Err e => Err e
  end.

Notation "'let*' x ':=' m 'in' k" := (rbind m (fun x => k))
  (at level 10, x name, m at level 100, k at level 200).
Notation "m ';;' k" := (rbind m (fun _ => k))
  (at level 100, k at level 200, right associativity).

Definition assert (b : bool) (msg : string) : result unit :=
  if b then Ok tt else Err msg.

Definition is_ok {A} (m : result A) : bool :=
  match m with Ok _ => true | Err _ => false end.

(** A loop [for x in xs] whose body may abort. *)
Fixpoint for_each {St X} (body : St -> X -> result St) (xs : list X) (s : St)
  : result St :=
  match xs with
  | [] => Ok s
  | x :: xs' => let* s' := body s x in for_each body xs' s'
  end.

(** ** Scalars *)

Definition Field := Z.
Definition AztecAddress := Z.
Definition EthAddress := Z.
Definition FunctionSelector := Z.

Definition u32_MAX : Z := 2 ^ 32 - 1.

Definition u32_add (a b : Z) : result Z :=
  if (a + b <=? u32_MAX)%Z then Ok (a + b)%Z
  else Err "attempt to add with overflow".

Definition u32_mul (a b : Z) : result Z :=
  if (a * b <=? u32_MAX)%Z then Ok (a * b)%Z
  else Err "attempt to multiply with overflow".

Arguments u32_add : simpl never.
Arguments u32_mul : simpl never.

(** [x as u32] on a field element keeps the low 32 bits. *)
Definition as_u32 (x : Field) : Z := (x mod 2 ^ 32)%Z.

(** ** The traits [Empty] and [Eq]

    The trait [Empty] is stdpp's class [Empty] (its method is [empty], written
    [∅]); the trait [Eq] is decidable equality. *)

#[global] Instance Field_empty : Empty Z := 0%Z.
#[global] Instance bool_empty : Empty bool := false.

Definition is_empty {T} `{Empty T, EqDecision T} (item : T) : bool :=
  bool_decide (item = ∅).

(** ** BoundedVec *)

Record BoundedVec (T : Type) : Type := mkBoundedVec {
  storage : list T;
  len : nat
}.
Arguments mkBoundedVec {T} storage len.
Arguments storage {T} b.
Arguments len {T} b.

Definition BoundedVec_new {T} `{Empty T} (MaxLen : nat) : BoundedVec T :=
  mkBoundedVec (replicate MaxLen ∅) 0.

Definition push {T} (v : BoundedVec T) (elem : T) : result (BoundedVec T) :=
  assert (len v <? length (storage v))%nat "push out of bounds";;
  Ok (mkBoundedVec (<[len v := elem]> (storage v)) (S (len v))).

Definition get_unchecked {T} `{Empty T} (v : BoundedVec T) (i : nat) : T :=
  nth i (storage v) ∅.

(** The used slots of a vector, oldest first. *)
Definition items {T} (v : BoundedVec T) : list T := take (len v) (storage v).

(** The vector that holds [l] and has [free] unused slots left. *)
Definition padded {T} `{Empty T} (l : list T) (free : nat) : BoundedVec T :=
  mkBoundedVec (l ++ replicate free ∅) (length l).

(** A vector whose unused slots are all empty. *)
Definition is_padded {T} `{Empty T} (v : BoundedVec T) : Prop :=
  v = padded (items v) (length (storage v) - len v).

(** ** Protocol structs (types crate) *)

Record CallContext : Type := mkCallContext {
  msg_sender : AztecAddress;
  storage_contract_address : AztecAddress;
  function_selector : FunctionSelector;
  is_delegate_call : bool;
  is_static_call : bool;
  call_side_effect_counter : Z
}.

Record SideEffect : Type := mkSideEffect {
  se_value : Field;
  se_counter : Z
}.

(** [ReadRequest] and [NoteHash] have the fields of [SideEffect]. *)
Definition ReadRequest := SideEffect.
Definition NoteHash := SideEffect.

Record NoteHashContext : Type := mkNoteHashContext {
  nh_value : Field;
  nh_counter : Z;
  nullifier_counter : Z
}.

Record Nullifier : Type := mkNullifier {
  nf_value : Field;
  nf_note_hash : Field;
  nf_counter : Z
}.

Record CallerContext : Type := mkCallerContext {
  cc_msg_sender : AztecAddress;
  cc_storage_contract_address : AztecAddress
}.

Record CallRequest : Type := mkCallRequest {
  cr_hash : Field;
  caller_contract_address : AztecAddress;
  caller_context : CallerContext;
  cr_start_side_effect_counter : Z;
  cr_end_side_effect_counter : Z
}.

Record L2ToL1Message : Type := mkL2ToL1Message {
  recipient : EthAddress;
  content : Field
}.

Record GrumpkinPoint : Type := mkGrumpkinPoint { gp_x : Field; gp_y : Field }.

Record NullifierKeyValidationRequest : Type := mkNullifierKeyValidationRequest {
  req_master_nullifier_public_key : GrumpkinPoint;
  req_app_nullifier_secret_key : Field
}.

Record NullifierKeys : Type := mkNullifierKeys {
  keys_account : AztecAddress;
  master_nullifier_public_key : GrumpkinPoint;
  app_nullifier_secret_key : Field
}.

Record Gas : Type := mkGas { da_gas : Z; l2_gas : Z }.

Record TxContext : Type := mkTxContext { chain_id : Field; version : Field }.

(** A block header is opaque here: it is carried, never inspected. *)
Definition Header := Field.

(** [MaxBlockNumber] wraps an [Option<u32>]. *)
Definition MaxBlockNumber := option Z.

#[global] Instance CallContext_eq_dec : EqDecision CallContext.
Proof. solve_decision. Defined.
#[global] Instance SideEffect_eq_dec : EqDecision SideEffect.
Proof. solve_decision. Defined.
#[global] Instance NoteHashContext_eq_dec : EqDecision NoteHashContext.
Proof. solve_decision. Defined.
#[global] Instance Nullifier_eq_dec : EqDecision Nullifier.
Proof. solve_decision. Defined.
#[global] Instance CallerContext_eq_dec : EqDecision CallerContext.
Proof. solve_decision. Defined.
#[global] Instance CallRequest_eq_dec : EqDecision CallRequest.
Proof. solve_decision. Defined.
#[global] Instance L2ToL1Message_eq_dec : EqDecision L2ToL1Message.
Proof. solve_decision. Defined.
#[global] Instance GrumpkinPoint_eq_dec : EqDecision GrumpkinPoint.
Proof. solve_decision. Defined.
#[global] Instance NullifierKeyValidationRequest_eq_dec :
  EqDecision NullifierKeyValidationRequest.
Proof. solve_decision. Defined.
#[global] Instance Gas_eq_dec : EqDecision Gas.
Proof. solve_decision. Defined.

#[global] Instance CallContext_empty : Empty CallContext :=
  mkCallContext 0 0 0 false false 0.
#[global] Instance SideEffect_empty : Empty SideEffect := mkSideEffect 0 0.
#[global] Instance NoteHashContext_empty : Empty NoteHashContext :=
  mkNoteHashContext 0 0 0.
#[global] Instance Nullifier_empty : Empty Nullifier := mkNullifier 0 0 0.
#[global] Instance CallerContext_empty : Empty CallerContext :=
  mkCallerContext 0 0.
#[global] Instance CallRequest_empty : Empty CallRequest :=
  mkCallRequest 0 0 ∅ 0 0.
#[global] Instance L2ToL1Message_empty : Empty L2ToL1Message :=
  mkL2ToL1Message 0 0.
#[global] Instance GrumpkinPoint_empty : Empty GrumpkinPoint :=
  mkGrumpkinPoint 0 0.
#[global] Instance NullifierKeyValidationRequest_empty :
  Empty NullifierKeyValidationRequest :=
  mkNullifierKeyValidationRequest ∅ 0.
#[global] Instance Gas_empty : Empty Gas := mkGas 0 0.

(** [CallerContext::is_empty]: both addresses are zero. *)
Definition CallerContext_is_empty (c : CallerContext) : bool :=
  bool_decide (cc_msg_sender c = 0%Z) &&
  bool_decide (cc_storage_contract_address c = 0%Z).

(** ** Array helpers of [utils::arrays] and [traits] *)

(** Modelled from the spec: [utils::arrays::array_length] is not among the
    sources.  Arrays are zero-padded ("empty slots must correspond to
    genuinely absent requests (zero-padding, not truncation)"), so the length
    of an array is the number of entries before its first empty one. *)
Fixpoint array_length {T} `{Empty T, EqDecision T} (array : list T) : nat :=
  match array with
  | [] => 0%nat
  | x :: rest => if is_empty x then 0%nat else S (array_length rest)
  end.

(** Modelled from the spec: [traits::is_empty_array] is not among the sources;
    an array is empty when every one of its entries is. *)
Definition is_empty_array {T} `{Empty T, EqDecision T} (array : list T) : bool :=
  forallb is_empty array.

(** Modelled from the spec: [utils::arrays::array_to_bounded_vec] is not among
    the sources; it wraps a zero-padded array as a bounded sequence, keeping
    the array as backing storage and its length as the number of used slots. *)
Definition array_to_bounded_vec {T} `{Empty T, EqDecision T} (array : list T)
  : BoundedVec T :=
  mkBoundedVec array (array_length array).

Record FunctionData : Type := mkFunctionData {
  selector : FunctionSelector;
  is_private : bool
}.

(** The public inputs of one private function invocation, as frozen by
    [PrivateContext::finish]. *)
Record PrivateCircuitPublicInputs : Type := mkPrivateCircuitPublicInputs {
  pi_call_context : CallContext;
  pi_args_hash : Field;
  pi_returns_hash : Field;
  pi_min_revertible_side_effect_counter : Z;
  pi_max_block_number : MaxBlockNumber;
  pi_note_hash_read_requests : list SideEffect;
  pi_nullifier_read_requests : list ReadRequest;
  pi_nullifier_key_validation_requests : list NullifierKeyValidationRequest;
  pi_new_note_hashes : list NoteHash;
  pi_new_nullifiers : list Nullifier;
  pi_private_call_stack_hashes : list Field;
  pi_public_call_stack_hashes : list Field;
  pi_new_l2_to_l1_msgs : list L2ToL1Message;
  pi_start_side_effect_counter : Z;
  pi_end_side_effect_counter : Z;
  pi_encrypted_logs_hashes : list SideEffect;
  pi_unencrypted_logs_hashes : list SideEffect;
  pi_encrypted_log_preimages_length : Field;
  pi_unencrypted_log_preimages_length : Field;
  pi_historical_header : Header;
  pi_tx_context : TxContext
}.

Record PrivateCallStackItem : Type := mkPrivateCallStackItem {
  item_contract_address : AztecAddress;
  function_data : FunctionData;
  public_inputs : PrivateCircuitPublicInputs
}.

(** The part of a [PublicCallStackItem] that an enqueued call fills in; every
    other field of its public inputs is the empty value of its type. *)
Record PublicCallStackItem : Type := mkPublicCallStackItem {
  pub_contract_address : AztecAddress;
  pub_function_data : FunctionData;
  pub_call_context : CallContext;
  pub_args_hash : Field;
  pub_returns_hash : Field;
  pub_start_side_effect_counter : Z;
  pub_end_side_effect_counter : Z;
  is_execution_request : bool
}.

(** * Call Context Tracker: [PrivateContext] *)

Module Tracker.

Record PrivateContextInputs : Type := mkPrivateContextInputs {
  call_context : CallContext;
  inputs_historical_header : Header;
  tx_context : TxContext;
  start_side_effect_counter : Z
}.

Record PrivateContext : Type := mkPrivateContext {
  inputs : PrivateContextInputs;
  side_effect_counter : Z;
  min_revertible_side_effect_counter : Z;
  args_hash : Field;
  return_hash : Field;
  max_block_number : MaxBlockNumber;
  note_hash_read_requests : BoundedVec SideEffect;
  nullifier_read_requests : BoundedVec ReadRequest;
  nullifier_key_validation_requests : BoundedVec NullifierKeyValidationRequest;
  new_note_hashes : BoundedVec NoteHash;
  new_nullifiers : BoundedVec Nullifier;
  private_call_stack_hashes : BoundedVec Field;
  public_call_stack_hashes : BoundedVec Field;
  new_l2_to_l1_msgs : BoundedVec L2ToL1Message;
  historical_header : Header;
  encrypted_logs_hashes : BoundedVec SideEffect;
  unencrypted_logs_hashes : BoundedVec SideEffect;
  nullifier_key : option NullifierKeys
}.

(** Field updates ([self.f = v]). *)
Definition set_side_effect_counter (c : PrivateContext) (v : Z) :=
  mkPrivateContext (inputs c) v (min_revertible_side_effect_counter c)
    (args_hash c) (return_hash c) (max_block_number c)
    (note_hash_read_requests c) (nullifier_read_requests c)
    (nullifier_key_validation_requests c) (new_note_hashes c)
    (new_nullifiers c) (private_call_stack_hashes c)
    (public_call_stack_hashes c) (new_l2_to_l1_msgs c) (historical_header c)
    (encrypted_logs_hashes c) (unencrypted_logs_hashes c) (nullifier_key c).

Definition set_min_revertible_side_effect_counter (c : PrivateContext) (v : Z) :=
  mkPrivateContext (inputs c) (side_effect_counter c) v
    (args_hash c) (return_hash c) (max_block_number c)
    (note_hash_read_requests c) (nullifier_read_requests c)
    (nullifier_key_validation_requests c) (new_note_hashes c)
    (new_nullifiers c) (private_call_stack_hashes c)
    (public_call_stack_hashes c) (new_l2_to_l1_msgs c) (historical_header c)
    (encrypted_logs_hashes c) (unencrypted_logs_hashes c) (nullifier_key c).

Definition set_note_hash_read_requests (c : PrivateContext) v :=
  mkPrivateContext (inputs c) (side_effect_counter c)
    (min_revertible_side_effect_counter c)
    (args_hash c) (return_hash c) (max_block_number c)
    v (nullifier_read_requests c)
    (nullifier_key_validation_requests c) (new_note_hashes c)
    (new_nullifiers c) (private_call_stack_hashes c)
    (public_call_stack_hashes c) (new_l2_to_l1_msgs c) (historical_header c)
    (encrypted_logs_hashes c) (unencrypted_logs_hashes c) (nullifier_key c).

Definition set_nullifier_read_requests (c : PrivateContext) v :=
  mkPrivateContext (inputs c) (side_effect_counter c)
    (min_revertible_side_effect_counter c)
    (args_hash c) (return_hash c) (max_block_number c)
    (note_hash_read_requests c) v
    (nullifier_key_validation_requests c) (new_note_hashes c)
    (new_nullifiers c) (private_call_stack_hashes c)
    (public_call_stack_hashes c) (new_l2_to_l1_msgs c) (historical_header c)
    (encrypted_logs_hashes c) (unencrypted_logs_hashes c) (nullifier_key c).

Definition set_nullifier_key_validation_requests (c : PrivateContext) v :=
  mkPrivateContext (inputs c) (side_effect_counter c)
    (min_revertible_side_effect_counter c)
    (args_hash c) (return_hash c) (max_block_number c)
    (note_hash_read_requests c) (nullifier_read_requests c)
    v (new_note_hashes c)
    (new_nullifiers c) (private_call_stack_hashes c)
    (public_call_stack_hashes c) (new_l2_to_l1_msgs c) (historical_header c)
    (encrypted_logs_hashes c) (unencrypted_logs_hashes c) (nullifier_key c).

Definition set_new_note_hashes (c : PrivateContext) v :=
  mkPrivateContext (inputs c) (side_effect_counter c)
    (min_revertible_side_effect_counter c)
    (args_hash c) (return_hash c) (max_block_number c)
    (note_hash_read_requests c) (nullifier_read_requests c)
    (nullifier_key_validation_requests c) v
    (new_nullifiers c) (private_call_stack_hashes c)
    (public_call_stack_hashes c) (new_l2_to_l1_msgs c) (historical_header c)
    (encrypted_logs_hashes c) (unencrypted_logs_hashes c) (nullifier_key c).

Definition set_new_nullifiers (c : PrivateContext) v :=
  mkPrivateContext (inputs c) (side_effect_counter c)
    (min_revertible_side_effect_counter c)
    (args_hash c) (return_hash c) (max_block_number c)
    (note_hash_read_requests c) (nullifier_read_requests c)
    (nullifier_key_validation_requests c) (new_note_hashes c)
    v (private_call_stack_hashes c)
    (public_call_stack_hashes c) (new_l2_to_l1_msgs c) (historical_header c)
    (encrypted_logs_hashes c) (unencrypted_logs_hashes c) (nullifier_key c).

Definition set_private_call_stack_hashes (c : PrivateContext) v :=
  mkPrivateContext (inputs c) (side_effect_counter c)
    (min_revertible_side_effect_counter c)
    (args_hash c) (return_hash c) (max_block_number c)
    (note_hash_read_requests c) (nullifier_read_requests c)
    (nullifier_key_validation_requests c) (new_note_hashes c)
    (new_nullifiers c) v
    (public_call_stack_hashes c) (new_l2_to_l1_msgs c) (historical_header c)
    (encrypted_logs_hashes c) (unencrypted_logs_hashes c) (nullifier_key c).

Definition set_public_call_stack_hashes (c : PrivateContext) v :=
  mkPrivateContext (inputs c) (side_effect_counter c)
    (min_revertible_side_effect_counter c)
    (args_hash c) (return_hash c) (max_block_number c)
    (note_hash_read_requests c) (nullifier_read_requests c)
    (nullifier_key_validation_requests c) (new_note_hashes c)
    (new_nullifiers c) (private_call_stack_hashes c)
    v (new_l2_to_l1_msgs c) (historical_header c)
    (encrypted_logs_hashes c) (unencrypted_logs_hashes c) (nullifier_key c).

Definition set_new_l2_to_l1_msgs (c : PrivateContext) v :=
  mkPrivateContext (inputs c) (side_effect_counter c)
    (min_revertible_side_effect_counter c)
    (args_hash c) (return_hash c) (max_block_number c)
    (note_hash_read_requests c) (nullifier_read_requests c)
    (nullifier_key_validation_requests c) (new_note_hashes c)
    (new_nullifiers c) (private_call_stack_hashes c)
    (public_call_stack_hashes c) v (historical_header c)
    (encrypted_logs_hashes c) (unencrypted_logs_hashes c) (nullifier_key c).

Definition set_encrypted_logs_hashes (c : PrivateContext) v :=
  mkPrivateContext (inputs c) (side_effect_counter c)
    (min_revertible_side_effect_counter c)
    (args_hash c) (return_hash c) (max_block_number c)
    (note_hash_read_requests c) (nullifier_read_requests c)
    (nullifier_key_validation_requests c) (new_note_hashes c)
    (new_nullifiers c) (private_call_stack_hashes c)
    (public_call_stack_hashes c) (new_l2_to_l1_msgs c) (historical_header c)
    v (unencrypted_logs_hashes c) (nullifier_key c).

Definition set_nullifier_key (c : PrivateContext) v :=
  mkPrivateContext (inputs c) (side_effect_counter c)
    (min_revertible_side_effect_counter c)
    (args_hash c) (return_hash c) (max_block_number c)
    (note_hash_read_requests c) (nullifier_read_requests c)
    (nullifier_key_validation_requests c) (new_note_hashes c)
    (new_nullifiers c) (private_call_stack_hashes c)
    (public_call_stack_hashes c) (new_l2_to_l1_msgs c) (historical_header c)
    (encrypted_logs_hashes c) (unencrypted_logs_hashes c) v.

Section Context.

(** Capacities of the per-call sequences ([constants.nr]). *)
Variables
  (MAX_NOTE_HASH_READ_REQUESTS_PER_CALL
   MAX_NULLIFIER_READ_REQUESTS_PER_CALL
   MAX_NEW_NOTE_HASHES_PER_CALL
   MAX_NEW_NULLIFIERS_PER_CALL
   MAX_PRIVATE_CALL_STACK_LENGTH_PER_CALL
   MAX_PUBLIC_CALL_STACK_LENGTH_PER_CALL
   MAX_NEW_L2_TO_L1_MSGS_PER_CALL
   MAX_ENCRYPTED_LOGS_PER_CALL
   MAX_UNENCRYPTED_LOGS_PER_CALL : nat).

(** [request_app_nullifier_secret_key] asserts that this capacity is one. *)
Definition MAX_NULLIFIER_KEY_VALIDATION_REQUESTS_PER_CALL : nat := 1.

(** [PrivateContext::new] *)
Definition new (inputs : PrivateContextInputs) (args_hash : Field)
  : PrivateContext :=
  let side_effect_counter := start_side_effect_counter inputs in
  let min_revertible_side_effect_counter :=
    if is_empty (msg_sender (call_context inputs))
    then side_effect_counter else 0 in
  mkPrivateContext inputs side_effect_counter
    min_revertible_side_effect_counter args_hash 0 None
    (BoundedVec_new MAX_NOTE_HASH_READ_REQUESTS_PER_CALL)
    (BoundedVec_new MAX_NULLIFIER_READ_REQUESTS_PER_CALL)
    (BoundedVec_new MAX_NULLIFIER_KEY_VALIDATION_REQUESTS_PER_CALL)
    (BoundedVec_new MAX_NEW_NOTE_HASHES_PER_CALL)
    (BoundedVec_new MAX_NEW_NULLIFIERS_PER_CALL)
    (BoundedVec_new MAX_PRIVATE_CALL_STACK_LENGTH_PER_CALL)
    (BoundedVec_new MAX_PUBLIC_CALL_STACK_LENGTH_PER_CALL)
    (BoundedVec_new MAX_NEW_L2_TO_L1_MSGS_PER_CALL)
    (inputs_historical_header inputs)
    (BoundedVec_new MAX_ENCRYPTED_LOGS_PER_CALL)
    (BoundedVec_new MAX_UNENCRYPTED_LOGS_PER_CALL)
    None.

End Context.

(** [self.side_effect_counter = self.side_effect_counter + 1] *)
Definition bump_counter (self : PrivateContext) : result PrivateContext :=
  let* c := u32_add (side_effect_counter self) 1 in
  Ok (set_side_effect_counter self c).

Definition push_new_note_hash (self : PrivateContext) (note_hash : Field)
  : result PrivateContext :=
  let* v := push (new_note_hashes self)
                 (mkSideEffect note_hash (side_effect_counter self)) in
  bump_counter (set_new_note_hashes self v).

Definition push_new_nullifier (self : PrivateContext)
    (nullifier nullified_note_hash : Field) : result PrivateContext :=
  let* v := push (new_nullifiers self)
                 (mkNullifier nullifier nullified_note_hash
                              (side_effect_counter self)) in
  bump_counter (set_new_nullifiers self v).

Definition push_note_hash_read_request (self : PrivateContext)
    (note_hash : Field) : result PrivateContext :=
  let side_effect := mkSideEffect note_hash (side_effect_counter self) in
  let* v := push (note_hash_read_requests self) side_effect in
  bump_counter (set_note_hash_read_requests self v).

Definition push_nullifier_read_request (self : PrivateContext)
    (nullifier : Field) : result PrivateContext :=
  let request := mkSideEffect nullifier (side_effect_counter self) in
  let* v := push (nullifier_read_requests self) request in
  bump_counter (set_nullifier_read_requests self v).

Definition push_encrypted_log (self : PrivateContext) (log_hash : Field)
  : result PrivateContext :=
  let side_effect := mkSideEffect log_hash (side_effect_counter self) in
  let* v := push (encrypted_logs_hashes self) side_effect in
  bump_counter (set_encrypted_logs_hashes self v).

Definition end_setup (self : PrivateContext) : PrivateContext :=
  set_min_revertible_side_effect_counter self (side_effect_counter self).

Definition message_portal (self : PrivateContext) (recipient : EthAddress)
    (content : Field) : result PrivateContext :=
  let message := mkL2ToL1Message recipient content in
  let* v := push (new_l2_to_l1_msgs self) message in
  Ok (set_new_l2_to_l1_msgs self v).

(** [PrivateContext::finish] *)
Definition finish (self : PrivateContext) : PrivateCircuitPublicInputs :=
  let encrypted_log_preimages_length := 0 in
  let unencrypted_log_preimages_length := 0 in
  mkPrivateCircuitPublicInputs
    (call_context (inputs self)) (args_hash self) (return_hash self)
    (min_revertible_side_effect_counter self) (max_block_number self)
    (storage (note_hash_read_requests self))
    (storage (nullifier_read_requests self))
    (storage (nullifier_key_validation_requests self))
    (storage (new_note_hashes self))
    (storage (new_nullifiers self))
    (storage (private_call_stack_hashes self))
    (storage (public_call_stack_hashes self))
    (storage (new_l2_to_l1_msgs self))
    (start_side_effect_counter (inputs self))
    (side_effect_counter self)
    (storage (encrypted_logs_hashes self))
    (storage (unencrypted_logs_hashes self))
    encrypted_log_preimages_length unencrypted_log_preimages_length
    (historical_header self) (tx_context (inputs self)).

(** *** Sequences of effects

    The effect-recording operations, as data, so that a run of them can be
    stated: one constructor per operation, carrying its arguments. *)
Inductive Effect : Type :=
| NewNoteHash (note_hash : Field)
| NewNullifier (nullifier nullified_note_hash : Field)
| NoteHashReadRequest (note_hash : Field)
| NullifierReadRequest (nullifier : Field)
| EncryptedLog (log_hash : Field).

Definition record (self : PrivateContext) (e : Effect) : result PrivateContext :=
  match e with
  | NewNoteHash v => push_new_note_hash self v
  | NewNullifier v n => push_new_nullifier self v n
  | NoteHashReadRequest v => push_note_hash_read_request self v
  | NullifierReadRequest v => push_nullifier_read_request self v
  | EncryptedLog v => push_encrypted_log self v
  end.

Definition record_all (es : list Effect) (self : PrivateContext)
  : result PrivateContext :=
  for_each record es self.

(** The entries of the sequence that an effect is appended to, as
    value/counter pairs (a nullifier also carries the nullified note hash). *)
Definition entries_of (e : Effect) (self : PrivateContext)
  : list (Field * Field * Z) :=
  match e with
  | NewNoteHash _ =>
      (fun x => (se_value x, 0, se_counter x)) <$> items (new_note_hashes self)
  | NewNullifier _ _ =>
      (fun x => (nf_value x, nf_note_hash x, nf_counter x))
        <$> items (new_nullifiers self)
  | NoteHashReadRequest _ =>
      (fun x => (se_value x, 0, se_counter x))
        <$> items (note_hash_read_requests self)
  | NullifierReadRequest _ =>
      (fun x => (se_value x, 0, se_counter x))
        <$> items (nullifier_read_requests self)
  | EncryptedLog _ =>
      (fun x => (se_value x, 0, se_counter x))
        <$> items (encrypted_logs_hashes self)
  end.

(** What an effect asks to record. *)
Definition payload (e : Effect) : Field * Field :=
  match e with
  | NewNoteHash v | NoteHashReadRequest v | NullifierReadRequest v
  | EncryptedLog v => (v, 0)
  | NewNullifier v n => (v, n)
  end.

(** The counter found on the newest entry of the sequence of [e]. *)
Definition stamp (e : Effect) (self : PrivateContext) : Z :=
  match last (entries_of e self) with
  | Some (_, _, c) => c
  | None => 0
  end.

(** Runs the effects in order and reads back, after each one, the counter it
    was recorded with. *)
Fixpoint stamps (es : list Effect) (self : PrivateContext) : result (list Z) :=
  match es with
  | [] => Ok []
  | e :: es' =>
      let* self' := record self e in
      let* rest := stamps es' self' in
      Ok (stamp e self' :: rest)
  end.

(** Every counter held by the sequences that the five operations fill. *)
Definition recorded_counters (self : PrivateContext) : list Z :=
  (se_counter <$> items (new_note_hashes self))
  ++ (nf_counter <$> items (new_nullifiers self))
  ++ (se_counter <$> items (note_hash_read_requests self))
  ++ (se_counter <$> items (nullifier_read_requests self))
  ++ (se_counter <$> items (encrypted_logs_hashes self)).

Section Oracles.

(** The external collaborators of a private function: the simulator that
    executes a nested private call or enqueues a public one, the key store,
    and the hashes of the call-stack items. *)
Variable call_private_function_internal :
  AztecAddress -> FunctionSelector -> Field -> Z -> bool -> bool ->
  PrivateCallStackItem.

(** The pieces that [call_public_function_with_packed_args] reads, in order,
    from the fields returned by the enqueue oracle. *)
Record EnqueuedCall : Type := mkEnqueuedCall {
  enq_contract_address : AztecAddress;
  enq_function_data : FunctionData;
  enq_call_context : CallContext;
  enq_args_hash : Field
}.

Variable enqueue_public_function_call_internal :
  AztecAddress -> FunctionSelector -> Field -> Z -> bool -> bool ->
  EnqueuedCall.

Variable get_nullifier_keys_oracle : AztecAddress -> GrumpkinPoint * Field.

Variable private_item_hash : PrivateCallStackItem -> Field.
Variable public_item_hash : PublicCallStackItem -> Field.
Variable hash_args_array : list Field -> Field.
Variable pack_arguments_array : list Field -> Field.

(** Modelled from the spec: [oracle::nullifier_key::get_nullifier_keys] is not
    among the sources.  "Given an account identity, returns the
    nullifier-secret material": the keys it returns are those of the account
    it was asked for. *)
Definition get_nullifier_keys (account : AztecAddress) : NullifierKeys :=
  let '(pk, sk) := get_nullifier_keys_oracle account in
  mkNullifierKeys account pk sk.

Definition request_app_nullifier_secret_key (self : PrivateContext)
    (account : AztecAddress) : result (PrivateContext * Field) :=
  let* cached :=
    match nullifier_key self with
    | None =>
        let keys := get_nullifier_keys account in
        let request :=
          mkNullifierKeyValidationRequest
            (master_nullifier_public_key keys)
            (app_nullifier_secret_key keys) in
        let* v := push (nullifier_key_validation_requests self) request in
        let self := set_nullifier_key_validation_requests self v in
        let self := set_nullifier_key self (Some keys) in
        Ok (self, keys)
    | Some keys =>
        assert (Nat.eqb MAX_NULLIFIER_KEY_VALIDATION_REQUESTS_PER_CALL 1) "";;
        assert (bool_decide (keys_account keys = account))
          "Cannot query nullifier key for more than one account per call";;
        Ok (self, keys)
    end in
  Ok (cached.1, app_nullifier_secret_key cached.2).

(** [PackedReturns] wraps the hash of the callee's return values. *)
Definition PackedReturns := Field.

Definition call_private_function_with_packed_args (self : PrivateContext)
    (contract_address : AztecAddress) (function_selector : FunctionSelector)
    (args_hash : Field) (is_static is_delegate : bool)
  : result (PrivateContext * PackedReturns) :=
  let is_static := is_static || is_static_call (call_context (inputs self)) in
  let item :=
    call_private_function_internal contract_address function_selector
      args_hash (side_effect_counter self) is_static is_delegate in
  let pi := public_inputs item in
  assert (bool_decide (call_side_effect_counter (pi_call_context pi)
                       = side_effect_counter self)) "assert_eq";;
  assert (bool_decide (pi_start_side_effect_counter pi
                       = side_effect_counter self)) "assert_eq";;
  let* c := u32_add (pi_end_side_effect_counter pi) 1 in
  let self := set_side_effect_counter self c in
  assert (bool_decide (contract_address = item_contract_address item)) "";;
  assert (bool_decide (function_selector = selector (function_data item))) "";;
  assert (bool_decide (args_hash = pi_args_hash pi)) "";;
  assert (eqb (is_delegate_call (pi_call_context pi))
              is_delegate) "";;
  assert (eqb (is_static_call (pi_call_context pi))
              is_static) "";;
  (if is_delegate then
     assert (bool_decide
               (storage_contract_address (pi_call_context pi)
                = storage_contract_address (call_context (inputs self)))) "";;
     assert (bool_decide
               (msg_sender (pi_call_context pi)
                = msg_sender (call_context (inputs self)))) ""
   else
     assert (bool_decide
               (storage_contract_address (pi_call_context pi)
                = contract_address)) "";;
     assert (bool_decide
               (msg_sender (pi_call_context pi)
                = storage_contract_address (call_context (inputs self)))) "");;
  let* v := push (private_call_stack_hashes self) (private_item_hash item) in
  let self := set_private_call_stack_hashes self v in
  Ok (self, pi_returns_hash pi).

(** The [PublicCallStackItem] built from what the enqueue oracle returned. *)
Definition enqueued_item (e : EnqueuedCall) : PublicCallStackItem :=
  mkPublicCallStackItem (enq_contract_address e) (enq_function_data e)
    (enq_call_context e) (enq_args_hash e) 0 0 0 true.

Definition call_public_function_with_packed_args (self : PrivateContext)
    (contract_address : AztecAddress) (function_selector : FunctionSelector)
    (args_hash : Field) (is_static is_delegate : bool)
  : result PrivateContext :=
  let is_static := is_static || is_static_call (call_context (inputs self)) in
  let fields :=
    enqueue_public_function_call_internal contract_address function_selector
      args_hash (side_effect_counter self) is_static is_delegate in
  let item := enqueued_item fields in
  assert (bool_decide (contract_address = pub_contract_address item)) "";;
  assert (bool_decide (function_selector = selector (pub_function_data item)))
    "";;
  assert (bool_decide (call_side_effect_counter (pub_call_context item)
                       = side_effect_counter self)) "assert_eq";;
  let* self := bump_counter self in
  assert (bool_decide (args_hash = pub_args_hash item)) "";;
  assert (eqb (is_delegate_call (pub_call_context item))
              is_delegate) "";;
  assert (eqb (is_static_call (pub_call_context item))
              is_static) "";;
  (if is_delegate then
     assert (bool_decide
               (storage_contract_address (pub_call_context item)
                = storage_contract_address (call_context (inputs self)))) "";;
     assert (bool_decide
               (msg_sender (pub_call_context item)
                = msg_sender (call_context (inputs self)))) ""
   else
     assert (bool_decide
               (storage_contract_address (pub_call_context item)
                = contract_address)) "";;
     assert (bool_decide
               (msg_sender (pub_call_context item)
                = storage_contract_address (call_context (inputs self)))) "");;
  let* v := push (public_call_stack_hashes self) (public_item_hash item) in
  Ok (set_public_call_stack_hashes self v).

(** The entry points that take the arguments themselves hash them and check
    the hash against the one the argument-packing oracle returns. *)
Definition hashed_args (args : list Field) : result Field :=
  let args_hash := hash_args_array args in
  assert (bool_decide (args_hash = pack_arguments_array args)) "";;
  Ok args_hash.

Definition call_private_function self contract_address function_selector args :=
  let* args_hash := hashed_args args in
  call_private_function_with_packed_args self contract_address
    function_selector args_hash false false.

Definition static_call_private_function self contract_address function_selector
    args :=
  let* args_hash := hashed_args args in
  call_private_function_with_packed_args self contract_address
    function_selector args_hash true false.

Definition delegate_call_private_function self contract_address
    function_selector args :=
  let* args_hash := hashed_args args in
  call_private_function_with_packed_args self contract_address
    function_selector args_hash false true.

Definition call_private_function_no_args self contract_address
    function_selector :=
  call_private_function_with_packed_args self contract_address
    function_selector 0 false false.

Definition static_call_private_function_no_args self contract_address
    function_selector :=
  call_private_function_with_packed_args self contract_address
    function_selector 0 true false.

Definition delegate_call_private_function_no_args self contract_address
    function_selector :=
  call_private_function_with_packed_args self contract_address
    function_selector 0 false true.

Definition call_public_function self contract_address function_selector args :=
  let* args_hash := hashed_args args in
  call_public_function_with_packed_args self contract_address
    function_selector args_hash false false.

Definition static_call_public_function self contract_address function_selector
    args :=
  let* args_hash := hashed_args args in
  call_public_function_with_packed_args self contract_address
    function_selector args_hash true false.

Definition delegate_call_public_function self contract_address
    function_selector args :=
  let* args_hash := hashed_args args in
  call_public_function_with_packed_args self contract_address
    function_selector args_hash false true.

Definition call_public_function_no_args self contract_address
    function_selector :=
  call_public_function_with_packed_args self contract_address
    function_selector 0 false false.

Definition static_call_public_function_no_args self contract_address
    function_selector :=
  call_public_function_with_packed_args self contract_address
    function_selector 0 true false.

Definition delegate_call_public_function_no_args self contract_address
    function_selector :=
  call_public_function_with_packed_args self contract_address
    function_selector 0 false true.

(** What the caller has checked about the callee when a call returns. *)
Definition call_kind_respected (self : PrivateContext) (target : AztecAddress)
    (is_delegate : bool) (callee : CallContext) : Prop :=
  if is_delegate then
    storage_contract_address callee
      = storage_contract_address (call_context (inputs self)) /\
    msg_sender callee = msg_sender (call_context (inputs self))
  else
    storage_contract_address callee = target /\
    msg_sender callee = storage_contract_address (call_context (inputs self)).

(** *** The nested-call operations, as data *)

Inductive CallKind : Type := Plain | Static | Delegate.

Definition static_flag (k : CallKind) : bool :=
  match k with Static => true | _ => false end.
Definition delegate_flag (k : CallKind) : bool :=
  match k with Delegate => true | _ => false end.

Inductive NestedCall : Type :=
| Private (k : CallKind) (target : AztecAddress) (fs : FunctionSelector)
    (args : list Field)
| PrivateNoArgs (k : CallKind) (target : AztecAddress) (fs : FunctionSelector)
| PrivatePacked (target : AztecAddress) (fs : FunctionSelector)
    (args_hash : Field) (is_static is_delegate : bool)
| Public (k : CallKind) (target : AztecAddress) (fs : FunctionSelector)
    (args : list Field)
| PublicNoArgs (k : CallKind) (target : AztecAddress) (fs : FunctionSelector)
| PublicPacked (target : AztecAddress) (fs : FunctionSelector)
    (args_hash : Field) (is_static is_delegate : bool).

(** The operation a [NestedCall] stands for, keeping only the context. *)
Definition perform (self : PrivateContext) (c : NestedCall)
  : result PrivateContext :=
  match c with
  | Private Plain t fs args =>
      let* r := call_private_function self t fs args in Ok r.1
  | Private Static t fs args =>
      let* r := static_call_private_function self t fs args in Ok r.1
  | Private Delegate t fs args =>
      let* r := delegate_call_private_function self t fs args in Ok r.1
  | PrivateNoArgs Plain t fs =>
      let* r := call_private_function_no_args self t fs in Ok r.1
  | PrivateNoArgs Static t fs =>
      let* r := static_call_private_function_no_args self t fs in Ok r.1
  | PrivateNoArgs Delegate t fs =>
      let* r := delegate_call_private_function_no_args self t fs in Ok r.1
  | PrivatePacked t fs h st dl =>
      let* r := call_private_function_with_packed_args self t fs h st dl in
      Ok r.1
  | Public Plain t fs args => call_public_function self t fs args
  | Public Static t fs args => static_call_public_function self t fs args
  | Public Delegate t fs args => delegate_call_public_function self t fs args
  | PublicNoArgs Plain t fs => call_public_function_no_args self t fs
  | PublicNoArgs Static t fs => static_call_public_function_no_args self t fs
  | PublicNoArgs Delegate t fs =>
      delegate_call_public_function_no_args self t fs
  | PublicPacked t fs h st dl =>
      call_public_function_with_packed_args self t fs h st dl
  end.

(** The arguments with which a [NestedCall] reaches the simulator. *)
Definition requested_args_hash (c : NestedCall) : Field :=
  match c with
  | Private _ _ _ args | Public _ _ _ args => hash_args_array args
  | PrivateNoArgs _ _ _ | PublicNoArgs _ _ _ => 0
  | PrivatePacked _ _ h _ _ | PublicPacked _ _ h _ _ => h
  end.

Definition requested_static (c : NestedCall) : bool :=
  match c with
  | Private k _ _ _ | PrivateNoArgs k _ _
  | Public k _ _ _ | PublicNoArgs k _ _ => static_flag k
  | PrivatePacked _ _ _ st _ | PublicPacked _ _ _ st _ => st
  end.

Definition requested_delegate (c : NestedCall) : bool :=
  match c with
  | Private k _ _ _ | PrivateNoArgs k _ _
  | Public k _ _ _ | PublicNoArgs k _ _ => delegate_flag k
  | PrivatePacked _ _ _ _ dl | PublicPacked _ _ _ _ dl => dl
  end.

Definition requested_target (c : NestedCall) : AztecAddress :=
  match c with
  | Private _ t _ _ | PrivateNoArgs _ t _ | PrivatePacked t _ _ _ _
  | Public _ t _ _ | PublicNoArgs _ t _ | PublicPacked t _ _ _ _ => t
  end.

Definition requested_selector (c : NestedCall) : FunctionSelector :=
  match c with
  | Private _ _ fs _ | PrivateNoArgs _ _ fs | PrivatePacked _ fs _ _ _
  | Public _ _ fs _ | PublicNoArgs _ _ fs | PublicPacked _ fs _ _ _ => fs
  end.

Definition is_private_call (c : NestedCall) : bool :=
  match c with
  | Private _ _ _ _ | PrivateNoArgs _ _ _ | PrivatePacked _ _ _ _ _ => true
  | _ => false
  end.

(** The flag with which the callee is asked to run: static when requested or
    when the caller itself runs in a static call. *)
Definition effective_static (self : PrivateContext) (c : NestedCall) : bool :=
  requested_static c || is_static_call (call_context (inputs self)).

(** The call context and the end of the execution window of the item that
    the simulator hands back for [c] issued from [self]. *)
Definition callee_context (self : PrivateContext) (c : NestedCall)
  : CallContext :=
  if is_private_call c then
    pi_call_context
      (public_inputs
         (call_private_function_internal (requested_target c)
            (requested_selector c) (requested_args_hash c)
            (side_effect_counter self) (effective_static self c)
            (requested_delegate c)))
  else
    pub_call_context
      (enqueued_item
         (enqueue_public_function_call_internal (requested_target c)
            (requested_selector c) (requested_args_hash c)
            (side_effect_counter self) (effective_static self c)
            (requested_delegate c))).

Definition callee_end_side_effect_counter (self : PrivateContext)
    (c : NestedCall) : Z :=
  if is_private_call c then
    pi_end_side_effect_counter
      (public_inputs
         (call_private_function_internal (requested_target c)
            (requested_selector c) (requested_args_hash c)
            (side_effect_counter self) (effective_static self c)
            (requested_delegate c)))
  else
    pub_end_side_effect_counter
      (enqueued_item
         (enqueue_public_function_call_internal (requested_target c)
            (requested_selector c) (requested_args_hash c)
            (side_effect_counter self) (effective_static self c)
            (requested_delegate c))).

(** The start of the execution window of that item. *)
Definition callee_start_side_effect_counter (self : PrivateContext)
    (c : NestedCall) : Z :=
  if is_private_call c then
    pi_start_side_effect_counter
      (public_inputs
         (call_private_function_internal (requested_target c)
            (requested_selector c) (requested_args_hash c)
            (side_effect_counter self) (effective_static self c)
            (requested_delegate c)))
  else
    pub_start_side_effect_counter
      (enqueued_item
         (enqueue_public_function_call_internal (requested_target c)
            (requested_selector c) (requested_args_hash c)
            (side_effect_counter self) (effective_static self c)
            (requested_delegate c))).

(** *** The remaining operations of the context *)

Variable emit_unencrypted_log_oracle_private :
  forall T : Type, AztecAddress -> Field -> T -> Field.

(** [process_l1_to_l2_message] of the messaging crate; it is given the
    historical header, whose L1-to-L2 message tree root it uses. *)
Variable process_l1_to_l2_message :
  Header -> AztecAddress -> EthAddress -> Field -> Field -> Field -> Field ->
  Field.

Definition this_address (self : PrivateContext) : AztecAddress :=
  storage_contract_address (call_context (inputs self)).

Definition set_unencrypted_logs_hashes (c : PrivateContext) v :=
  mkPrivateContext (inputs c) (side_effect_counter c)
    (min_revertible_side_effect_counter c)
    (args_hash c) (return_hash c) (max_block_number c)
    (note_hash_read_requests c) (nullifier_read_requests c)
    (nullifier_key_validation_requests c) (new_note_hashes c)
    (new_nullifiers c) (private_call_stack_hashes c)
    (public_call_stack_hashes c) (new_l2_to_l1_msgs c) (historical_header c)
    (encrypted_logs_hashes c) v (nullifier_key c).

Definition emit_unencrypted_log {T} (self : PrivateContext) (log : T)
  : result PrivateContext :=
  let event_selector := 5 in
  let log_hash :=
    emit_unencrypted_log_oracle_private T (this_address self) event_selector
      log in
  let side_effect := mkSideEffect log_hash (side_effect_counter self) in
  let* v := push (unencrypted_logs_hashes self) side_effect in
  bump_counter (set_unencrypted_logs_hashes self v).

Definition consume_l1_to_l2_message (self : PrivateContext)
    (content secret : Field) (sender : EthAddress) : result PrivateContext :=
  let nullifier :=
    process_l1_to_l2_message (historical_header self) (this_address self)
      sender (chain_id (tx_context (inputs self)))
      (version (tx_context (inputs self))) content secret in
  push_new_nullifier self nullifier 0.

(** Everything a private function can do to its context, as data. *)
Inductive Action : Type :=
| Record (e : Effect)
| EmitUnencryptedLog (log : list Field)
| ConsumeL1ToL2Message (content secret : Field) (sender : EthAddress)
| MessagePortal (recipient : EthAddress) (content : Field)
| EndSetup
| RequestKey (account : AztecAddress)
| Nested (c : NestedCall).

Definition act (self : PrivateContext) (a : Action) : result PrivateContext :=
  match a with
  | Record e => record self e
  | EmitUnencryptedLog log => emit_unencrypted_log self log
  | ConsumeL1ToL2Message content secret sender =>
      consume_l1_to_l2_message self content secret sender
  | MessagePortal recipient content => message_portal self recipient content
  | EndSetup => Ok (end_setup self)
  | RequestKey account =>
      let* r := request_app_nullifier_secret_key self account in Ok r.1
  | Nested c => perform self c
  end.

(** Every counter stamped on a side effect that the context holds. *)
Definition all_counters (self : PrivateContext) : list Z :=
  recorded_counters self
  ++ (se_counter <$> items (unencrypted_logs_hashes self)).

End Oracles.

(** The five kinds of effect, each with a sequence of its own. *)
Inductive Kind : Type :=
  KNoteHash | KNullifier | KNoteHashRead | KNullifierRead | KEncryptedLog.

#[global] Instance Kind_eq_dec : EqDecision Kind.
Proof. solve_decision. Defined.

Definition kind (e : Effect) : Kind :=
  match e with
  | NewNoteHash _ => KNoteHash
  | NewNullifier _ _ => KNullifier
  | NoteHashReadRequest _ => KNoteHashRead
  | NullifierReadRequest _ => KNullifierRead
  | EncryptedLog _ => KEncryptedLog
  end.

(** Used slots and capacity of the sequence of a kind. *)
Definition used (k : Kind) (self : PrivateContext) : nat :=
  match k with
  | KNoteHash => len (new_note_hashes self)
  | KNullifier => len (new_nullifiers self)
  | KNoteHashRead => len (note_hash_read_requests self)
  | KNullifierRead => len (nullifier_read_requests self)
  | KEncryptedLog => len (encrypted_logs_hashes self)
  end.

Definition capacity (k : Kind) (self : PrivateContext) : nat :=
  match k with
  | KNoteHash => length (storage (new_note_hashes self))
  | KNullifier => length (storage (new_nullifiers self))
  | KNoteHashRead => length (storage (note_hash_read_requests self))
  | KNullifierRead => length (storage (nullifier_read_requests self))
  | KEncryptedLog => length (storage (encrypted_logs_hashes self))
  end.

(** How many effects of kind [k] a run asks to record. *)
Definition demand (k : Kind) (es : list Effect) : nat :=
  length (filter (fun e => kind e = k) es).

(** The windows that the simulator reports for nested private calls are not
    inverted. *)
Definition simulator_windows_ordered
    (call_private_function_internal :
       AztecAddress -> FunctionSelector -> Field -> Z -> bool -> bool ->
       PrivateCallStackItem) : Prop :=
  forall t fs h c st dl,
    pi_start_side_effect_counter
      (public_inputs (call_private_function_internal t fs h c st dl))
    <= pi_end_side_effect_counter
         (public_inputs (call_private_function_internal t fs h c st dl)).

(** Every sequence of the context has only empty entries past its used
    slots. *)
Definition vectors_padded (self : PrivateContext) : Prop :=
  is_padded (note_hash_read_requests self) /\
  is_padded (nullifier_read_requests self) /\
  is_padded (nullifier_key_validation_requests self) /\
  is_padded (new_note_hashes self) /\
  is_padded (new_nullifiers self) /\
  is_padded (private_call_stack_hashes self) /\
  is_padded (public_call_stack_hashes self) /\
  is_padded (new_l2_to_l1_msgs self) /\
  is_padded (encrypted_logs_hashes self) /\
  is_padded (unencrypted_logs_hashes self).

(** The counters stamped so far are distinct and lie between the start of
    the invocation and its current counter. *)
Definition counters_in_window (self : PrivateContext) : Prop :=
  start_side_effect_counter (inputs self) <= side_effect_counter self /\
  Forall (fun c => start_side_effect_counter (inputs self) <= c
                   < side_effect_counter self) (all_counters self) /\
  NoDup (all_counters self).

End Tracker.

(** * Call-Stack Validator: [private-kernel-lib/src/common.nr] *)

Module Validator.

(** The part of [PrivateCallData] that the call-stack checks read: the item
    being verified and the call requests it declares. *)
Record PrivateCallData : Type := mkPrivateCallData {
  call_stack_item : PrivateCallStackItem;
  private_call_stack : list CallRequest;
  public_call_stack : list CallRequest
}.

Definition perform_static_call_checks (private_call : PrivateCallData)
  : result unit :=
  let public_inputs := public_inputs (call_stack_item private_call) in
  let is_static_call := is_static_call (pi_call_context public_inputs) in
  if is_static_call then
    assert (is_empty_array (pi_new_note_hashes public_inputs))
      "new_note_hashes must be empty for static calls";;
    assert (is_empty_array (pi_new_nullifiers public_inputs))
      "new_nullifiers must be empty for static calls";;
    let new_l2_to_l1_msgs_length :=
      array_length (pi_new_l2_to_l1_msgs public_inputs) in
    assert (Nat.eqb new_l2_to_l1_msgs_length 0)
      "new_l2_to_l1_msgs must be empty for static calls";;
    assert (bool_decide (pi_encrypted_log_preimages_length public_inputs = 4))
      "No encrypted logs are allowed for static calls";;
    assert (bool_decide (pi_unencrypted_log_preimages_length public_inputs = 4))
      "No unencrypted logs are allowed for static calls"
  else Ok tt.

Definition is_valid_caller (request_from_stack : CallRequest)
    (fn_being_verified : PrivateCallData) : bool :=
  let call_context :=
    pi_call_context (public_inputs (call_stack_item fn_being_verified)) in
  let valid_caller_context :=
    bool_decide (cc_msg_sender (caller_context request_from_stack)
                 = msg_sender call_context)
    && bool_decide (cc_storage_contract_address
                      (caller_context request_from_stack)
                    = storage_contract_address call_context) in
  bool_decide (caller_contract_address request_from_stack
               = item_contract_address (call_stack_item fn_being_verified))
  && (CallerContext_is_empty (caller_context request_from_stack)
      || valid_caller_context).

(** [for i in 0..N] over the two arrays of length [N]. *)
Definition validate_call_requests (call_requests : list CallRequest)
    (hashes : list Field) (private_call : PrivateCallData) : result unit :=
  for_each
    (fun (_ : unit) (i : nat) =>
       let hash := nth i hashes ∅ in
       let request := nth i call_requests ∅ in
       if negb (bool_decide (hash = 0)) then
         assert (bool_decide (cr_hash request = hash))
           "call stack hash does not match call request hash";;
         assert (is_valid_caller request private_call) "invalid caller"
       else
         assert (is_empty request)
           "call requests length does not match the expected length")
    (seq 0 (length hashes)) tt.

Section PrivateCall.

Variable validate_arrays : PrivateCircuitPublicInputs -> result unit.
Variable contract_logic : PrivateCallData -> result unit.
Variable item_hash : PrivateCallStackItem -> Field.

Definition validate_private_call_data (private_call : PrivateCallData)
  : result unit :=
  let private_call_public_inputs :=
    public_inputs (call_stack_item private_call) in
  validate_arrays private_call_public_inputs;;
  contract_logic private_call;;
  perform_static_call_checks private_call;;
  validate_call_requests (private_call_stack private_call)
    (pi_private_call_stack_hashes private_call_public_inputs) private_call;;
  validate_call_requests (public_call_stack private_call)
    (pi_public_call_stack_hashes private_call_public_inputs) private_call.

Definition validate_call_against_request (private_call : PrivateCallData)
    (request : CallRequest) : result unit :=
  let call_stack_item := call_stack_item private_call in
  assert (bool_decide (cr_hash request = item_hash call_stack_item))
    "calculated private_call_hash does not match provided private_call_hash at the top of the call stack";;
  let call_context := pi_call_context (public_inputs call_stack_item) in
  if is_delegate_call call_context then
    let caller_context := caller_context request in
    assert (negb (CallerContext_is_empty caller_context))
      "caller context cannot be empty for delegate calls";;
    assert (bool_decide (msg_sender call_context = cc_msg_sender caller_context))
      "call stack msg_sender does not match expected msg_sender for delegate calls";;
    assert (bool_decide (storage_contract_address call_context
                         = cc_storage_contract_address caller_context))
      "call stack storage address does not match expected contract address for delegate calls";;
    assert (negb (bool_decide (item_contract_address call_stack_item
                               = storage_contract_address call_context)))
      "curent contract address must not match storage contract address for delegate calls"
  else
    let caller_contract_address := caller_contract_address request in
    assert (bool_decide (msg_sender call_context = caller_contract_address))
      "call stack msg_sender does not match caller contract address";;
    assert (bool_decide (storage_contract_address call_context
                         = item_contract_address call_stack_item))
      "call stack storage address does not match expected contract address".

End PrivateCall.

(** *** Note-hash read requests *)

(** The fields of a [NoteHashReadRequestMembershipWitness] that the check
    reads. *)
Record NoteHashReadRequestMembershipWitness : Type :=
  mkNoteHashReadRequestMembershipWitness {
  leaf_index : Field;
  sibling_path : list Field;
  is_transient : bool
}.

#[global] Instance NoteHashReadRequestMembershipWitness_empty :
  Empty NoteHashReadRequestMembershipWitness :=
  mkNoteHashReadRequestMembershipWitness 0 [] false.

Section ReadRequests.

(** [merkle_tree::check_membership]: leaf, index, sibling path, root. *)
Variable check_membership : Field -> Field -> list Field -> Field -> bool.

Definition validate_note_hash_read_requests
    (historical_note_hash_tree_root : Field)
    (read_requests : list SideEffect)
    (read_request_membership_witnesses :
       list NoteHashReadRequestMembershipWitness) : result unit :=
  for_each
    (fun (_ : unit) (rr_idx : nat) =>
       let read_request := se_value (nth rr_idx read_requests ∅) in
       let witness := nth rr_idx read_request_membership_witnesses ∅ in
       if negb (bool_decide (read_request = 0))
          && Bool.eqb (is_transient witness) false then
         assert (check_membership read_request (leaf_index witness)
                   (sibling_path witness) historical_note_hash_tree_root)
           "note hash tree root mismatch"
       else Ok tt)
    (seq 0 (length read_requests)) tt.

End ReadRequests.

End Validator.

(** * Accumulated data: [private_accumulated_data_builder.nr] *)

(** Modelled from the spec: [abis::gas] is not among the sources.  Gas is
    "{data-availability units, execution units}, additive": the sum of two
    amounts adds each component, in checked [u32] arithmetic. *)
Definition Gas_add (a b : Gas) : result Gas :=
  let* d := u32_add (da_gas a) (da_gas b) in
  let* l := u32_add (l2_gas a) (l2_gas b) in
  Ok (mkGas d l).

(** Modelled from the spec: [NoteHashContext::expose_to_public] is not among
    the sources; the test [splits_revertible_and_non_revertible] shows what it
    keeps: the value, with the counter cleared. *)
Definition expose_to_public (n : NoteHashContext) : NoteHash :=
  mkSideEffect (nh_value n) 0.

Module Builder.

Record PrivateAccumulatedDataBuilder : Type := mkPrivateAccumulatedDataBuilder {
  new_note_hashes : BoundedVec NoteHashContext;
  new_nullifiers : BoundedVec Nullifier;
  new_l2_to_l1_msgs : BoundedVec Field;
  encrypted_logs_hashes : BoundedVec SideEffect;
  unencrypted_logs_hashes : BoundedVec SideEffect;
  encrypted_log_preimages_length : Field;
  unencrypted_log_preimages_length : Field;
  private_call_stack : BoundedVec CallRequest;
  public_call_stack : BoundedVec CallRequest
}.

Record PrivateAccumulatedData : Type := mkPrivateAccumulatedData {
  pad_new_note_hashes : list NoteHashContext;
  pad_new_nullifiers : list Nullifier;
  pad_new_l2_to_l1_msgs : list Field;
  pad_encrypted_logs_hashes : list SideEffect;
  pad_unencrypted_logs_hashes : list SideEffect;
  pad_encrypted_log_preimages_length : Field;
  pad_unencrypted_log_preimages_length : Field;
  pad_private_call_stack : list CallRequest;
  pad_public_call_stack : list CallRequest
}.

(** Modelled from the spec: [PublicAccumulatedData] and its builder are
    declared outside the sources.  These are the fields that
    [split_to_public] fills; the finished form holds the backing arrays. *)
Record PublicAccumulatedData : Type := mkPublicAccumulatedData {
  pub_new_note_hashes : list NoteHash;
  pub_new_nullifiers : list Nullifier;
  pub_new_l2_to_l1_msgs : list Field;
  pub_encrypted_logs_hashes : list SideEffect;
  pub_unencrypted_logs_hashes : list SideEffect;
  pub_encrypted_log_preimages_length : Field;
  pub_unencrypted_log_preimages_length : Field;
  pub_public_call_stack : list CallRequest;
  pub_gas_used : Gas
}.

Definition finish (self : PrivateAccumulatedDataBuilder)
  : PrivateAccumulatedData :=
  mkPrivateAccumulatedData
    (storage (new_note_hashes self)) (storage (new_nullifiers self))
    (storage (new_l2_to_l1_msgs self))
    (storage (encrypted_logs_hashes self))
    (storage (unencrypted_logs_hashes self))
    (encrypted_log_preimages_length self)
    (unencrypted_log_preimages_length self)
    (storage (private_call_stack self)) (storage (public_call_stack self)).

(** One of the loops of [split_to_public] that meter gas:
    [[
      for i in 0..MAX {
          let x = array[i]; let y = expose(x);
          if x.counter < min {
              non_revertible.push(y);
              if !is_empty(y) { non_revertible_da_gas_used += cost; }
          } else {
              revertible.push(y);
              if !is_empty(y) { revertible_da_gas_used += cost; }
          }
      }
    ]]
    The state is the pair of sequences being filled and the two gas sums. *)
Record Metered (U : Type) : Type := mkMetered {
  m_non_revertible : BoundedVec U;
  m_revertible : BoundedVec U;
  m_non_revertible_da_gas_used : Z;
  m_revertible_da_gas_used : Z
}.
Arguments mkMetered {U}.
Arguments m_non_revertible {U}.
Arguments m_revertible {U}.
Arguments m_non_revertible_da_gas_used {U}.
Arguments m_revertible_da_gas_used {U}.

Definition charge {U} `{Empty U, EqDecision U} (y : U) (gas cost : Z)
  : result Z :=
  if negb (is_empty y) then u32_add gas cost else Ok gas.

Definition split_metered_step {T U} `{Empty U, EqDecision U}
    (counter : T -> Z) (expose : T -> U)
    (min_revertible_side_effect_counter cost : Z)
    (st : Metered U) (x : T) : result (Metered U) :=
  let y := expose x in
  if (counter x <? min_revertible_side_effect_counter) then
    let* v := push (m_non_revertible st) y in
    let* g := charge y (m_non_revertible_da_gas_used st) cost in
    Ok (mkMetered v (m_revertible st) g (m_revertible_da_gas_used st))
  else
    let* v := push (m_revertible st) y in
    let* g := charge y (m_revertible_da_gas_used st) cost in
    Ok (mkMetered (m_non_revertible st) v (m_non_revertible_da_gas_used st) g).

(** One of the loops that only distribute:
    [[
      for i in 0..MAX {
          let x = array[i];
          if x.counter < min { non_revertible.push(x); }
          else { revertible.push(x); }
      }
    ]] *)
Definition split_plain_step {T} (counter : T -> Z)
    (min_revertible_side_effect_counter : Z)
    (st : BoundedVec T * BoundedVec T) (x : T)
  : result (BoundedVec T * BoundedVec T) :=
  if (counter x <? min_revertible_side_effect_counter) then
    let* v := push st.1 x in Ok (v, st.2)
  else
    let* v := push st.2 x in Ok (st.1, v).

(** The two halves of an array of side effects, as the specification words
    them: counter below the threshold, counter at or above it. *)
Definition non_revertible_part {T} (counter : T -> Z) (threshold : Z)
    (l : list T) : list T :=
  filter (fun x => counter x < threshold) l.

Definition revertible_part {T} (counter : T -> Z) (threshold : Z)
    (l : list T) : list T :=
  filter (fun x => threshold <= counter x) l.

(** An array of [N] slots that holds [l] followed by empty entries. *)
Definition zero_padded {T} `{Empty T} (N : nat) (l : list T) : list T :=
  l ++ replicate (N - length l) ∅.

(** The number of entries of [l] that are charged for: the non-empty ones. *)
Definition billable {T} `{Empty T, EqDecision T} (l : list T) : Z :=
  Z.of_nat (length (filter (fun y => y <> ∅) l)).

Section Split.

Variables
  (MAX_NEW_NOTE_HASHES_PER_TX
   MAX_NEW_NULLIFIERS_PER_TX
   MAX_NEW_L2_TO_L1_MSGS_PER_TX
   MAX_PUBLIC_CALL_STACK_LENGTH_PER_TX
   MAX_ENCRYPTED_LOGS_PER_TX
   MAX_UNENCRYPTED_LOGS_PER_TX : nat).
Variables (DA_BYTES_PER_FIELD DA_GAS_PER_BYTE FIXED_DA_GAS FIXED_L2_GAS : Z).

(** Modelled from the spec: [Gas::tx_overhead] is not among the sources; it is
    the "fixed per-transaction overhead". *)
Definition tx_overhead : Gas := mkGas FIXED_DA_GAS FIXED_L2_GAS.

(** Both builders start empty; each loop fills one sequence of each of them,
    and the finished pair is assembled from these at the end. *)
Definition split_to_public (self : PrivateAccumulatedDataBuilder)
    (min_revertible_side_effect_counter : Z) (teardown_gas : Gas)
  : result (PublicAccumulatedData * PublicAccumulatedData) :=
  let non_revertible_da_gas_used := 0 in
  let non_revertible_l2_gas_used := 0 in
  let revertible_da_gas_used := da_gas teardown_gas in
  let revertible_l2_gas_used := l2_gas teardown_gas in
  let* DA_GAS_PER_FIELD := u32_mul DA_BYTES_PER_FIELD DA_GAS_PER_BYTE in
  let* note_hashes :=
    for_each
      (split_metered_step nh_counter expose_to_public
         min_revertible_side_effect_counter DA_GAS_PER_FIELD)
      (storage (new_note_hashes self))
      (mkMetered (BoundedVec_new MAX_NEW_NOTE_HASHES_PER_TX)
                 (BoundedVec_new MAX_NEW_NOTE_HASHES_PER_TX)
                 non_revertible_da_gas_used revertible_da_gas_used) in
  let* nullifiers :=
    for_each
      (split_metered_step nf_counter (fun n => n)
         min_revertible_side_effect_counter DA_GAS_PER_FIELD)
      (storage (new_nullifiers self))
      (mkMetered (BoundedVec_new MAX_NEW_NULLIFIERS_PER_TX)
                 (BoundedVec_new MAX_NEW_NULLIFIERS_PER_TX)
                 (m_non_revertible_da_gas_used note_hashes)
                 (m_revertible_da_gas_used note_hashes)) in
  let non_revertible_da_gas_used := m_non_revertible_da_gas_used nullifiers in
  let revertible_da_gas_used := m_revertible_da_gas_used nullifiers in
  let* call_stack :=
    for_each
      (split_plain_step cr_start_side_effect_counter
         min_revertible_side_effect_counter)
      (storage (public_call_stack self))
      (BoundedVec_new MAX_PUBLIC_CALL_STACK_LENGTH_PER_TX,
       BoundedVec_new MAX_PUBLIC_CALL_STACK_LENGTH_PER_TX) in
  let* encrypted :=
    for_each
      (split_plain_step se_counter min_revertible_side_effect_counter)
      (storage (encrypted_logs_hashes self))
      (BoundedVec_new MAX_ENCRYPTED_LOGS_PER_TX,
       BoundedVec_new MAX_ENCRYPTED_LOGS_PER_TX) in
  let* unencrypted :=
    for_each
      (split_plain_step se_counter min_revertible_side_effect_counter)
      (storage (unencrypted_logs_hashes self))
      (BoundedVec_new MAX_UNENCRYPTED_LOGS_PER_TX,
       BoundedVec_new MAX_UNENCRYPTED_LOGS_PER_TX) in
  let* log_bytes :=
    u32_add (as_u32 (encrypted_log_preimages_length self))
            (as_u32 (unencrypted_log_preimages_length self)) in
  let* log_gas := u32_mul DA_GAS_PER_BYTE log_bytes in
  let* revertible_da_gas_used := u32_add revertible_da_gas_used log_gas in
  let revertible_gas_used :=
    mkGas revertible_da_gas_used revertible_l2_gas_used in
  let* non_revertible_gas_used :=
    Gas_add tx_overhead
      (mkGas non_revertible_da_gas_used non_revertible_l2_gas_used) in
  Ok (mkPublicAccumulatedData
        (storage (m_non_revertible note_hashes))
        (storage (m_non_revertible nullifiers))
        (storage (BoundedVec_new (T:=Field) MAX_NEW_L2_TO_L1_MSGS_PER_TX))
        (storage encrypted.1) (storage unencrypted.1)
        0 0
        (storage call_stack.1)
        non_revertible_gas_used,
      mkPublicAccumulatedData
        (storage (m_revertible note_hashes))
        (storage (m_revertible nullifiers))
        (storage (new_l2_to_l1_msgs self))
        (storage encrypted.2) (storage unencrypted.2)
        (encrypted_log_preimages_length self)
        (unencrypted_log_preimages_length self)
        (storage call_stack.2)
        revertible_gas_used).

(** *** The private-only tail: metering and [to_combined] *)

Variable MAX_PUBLIC_DATA_UPDATE_REQUESTS_PER_TX : nat.
Variable compute_tx_logs_hash : list SideEffect -> Field.

Record PublicDataUpdateRequest : Type := mkPublicDataUpdateRequest {
  leaf_slot : Field;
  new_value : Field
}.

#[global] Instance PublicDataUpdateRequest_empty :
  Empty PublicDataUpdateRequest := mkPublicDataUpdateRequest 0 0.

(** The fields that [to_combined] fills. *)
Record CombinedAccumulatedData : Type := mkCombinedAccumulatedData {
  cad_new_note_hashes : list Field;
  cad_new_nullifiers : list Field;
  cad_new_l2_to_l1_msgs : list Field;
  cad_encrypted_logs_hash : Field;
  cad_unencrypted_logs_hash : Field;
  cad_encrypted_log_preimages_length : Field;
  cad_unencrypted_log_preimages_length : Field;
  cad_public_data_update_requests : list PublicDataUpdateRequest;
  cad_gas_used : Gas
}.

(** One of the three loops of [to_metered_gas_used]:
    [[
      for i in 0..array.len() {
          if !is_empty(array[i]) { metered_bytes += DA_BYTES_PER_FIELD; }
      }
    ]] *)
Definition meter_fields {T} `{Empty T, EqDecision T} (array : list T)
    (metered_bytes : Z) : result Z :=
  for_each (fun bytes x => charge x bytes DA_BYTES_PER_FIELD) array
    metered_bytes.

Definition to_metered_gas_used (self : PrivateAccumulatedDataBuilder)
  : result Gas :=
  let metered_bytes := 0 in
  let* metered_bytes :=
    meter_fields (storage (new_note_hashes self)) metered_bytes in
  let* metered_bytes :=
    meter_fields (storage (new_nullifiers self)) metered_bytes in
  let* metered_bytes :=
    meter_fields (storage (new_l2_to_l1_msgs self)) metered_bytes in
  let* metered_bytes :=
    u32_add metered_bytes (as_u32 (encrypted_log_preimages_length self)) in
  let* metered_bytes :=
    u32_add metered_bytes (as_u32 (unencrypted_log_preimages_length self)) in
  let* da := u32_mul DA_GAS_PER_BYTE metered_bytes in
  Ok (mkGas da 0).

Definition to_combined (self : PrivateAccumulatedDataBuilder)
    (teardown_gas : Gas) : result CombinedAccumulatedData :=
  let encrypted_logs_hash :=
    compute_tx_logs_hash (storage (encrypted_logs_hashes self)) in
  let unencrypted_logs_hash :=
    compute_tx_logs_hash (storage (unencrypted_logs_hashes self)) in
  let* metered := to_metered_gas_used self in
  let* with_overhead := Gas_add metered tx_overhead in
  let* gas_used := Gas_add with_overhead teardown_gas in
  Ok (mkCombinedAccumulatedData
        (nh_value <$> storage (new_note_hashes self))
        (nf_value <$> storage (new_nullifiers self))
        (storage (new_l2_to_l1_msgs self))
        encrypted_logs_hash unencrypted_logs_hash
        (encrypted_log_preimages_length self)
        (unencrypted_log_preimages_length self)
        (replicate MAX_PUBLIC_DATA_UPDATE_REQUESTS_PER_TX ∅)
        gas_used).

End Split.

(** [self'] is [self] after one more non-empty note hash, nullifier or
    L2-to-L1 message was pushed to it. *)
Inductive one_more_effect
  : PrivateAccumulatedDataBuilder -> PrivateAccumulatedDataBuilder -> Prop :=
| more_note_hash self n v :
    n <> ∅ -> is_padded (new_note_hashes self) ->
    push (new_note_hashes self) n = Ok v ->
    one_more_effect self
      (mkPrivateAccumulatedDataBuilder v (new_nullifiers self)
         (new_l2_to_l1_msgs self) (encrypted_logs_hashes self)
         (unencrypted_logs_hashes self) (encrypted_log_preimages_length self)
         (unencrypted_log_preimages_length self) (private_call_stack self)
         (public_call_stack self))
| more_nullifier self n v :
    n <> ∅ -> is_padded (new_nullifiers self) ->
    push (new_nullifiers self) n = Ok v ->
    one_more_effect self
      (mkPrivateAccumulatedDataBuilder (new_note_hashes self) v
         (new_l2_to_l1_msgs self) (encrypted_logs_hashes self)
         (unencrypted_logs_hashes self) (encrypted_log_preimages_length self)
         (unencrypted_log_preimages_length self) (private_call_stack self)
         (public_call_stack self))
| more_message self (m : Field) v :
    m <> ∅ -> is_padded (new_l2_to_l1_msgs self) ->
    push (new_l2_to_l1_msgs self) m = Ok v ->
    one_more_effect self
      (mkPrivateAccumulatedDataBuilder (new_note_hashes self)
         (new_nullifiers self) v (encrypted_logs_hashes self)
         (unencrypted_logs_hashes self) (encrypted_log_preimages_length self)
         (unencrypted_log_preimages_length self) (private_call_stack self)
         (public_call_stack self)).

End Builder.

(** * Kernel Composer: [KernelCircuitPublicInputsComposer] *)

(** The trait [Ordered]: a side effect carries a counter. *)
Class Ordered (T : Type) : Type := counter : T -> Z.
#[global] Instance NoteHashContext_ordered : Ordered NoteHashContext := nh_counter.
#[global] Instance Nullifier_ordered : Ordered Nullifier := nf_counter.
#[global] Instance SideEffect_ordered : Ordered SideEffect := se_counter.

Definition asc_sort_by_counters {T} `{Ordered T} (a b : T) : bool :=
  counter a <? counter b.

Module Composer.

(** Transaction-wide constants; they are carried forward, never inspected by
    the steps below. *)
Record CombinedConstantData : Type := mkCombinedConstantData {
  const_historical_header : Header;
  const_tx_context : TxContext
}.

#[global] Instance CombinedConstantData_empty : Empty CombinedConstantData :=
  mkCombinedConstantData 0 (mkTxContext 0 0).

(** Public inputs of the previous kernel iteration. *)
Record PrivateKernelCircuitPublicInputs : Type :=
  mkPrivateKernelCircuitPublicInputs {
  prev_min_revertible_side_effect_counter : Z;
  prev_max_block_number : MaxBlockNumber;
  prev_end : Builder.PrivateAccumulatedData;
  prev_constants : CombinedConstantData
}.

Record PrivateKernelCircuitPublicInputsBuilder : Type :=
  mkPrivateKernelCircuitPublicInputsBuilder {
  b_min_revertible_side_effect_counter : Z;
  b_max_block_number : MaxBlockNumber;
  b_end : Builder.PrivateAccumulatedDataBuilder;
  b_constants : CombinedConstantData
}.

Definition set_end (b : PrivateKernelCircuitPublicInputsBuilder)
    (e : Builder.PrivateAccumulatedDataBuilder) :=
  mkPrivateKernelCircuitPublicInputsBuilder
    (b_min_revertible_side_effect_counter b) (b_max_block_number b) e
    (b_constants b).

Record KernelCircuitPublicInputsComposer : Type :=
  mkKernelCircuitPublicInputsComposer {
  public_inputs : PrivateKernelCircuitPublicInputsBuilder;
  previous_kernel : PrivateKernelCircuitPublicInputs;
  note_hashes : list NoteHashContext;
  nullifiers : list Nullifier;
  transient_nullifier_indexes_for_note_hashes : list Z;
  transient_note_hash_indexes_for_nullifiers : list Z;
  sorted_note_hashes : list NoteHashContext;
  sorted_note_hashes_indexes : list Z;
  sorted_nullifiers : list Nullifier;
  sorted_nullifiers_indexes : list Z;
  sorted_encrypted_log_hashes : list SideEffect;
  sorted_encrypted_log_hashes_indexes : list Z;
  sorted_unencrypted_log_hashes : list SideEffect;
  sorted_unencrypted_log_hashes_indexes : list Z
}.

Definition set_public_inputs (c : KernelCircuitPublicInputsComposer)
    (p : PrivateKernelCircuitPublicInputsBuilder) :=
  mkKernelCircuitPublicInputsComposer p (previous_kernel c)
    (note_hashes c) (nullifiers c)
    (transient_nullifier_indexes_for_note_hashes c)
    (transient_note_hash_indexes_for_nullifiers c)
    (sorted_note_hashes c) (sorted_note_hashes_indexes c)
    (sorted_nullifiers c) (sorted_nullifiers_indexes c)
    (sorted_encrypted_log_hashes c) (sorted_encrypted_log_hashes_indexes c)
    (sorted_unencrypted_log_hashes c)
    (sorted_unencrypted_log_hashes_indexes c).

(** [self.public_inputs.end = e] *)
Definition set_public_end (c : KernelCircuitPublicInputsComposer)
    (e : Builder.PrivateAccumulatedDataBuilder) :=
  set_public_inputs c (set_end (public_inputs c) e).

Definition end_with_note_hashes (e : Builder.PrivateAccumulatedDataBuilder)
    (v : BoundedVec NoteHashContext) :=
  Builder.mkPrivateAccumulatedDataBuilder v
    (Builder.new_nullifiers e) (Builder.new_l2_to_l1_msgs e)
    (Builder.encrypted_logs_hashes e) (Builder.unencrypted_logs_hashes e)
    (Builder.encrypted_log_preimages_length e)
    (Builder.unencrypted_log_preimages_length e)
    (Builder.private_call_stack e) (Builder.public_call_stack e).

Definition end_with_nullifiers (e : Builder.PrivateAccumulatedDataBuilder)
    (v : BoundedVec Nullifier) :=
  Builder.mkPrivateAccumulatedDataBuilder (Builder.new_note_hashes e) v
    (Builder.new_l2_to_l1_msgs e)
    (Builder.encrypted_logs_hashes e) (Builder.unencrypted_logs_hashes e)
    (Builder.encrypted_log_preimages_length e)
    (Builder.unencrypted_log_preimages_length e)
    (Builder.private_call_stack e) (Builder.public_call_stack e).

Definition end_with_public_call_stack
    (e : Builder.PrivateAccumulatedDataBuilder) (v : BoundedVec CallRequest) :=
  Builder.mkPrivateAccumulatedDataBuilder
    (Builder.new_note_hashes e) (Builder.new_nullifiers e)
    (Builder.new_l2_to_l1_msgs e)
    (Builder.encrypted_logs_hashes e) (Builder.unencrypted_logs_hashes e)
    (Builder.encrypted_log_preimages_length e)
    (Builder.unencrypted_log_preimages_length e)
    (Builder.private_call_stack e) v.

(** The composer [self] with [l] as the backing array of its accumulated
    note hashes. *)
Definition with_note_hash_storage (self : KernelCircuitPublicInputsComposer)
    (l : list NoteHashContext) : KernelCircuitPublicInputsComposer :=
  let e := b_end (public_inputs self) in
  set_public_end self
    (end_with_note_hashes e
       (mkBoundedVec l (len (Builder.new_note_hashes e)))).

(** [validate_previous_kernel_values] of [common.nr] *)
Definition validate_previous_kernel_values (e : Builder.PrivateAccumulatedData)
  : result unit :=
  assert (negb (bool_decide
                  (nf_value (nth 0 (Builder.pad_new_nullifiers e) ∅) = 0)))
    "The 0th nullifier in the accumulated nullifier array is zero".

Section Compose.

Variables
  (MAX_NEW_NOTE_HASHES_PER_TX
   MAX_NEW_NULLIFIERS_PER_TX
   MAX_NEW_L2_TO_L1_MSGS_PER_TX
   MAX_PRIVATE_CALL_STACK_LENGTH_PER_TX
   MAX_PUBLIC_CALL_STACK_LENGTH_PER_TX
   MAX_ENCRYPTED_LOGS_PER_TX
   MAX_UNENCRYPTED_LOGS_PER_TX : nat).

(** Checks and hashes that live in other crates. *)
Variable verify_squashed_transient_note_hashes_and_nullifiers :
  list NoteHashContext -> list Nullifier ->
  list NoteHashContext -> list Nullifier -> list Z -> list Z -> result unit.
Variable assert_sorted_array :
  forall T, list T -> list T -> list Z -> (T -> T -> bool) -> result unit.
Variable compute_note_hash_nonce : Field -> nat -> Field.
Variable compute_unique_siloed_note_hash : Field -> Field -> Field.

(** [PrivateKernelCircuitPublicInputsBuilder::empty()] *)
Definition empty_builder : PrivateKernelCircuitPublicInputsBuilder :=
  mkPrivateKernelCircuitPublicInputsBuilder 0 None
    (Builder.mkPrivateAccumulatedDataBuilder
       (BoundedVec_new MAX_NEW_NOTE_HASHES_PER_TX)
       (BoundedVec_new MAX_NEW_NULLIFIERS_PER_TX)
       (BoundedVec_new MAX_NEW_L2_TO_L1_MSGS_PER_TX)
       (BoundedVec_new MAX_ENCRYPTED_LOGS_PER_TX)
       (BoundedVec_new MAX_UNENCRYPTED_LOGS_PER_TX)
       0 0
       (BoundedVec_new MAX_PRIVATE_CALL_STACK_LENGTH_PER_TX)
       (BoundedVec_new MAX_PUBLIC_CALL_STACK_LENGTH_PER_TX))
    ∅.

Definition new previous_kernel note_hashes nullifiers
    transient_nullifier_indexes_for_note_hashes
    transient_note_hash_indexes_for_nullifiers
    sorted_note_hashes sorted_note_hashes_indexes
    sorted_nullifiers sorted_nullifiers_indexes
    sorted_encrypted_log_hashes sorted_encrypted_log_hashes_indexes
    sorted_unencrypted_log_hashes sorted_unencrypted_log_hashes_indexes
  : KernelCircuitPublicInputsComposer :=
  let public_inputs := empty_builder in
  mkKernelCircuitPublicInputsComposer public_inputs previous_kernel
    note_hashes nullifiers
    transient_nullifier_indexes_for_note_hashes
    transient_note_hash_indexes_for_nullifiers
    sorted_note_hashes sorted_note_hashes_indexes
    sorted_nullifiers sorted_nullifiers_indexes
    sorted_encrypted_log_hashes sorted_encrypted_log_hashes_indexes
    sorted_unencrypted_log_hashes sorted_unencrypted_log_hashes_indexes.

Definition propagate_rollup_validation_requests
    (self : KernelCircuitPublicInputsComposer) :=
  let p := public_inputs self in
  set_public_inputs self
    (mkPrivateKernelCircuitPublicInputsBuilder
       (b_min_revertible_side_effect_counter p)
       (prev_max_block_number (previous_kernel self))
       (b_end p) (b_constants p)).

Definition propagate_constant_data (self : KernelCircuitPublicInputsComposer) :=
  let p := public_inputs self in
  set_public_inputs self
    (mkPrivateKernelCircuitPublicInputsBuilder
       (b_min_revertible_side_effect_counter p) (b_max_block_number p)
       (b_end p) (prev_constants (previous_kernel self))).

Definition propagate_sorted_arrays (self : KernelCircuitPublicInputsComposer)
  : result KernelCircuitPublicInputsComposer :=
  let accumulated_data := prev_end (previous_kernel self) in
  assert_sorted_array _ (Builder.pad_new_note_hashes accumulated_data)
    (sorted_note_hashes self) (sorted_note_hashes_indexes self)
    asc_sort_by_counters;;
  assert_sorted_array _ (Builder.pad_new_nullifiers accumulated_data)
    (sorted_nullifiers self) (sorted_nullifiers_indexes self)
    asc_sort_by_counters;;
  assert_sorted_array _ (Builder.pad_encrypted_logs_hashes accumulated_data)
    (sorted_encrypted_log_hashes self)
    (sorted_encrypted_log_hashes_indexes self) asc_sort_by_counters;;
  assert_sorted_array _ (Builder.pad_unencrypted_logs_hashes accumulated_data)
    (sorted_unencrypted_log_hashes self)
    (sorted_unencrypted_log_hashes_indexes self) asc_sort_by_counters;;
  let e := b_end (public_inputs self) in
  Ok (set_public_end self
        (Builder.mkPrivateAccumulatedDataBuilder
           (array_to_bounded_vec (sorted_note_hashes self))
           (array_to_bounded_vec (sorted_nullifiers self))
           (array_to_bounded_vec
              (Builder.pad_new_l2_to_l1_msgs accumulated_data))
           (array_to_bounded_vec (sorted_encrypted_log_hashes self))
           (array_to_bounded_vec (sorted_unencrypted_log_hashes self))
           (Builder.pad_encrypted_log_preimages_length accumulated_data)
           (Builder.pad_unencrypted_log_preimages_length accumulated_data)
           (Builder.private_call_stack e) (Builder.public_call_stack e))).

Definition propagate_sorted_public_call_requests
    (self : KernelCircuitPublicInputsComposer) :=
  let accumulated_data := prev_end (previous_kernel self) in
  set_public_end self
    (end_with_public_call_stack (b_end (public_inputs self))
       (array_to_bounded_vec (Builder.pad_public_call_stack accumulated_data))).

Definition squash_transient_data (self : KernelCircuitPublicInputsComposer)
  : result KernelCircuitPublicInputsComposer :=
  verify_squashed_transient_note_hashes_and_nullifiers
    (storage (Builder.new_note_hashes (b_end (public_inputs self))))
    (storage (Builder.new_nullifiers (b_end (public_inputs self))))
    (note_hashes self) (nullifiers self)
    (transient_nullifier_indexes_for_note_hashes self)
    (transient_note_hash_indexes_for_nullifiers self);;
  for_each
    (fun (_ : unit) (i : nat) =>
       assert (bool_decide
                 (nullifier_counter (nth i (note_hashes self) ∅) = 0))
         "Unresolved transient note hash")
    (seq 0 (length (note_hashes self))) tt;;
  for_each
    (fun (_ : unit) (i : nat) =>
       assert (bool_decide (nf_note_hash (nth i (nullifiers self) ∅) = 0))
         "Unresolved transient nullifier")
    (seq 0 (length (nullifiers self))) tt;;
  let self :=
    set_public_end self
      (end_with_note_hashes (b_end (public_inputs self))
         (array_to_bounded_vec (note_hashes self))) in
  let self :=
    set_public_end self
      (end_with_nullifiers (b_end (public_inputs self))
         (array_to_bounded_vec (nullifiers self))) in
  Ok self.

(** [self.public_inputs.end.new_note_hashes.storage[i].value = v] *)
Definition set_note_hash_value (self : KernelCircuitPublicInputsComposer)
    (i : nat) (v : Field) : KernelCircuitPublicInputsComposer :=
  let e := b_end (public_inputs self) in
  let vec := Builder.new_note_hashes e in
  let old := nth i (storage vec) ∅ in
  with_note_hash_storage self
    (<[i := mkNoteHashContext v (nh_counter old) (nullifier_counter old)]>
       (storage vec)).

(** The body of the loop of [silo_note_hashes], at position [i]; the note
    hashes are read from the copy [note_hashes] taken before the loop. *)
Definition silo_note_hash_at (first_nullifier : Nullifier)
    (note_hashes : list NoteHashContext)
    (self : KernelCircuitPublicInputsComposer) (i : nat)
  : result KernelCircuitPublicInputsComposer :=
  let note_hash := nth i note_hashes ∅ in
  if negb (bool_decide (nh_value note_hash = 0)) then
    let nonce := compute_note_hash_nonce (nf_value first_nullifier) i in
    let unique_note_hash :=
      compute_unique_siloed_note_hash nonce (nh_value note_hash) in
    Ok (set_note_hash_value self i unique_note_hash)
  else Ok self.

Definition silo_note_hashes (self : KernelCircuitPublicInputsComposer)
  : result KernelCircuitPublicInputsComposer :=
  let first_nullifier :=
    get_unchecked (Builder.new_nullifiers (b_end (public_inputs self))) 0 in
  assert (negb (bool_decide (nf_value first_nullifier = 0)))
    "The 0th nullifier in the accumulated nullifier array is zero";;
  let note_hashes :=
    storage (Builder.new_note_hashes (b_end (public_inputs self))) in
  for_each (silo_note_hash_at first_nullifier note_hashes)
    (seq 0 (length note_hashes)) self.

Definition silo_values (self : KernelCircuitPublicInputsComposer) :=
  silo_note_hashes self.

Definition compose (self : KernelCircuitPublicInputsComposer)
  : result KernelCircuitPublicInputsComposer :=
  assert (Nat.eqb
            (array_length
               (Builder.pad_private_call_stack
                  (prev_end (previous_kernel self)))) 0)
    "Private call stack must be empty when executing the tail circuit";;
  let self := propagate_rollup_validation_requests self in
  let self := propagate_constant_data self in
  let* self := propagate_sorted_arrays self in
  let* self := squash_transient_data self in
  let* self := silo_values self in
  Ok self.

Definition compose_public (self : KernelCircuitPublicInputsComposer)
  : result KernelCircuitPublicInputsComposer :=
  let* self := compose self in
  let self := propagate_sorted_public_call_requests self in
  Ok self.

(** What the silo step makes of the note hash [n] found at position [i],
    given the value of the first nullifier. *)
Definition siloed_note_hash (first_nullifier_value : Field) (i : nat)
    (n : NoteHashContext) : NoteHashContext :=
  if bool_decide (nh_value n = 0) then n
  else mkNoteHashContext
         (compute_unique_siloed_note_hash
            (compute_note_hash_nonce first_nullifier_value i) (nh_value n))
         (nh_counter n) (nullifier_counter n).

(** The accumulated data that a tail composed from [self] ends with. *)
Definition composed_end (self : KernelCircuitPublicInputsComposer)
  : Builder.PrivateAccumulatedDataBuilder :=
  let previous := prev_end (previous_kernel self) in
  let first_nullifier := nth 0 (nullifiers self) ∅ in
  Builder.mkPrivateAccumulatedDataBuilder
    (mkBoundedVec
       (imap (siloed_note_hash (nf_value first_nullifier)) (note_hashes self))
       (array_length (note_hashes self)))
    (array_to_bounded_vec (nullifiers self))
    (array_to_bounded_vec (Builder.pad_new_l2_to_l1_msgs previous))
    (array_to_bounded_vec (sorted_encrypted_log_hashes self))
    (array_to_bounded_vec (sorted_unencrypted_log_hashes self))
    (Builder.pad_encrypted_log_preimages_length previous)
    (Builder.pad_unencrypted_log_preimages_length previous)
    (Builder.private_call_stack (b_end (public_inputs self)))
    (Builder.public_call_stack (b_end (public_inputs self))).

(** A composer as [compose] leaves it: only its public inputs differ. *)
Definition composed (self : KernelCircuitPublicInputsComposer)
  : KernelCircuitPublicInputsComposer :=
  set_public_inputs self
    (mkPrivateKernelCircuitPublicInputsBuilder
       (b_min_revertible_side_effect_counter (public_inputs self))
       (prev_max_block_number (previous_kernel self))
       (composed_end self)
       (prev_constants (previous_kernel self))).

(** The checks that a tail makes on its inputs, gathered. *)
Definition tail_checks (self : KernelCircuitPublicInputsComposer) : Prop :=
  let previous := prev_end (previous_kernel self) in
  array_length (Builder.pad_private_call_stack previous) = 0%nat /\
  assert_sorted_array _ (Builder.pad_new_note_hashes previous)
    (sorted_note_hashes self) (sorted_note_hashes_indexes self)
    asc_sort_by_counters = Ok tt /\
  assert_sorted_array _ (Builder.pad_new_nullifiers previous)
    (sorted_nullifiers self) (sorted_nullifiers_indexes self)
    asc_sort_by_counters = Ok tt /\
  assert_sorted_array _ (Builder.pad_encrypted_logs_hashes previous)
    (sorted_encrypted_log_hashes self)
    (sorted_encrypted_log_hashes_indexes self) asc_sort_by_counters = Ok tt /\
  assert_sorted_array _ (Builder.pad_unencrypted_logs_hashes previous)
    (sorted_unencrypted_log_hashes self)
    (sorted_unencrypted_log_hashes_indexes self) asc_sort_by_counters
    = Ok tt /\
  verify_squashed_transient_note_hashes_and_nullifiers
    (sorted_note_hashes self) (sorted_nullifiers self)
    (note_hashes self) (nullifiers self)
    (transient_nullifier_indexes_for_note_hashes self)
    (transient_note_hash_indexes_for_nullifiers self) = Ok tt /\
  Forall (fun n => nullifier_counter n = 0) (note_hashes self) /\
  Forall (fun n => nf_note_hash n = 0) (nullifiers self) /\
  nf_value (nth 0 (nullifiers self) ∅) <> 0.

End Compose.

End Composer.

(** * The ECDSA public key note

    [ecdsa_public_key_note.nr]: a note that holds the two 32-byte halves of
    an ECDSA public key, and its packing into five fields. *)

Module Note.

(** Noir's [Field] computes in the scalar field of BN254. *)
Definition Fr_modulus : Z :=
  21888242871839275222246405745257275088548364400416034343698204186575808495617.

Definition field_add (a b : Field) : Field := (a + b) mod Fr_modulus.
Definition field_mul (a b : Field) : Field := (a * b) mod Fr_modulus.

(** [x.to_be_bytes(n)]: the [n] bytes of [x], most significant first; the
    decomposition is constrained, so a value that needs more bytes fails. *)
Definition to_be_bytes (x : Field) (n : nat) : result (list Z) :=
  assert (x <? 256 ^ Z.of_nat n) "";;
  Ok (map (fun i : nat => (x / 256 ^ Z.of_nat (n - 1 - i)) mod 256) (seq 0 n)).

Section EcdsaPublicKeyNote.

(** The header that the note macro adds; its content plays no part here. *)
Variable NoteHeader : Type.
Context `{Empty NoteHeader}.

Record EcdsaPublicKeyNote : Type := mkEcdsaPublicKeyNote {
  note_x : list Z;
  note_y : list Z;
  note_owner : AztecAddress;
  note_header : NoteHeader
}.

(** [EcdsaPublicKeyNote::new] *)
Definition new (x y : list Z) (owner : AztecAddress) : EcdsaPublicKeyNote :=
  mkEcdsaPublicKeyNote x y owner ∅.

(** One turn of the loop of [serialize_content], on [(x, y, mul)]. *)
Definition serialize_step (self : EcdsaPublicKeyNote)
    (acc : Field * Field * Field) (i : nat) : Field * Field * Field :=
  let x := acc.1.1 in
  let y := acc.1.2 in
  let mul := acc.2 in
  let byte_x := nth (31 - i) (note_x self) 0 in
  let x := field_add x (field_mul byte_x mul) in
  let byte_y := nth (31 - i) (note_y self) 0 in
  let y := field_add y (field_mul byte_y mul) in
  let mul := field_mul mul 256 in
  (x, y, mul).

Definition serialize_content (self : EcdsaPublicKeyNote) : list Field :=
  let acc := fold_left (serialize_step self) (seq 1 31) (0, 0, 1) in
  let x := acc.1.1 in
  let y := acc.1.2 in
  let last_x := nth 31 (note_x self) 0 in
  let last_y := nth 31 (note_y self) 0 in
  [x; last_x; y; last_y; note_owner self].

(** The loop [for i in 0..31 { x[i] = part[i + 1]; }]. *)
Definition copy_low_bytes (part : list Z) (x : list Z) : list Z :=
  fold_left (fun (x : list Z) (i : nat) => <[i := nth (i + 1) part 0]> x)
    (seq 0 31) x.

Definition deserialize_content (serialized_note : list Field)
  : result EcdsaPublicKeyNote :=
  let x := replicate 32 0 in
  let y := replicate 32 0 in
  let* part_x := to_be_bytes (nth 0 serialized_note 0) 32 in
  let x := copy_low_bytes part_x x in
  let* last_x := to_be_bytes (nth 1 serialized_note 0) 32 in
  let x := <[31%nat := nth 31 last_x 0]> x in
  let* part_y := to_be_bytes (nth 2 serialized_note 0) 32 in
  let y := copy_low_bytes part_y y in
  let* last_y := to_be_bytes (nth 3 serialized_note 0) 32 in
  let y := <[31%nat := nth 31 last_y 0]> y in
  Ok (mkEcdsaPublicKeyNote x y (nth 4 serialized_note 0) ∅).

(** The value of the [k] low-order bytes that [serialize_content] packs out
    of [l]: byte [30 - j] weighs [256 ^ j]. *)
Fixpoint be_partial (l : list Z) (k : nat) : Z :=
  match k with
  | O => 0
  | S k' => be_partial l k' + nth (30 - k') l 0 * 256 ^ Z.of_nat k'
  end.

(** A [[u8; 32]]. *)
Definition is_bytes32 (l : list Z) : Prop :=
  length l = 32%nat /\ Forall (fun b => 0 <= b < 256) l.

End EcdsaPublicKeyNote.

Arguments mkEcdsaPublicKeyNote {NoteHeader}.
Arguments note_x {NoteHeader}.
Arguments note_y {NoteHeader}.
Arguments note_owner {NoteHeader}.
Arguments note_header {NoteHeader}.
Arguments new NoteHeader {_}.
Arguments serialize_step {NoteHeader}.
Arguments serialize_content {NoteHeader}.
Arguments deserialize_content NoteHeader {_}.

End Note.

(** * Sample data

    Small concrete inputs on which the properties below are exercised. *)

Module Sample.

(** Public inputs of a call with the given context, effects, declared
    call-stack hashes, execution window and log lengths. *)
Definition app_inputs (cc : CallContext)
    (note_hashes : list NoteHash) (nullifiers : list Nullifier)
    (msgs : list L2ToL1Message) (private_hashes public_hashes : list Field)
    (start_counter end_counter : Z) (enc_len unenc_len : Field)
  : PrivateCircuitPublicInputs :=
  mkPrivateCircuitPublicInputs cc 0 0 0 None [] [] []
    note_hashes nullifiers private_hashes public_hashes msgs
    start_counter end_counter [] [] enc_len unenc_len 0 (mkTxContext 1 1).

Definition item (address : AztecAddress) (pi : PrivateCircuitPublicInputs)
  : PrivateCallStackItem :=
  mkPrivateCallStackItem address (mkFunctionData 9 true) pi.

(** Contract 20 runs in a delegate call on behalf of contract 10, which was
    itself called by 5. *)
Definition delegate_call : Validator.PrivateCallData :=
  Validator.mkPrivateCallData
    (item 20
       (app_inputs (mkCallContext 5 10 9 true false 3) [] [] [] [] [] 3 3 4 4))
    [] [].

Definition delegate_request : CallRequest :=
  mkCallRequest 7 10 (mkCallerContext 5 10) 3 3.

(** Contract 20 declares one nested private call (hash 77) and no public
    one; the arrays hold two slots. *)
Definition parent_call : Validator.PrivateCallData :=
  Validator.mkPrivateCallData
    (item 20
       (app_inputs (mkCallContext 10 20 9 false false 3) [] [] []
          [77; 0] [0; 0] 3 6 4 4))
    [mkCallRequest 77 20 ∅ 4 5; ∅] [∅; ∅].

(** A static call without effects, whose two log lengths are [n]. *)
Definition static_call (n : Field) : Validator.PrivateCallData :=
  Validator.mkPrivateCallData
    (item 20
       (app_inputs (mkCallContext 10 20 9 false true 3)
          [∅; ∅] [∅; ∅] [∅] [0] [0] 3 3 n n))
    [∅] [∅].

(** A fresh context of contract 20, called by 10, whose window starts at
    counter 5; every sequence has room for two entries. *)
Definition inputs (is_static : bool) : Tracker.PrivateContextInputs :=
  Tracker.mkPrivateContextInputs (mkCallContext 10 20 9 false is_static 5)
    0 (mkTxContext 1 1) 5.

Definition context (is_static : bool) : Tracker.PrivateContext :=
  Tracker.new 2 2 2 2 2 2 2 2 2 (inputs is_static) 0.

Definition effects : list Tracker.Effect :=
  [Tracker.NewNoteHash 11; Tracker.NewNullifier 12 11; Tracker.EncryptedLog 13].

(** A simulator that runs any callee over a window of three counters and
    reports the call context it was asked for; an enqueue oracle likewise. *)
Definition callee_call_context (target : AztecAddress) (fs : FunctionSelector)
    (c : Z) (is_static is_delegate : bool) : CallContext :=
  if is_delegate then mkCallContext 10 20 fs true is_static c
  else mkCallContext 20 target fs false is_static c.

Definition simulator (target : AztecAddress) (fs : FunctionSelector)
    (h : Field) (c : Z) (is_static is_delegate : bool) : PrivateCallStackItem :=
  mkPrivateCallStackItem target (mkFunctionData fs true)
    (mkPrivateCircuitPublicInputs
       (callee_call_context target fs c is_static is_delegate)
       h 0 0 None [] [] [] [] [] [] [] [] c (c + 2) [] [] 0 0 0
       (mkTxContext 1 1)).

(** A simulator that reports a window which ends three counters before it
    starts. *)
Definition inverted_simulator (target : AztecAddress) (fs : FunctionSelector)
    (h : Field) (c : Z) (is_static is_delegate : bool) : PrivateCallStackItem :=
  mkPrivateCallStackItem target (mkFunctionData fs true)
    (mkPrivateCircuitPublicInputs
       (callee_call_context target fs c is_static is_delegate)
       h 0 0 None [] [] [] [] [] [] [] [] c (c - 3) [] [] 0 0 0
       (mkTxContext 1 1)).

Definition enqueuer (target : AztecAddress) (fs : FunctionSelector)
    (h : Field) (c : Z) (is_static is_delegate : bool) : Tracker.EnqueuedCall :=
  Tracker.mkEnqueuedCall target (mkFunctionData fs false)
    (callee_call_context target fs c is_static is_delegate) h.

Definition hash_fields (l : list Field) : Field := foldr Z.add 0 l.

Definition key_store (a : AztecAddress) : GrumpkinPoint * Field :=
  (mkGrumpkinPoint a a, a + 100).
Definition log_oracle (T : Type) (_ : AztecAddress) (_ : Field) (_ : T)
  : Field := 77.
Definition message_nullifier (_ : Header) (_ : AztecAddress) (_ : EthAddress)
    (_ _ content secret : Field) : Field := content + secret.

(** A private function that records a note hash, ends its setup phase,
    enqueues a public call, logs, asks for a key, sends and consumes a
    message and calls another private function. *)
Definition actions : list Tracker.Action :=
  [Tracker.Record (Tracker.NewNoteHash 11); Tracker.EndSetup;
   Tracker.Nested (Tracker.PublicNoArgs Tracker.Plain 30 9);
   Tracker.EmitUnencryptedLog [1]; Tracker.RequestKey 7;
   Tracker.MessagePortal 3 4; Tracker.ConsumeL1ToL2Message 1 2 3;
   Tracker.Nested (Tracker.Private Tracker.Plain 30 9 [1; 2])].

Definition run_actions : result Tracker.PrivateContext :=
  for_each
    (Tracker.act simulator enqueuer key_store (fun _ => 1) (fun _ => 2)
       hash_fields hash_fields log_oracle message_nullifier)
    actions (context false).

(** A transaction tail with one note hash and one nullifier, already free of
    transient links; arrays hold two slots. *)
Definition tail_note_hashes : list NoteHashContext :=
  [mkNoteHashContext 100 1 0; ∅].
Definition tail_nullifiers : list Nullifier := [mkNullifier 200 0 2; ∅].

Definition previous_kernel : Composer.PrivateKernelCircuitPublicInputs :=
  Composer.mkPrivateKernelCircuitPublicInputs 0 None
    (Builder.mkPrivateAccumulatedData tail_note_hashes tail_nullifiers
       [0; 0] [∅; ∅] [∅; ∅] 0 0 [∅; ∅] [∅; ∅])
    ∅.

Definition composer : Composer.KernelCircuitPublicInputsComposer :=
  Composer.new 2 2 2 2 2 2 2 previous_kernel tail_note_hashes tail_nullifiers
    [0; 0] [0; 0] tail_note_hashes [0; 1] tail_nullifiers [0; 1]
    [∅; ∅] [0; 1] [∅; ∅] [0; 1].

(** The same composer as it stands when the silo step starts. *)
Definition composer_before_silo : Composer.KernelCircuitPublicInputsComposer :=
  Composer.set_public_end composer
    (Composer.end_with_nullifiers
       (Composer.end_with_note_hashes
          (Composer.b_end (Composer.public_inputs composer))
          (array_to_bounded_vec tail_note_hashes))
       (array_to_bounded_vec tail_nullifiers)).

Definition accept_squash (_ : list NoteHashContext) (_ : list Nullifier)
    (_ : list NoteHashContext) (_ : list Nullifier) (_ _ : list Z)
  : result unit := Ok tt.
Definition accept_sorted (T : Type) (_ _ : list T) (_ : list Z)
    (_ : T -> T -> bool) : result unit := Ok tt.
Definition nonce (first_nullifier : Field) (i : nat) : Field :=
  first_nullifier + Z.of_nat i.
Definition unique_hash (nonce value : Field) : Field := 1000 * nonce + value.

(** The accumulated data of the test [splits_revertible_and_non_revertible],
    in arrays of six slots (three for the call stack). *)
Definition accumulated : Builder.PrivateAccumulatedDataBuilder :=
  Builder.mkPrivateAccumulatedDataBuilder
    (mkBoundedVec
       [mkNoteHashContext 1 1 20; mkNoteHashContext 2 3 5;
        mkNoteHashContext 3 7 15; mkNoteHashContext 4 10 0; ∅; ∅] 4)
    (mkBoundedVec
       [mkNullifier 10 1 2; mkNullifier 20 2 4;
        mkNullifier 30 3 8; mkNullifier 40 4 11; ∅; ∅] 4)
    (BoundedVec_new 2)
    (BoundedVec_new 2) (BoundedVec_new 2) 0 0
    (BoundedVec_new 2)
    (mkBoundedVec
       [mkCallRequest 1 1 ∅ 5 0; mkCallRequest 2 1 ∅ 6 0;
        mkCallRequest 3 3 ∅ 9 0] 3).

(** The same data with a fifth note hash. *)
Definition accumulated_more : Builder.PrivateAccumulatedDataBuilder :=
  Builder.mkPrivateAccumulatedDataBuilder
    (mkBoundedVec
       [mkNoteHashContext 1 1 20; mkNoteHashContext 2 3 5;
        mkNoteHashContext 3 7 15; mkNoteHashContext 4 10 0;
        mkNoteHashContext 5 12 0; ∅] 5)
    (Builder.new_nullifiers accumulated)
    (Builder.new_l2_to_l1_msgs accumulated)
    (Builder.encrypted_logs_hashes accumulated)
    (Builder.unencrypted_logs_hashes accumulated)
    (Builder.encrypted_log_preimages_length accumulated)
    (Builder.unencrypted_log_preimages_length accumulated)
    (Builder.private_call_stack accumulated)
    (Builder.public_call_stack accumulated).

Definition split_accumulated :=
  Builder.split_to_public 6 6 2 3 2 2 32 16 512 512 accumulated 7
    (mkGas 42 17).

(** A key note of account 10, and five fields of which the first two carry
    more than the note keeps. *)
Definition key_note : Note.EcdsaPublicKeyNote Field :=
  Note.mkEcdsaPublicKeyNote (map Z.of_nat (seq 1 32))
    (map (fun i => 255 - Z.of_nat i) (seq 0 32)) 10 77.

Definition key_fields : list Field := [256 ^ 31 + 5; 300; 7; 8; 9].

End Sample.

(** * Properties *)

(** ** The error monad, checked arithmetic and bounded sequences *)

Lemma rbind_ok {A B} (m : result A) (f : A -> result B) (b : B) :
  rbind m f = Ok b -> exists a, m = Ok a /\ f a = Ok b.
Proof. destruct m as [a|e]; simpl; [eauto | discriminate]. Qed.

Lemma assert_ok (b : bool) (msg : string) (u : unit) :
  assert b msg = Ok u -> b = true.
Proof. destruct b; [reflexivity | discriminate]. Qed.

(** Peels one monadic step off a hypothesis [rbind m f = Ok _]. *)
Ltac rstep H :=
  let a := fresh "a" in
  let Ha := fresh "Hstep" in
  apply rbind_ok in H; destruct H as (a & Ha & H);
  try (apply assert_ok in Ha).

Lemma u32_add_ok a b c : u32_add a b = Ok c -> c = (a + b)%Z /\ (a + b <= u32_MAX)%Z.
Proof.
  unfold u32_add. destruct (Z.leb_spec (a + b) u32_MAX); [|discriminate].
  intros [= <-]. auto.
Qed.

Lemma push_ok {T} (v v' : BoundedVec T) (e : T) :
  push v e = Ok v' ->
  (len v < length (storage v))%nat /\
  storage v' = <[len v := e]> (storage v) /\ len v' = S (len v).
Proof.
  unfold push. intros H. rstep H. apply Nat.ltb_lt in Hstep.
  injection H as <-. auto.
Qed.

Lemma push_items {T} (v v' : BoundedVec T) (e : T) :
  push v e = Ok v' -> items v' = items v ++ [e].
Proof.
  intros H. apply push_ok in H as (Hlt & Hs & Hl).
  unfold items. rewrite Hs, Hl.
  rewrite (take_S_r _ _ e) by (by apply list_lookup_insert_eq).
  by rewrite take_insert_ge.
Qed.

Lemma u32_mul_ok a b c :
  u32_mul a b = Ok c -> c = (a * b)%Z /\ (a * b <= u32_MAX)%Z.
Proof.
  unfold u32_mul. destruct (Z.leb_spec (a * b) u32_MAX); [|discriminate].
  intros [= <-]. auto.
Qed.

Lemma BoundedVec_new_padded {T} `{Empty T} (N : nat) :
  BoundedVec_new (T:=T) N = padded [] N.
Proof. reflexivity. Qed.

Lemma push_padded_ok {T} `{Empty T} (l : list T) (k : nat) (e : T)
    (v' : BoundedVec T) :
  push (padded l k) e = Ok v' ->
  (0 < k)%nat /\ v' = padded (l ++ [e]) (k - 1).
Proof.
  intros Hp. apply push_ok in Hp as (Hlt & Hs & Hl). simpl in *.
  rewrite length_app, length_replicate in Hlt.
  destruct k as [|k]; [lia|]. split; [lia|].
  destruct v' as [st n]; simpl in *. subst st n. unfold padded.
  rewrite length_app. simpl. replace (k - 0)%nat with k by lia.
  f_equal; [|lia].
  rewrite insert_app_r_alt by lia. replace (length l - length l)%nat with 0%nat by lia.
  simpl. by rewrite <- (assoc_L (++)).
Qed.

Lemma push_padded_free {T} `{Empty T} (l : list T) (k : nat) (e : T) :
  (0 < k)%nat -> push (padded l k) e = Ok (padded (l ++ [e]) (k - 1)).
Proof.
  intros Hk. destruct (push (padded l k) e) as [v'|msg] eqn:E.
  - by apply push_padded_ok in E as [_ ->].
  - unfold push in E. simpl in E. rewrite length_app, length_replicate in E.
    assert (Hlt : (length l <? length l + k)%nat = true)
      by (apply Nat.ltb_lt; lia).
    rewrite Hlt in E. discriminate.
Qed.

Lemma push_space {T} (v : BoundedVec T) (e : T) :
  (len v < length (storage v))%nat ->
  push v e = Ok (mkBoundedVec (<[len v := e]> (storage v)) (S (len v))).
Proof.
  intros H. unfold push. apply Nat.ltb_lt in H. by rewrite H.
Qed.

Lemma for_each_checks_ok {X} (check : X -> result unit) (xs : list X) :
  for_each (fun (_ : unit) x => check x) xs tt = Ok tt ->
  Forall (fun x => check x = Ok tt) xs.
Proof.
  induction xs as [|x xs IH]; simpl; intros H; [constructor|].
  rstep H. destruct a. constructor; auto.
Qed.

(** ** Call-stack validator *)

Section ValidatorProperties.

Variable item_hash : PrivateCallStackItem -> Field.

(** C2.  A call that passes [validate_call_against_request] carries the hash
    of the request and obeys the rule of its call kind.  Delegate call: the
    callee's [msg_sender] and storage address are those of the request's
    caller context, and the callee's own contract address differs from its
    storage address.  Ordinary call: the callee's storage address is its own
    contract address and its [msg_sender] is the request's caller contract
    address. *)
Theorem validate_call_against_request_rules
    (private_call : Validator.PrivateCallData) (request : CallRequest) :
  Validator.validate_call_against_request item_hash private_call request
    = Ok tt ->
  let item := Validator.call_stack_item private_call in
  let callee := pi_call_context (public_inputs item) in
  cr_hash request = item_hash item /\
  if is_delegate_call callee then
    msg_sender callee = cc_msg_sender (caller_context request) /\
    storage_contract_address callee
      = cc_storage_contract_address (caller_context request) /\
    item_contract_address item <> storage_contract_address callee
  else
    storage_contract_address callee = item_contract_address item /\
    msg_sender callee = caller_contract_address request.
Proof.
  unfold Validator.validate_call_against_request. intros H; simpl.
  rstep H. apply bool_decide_eq_true in Hstep. split; [exact Hstep|].
  destruct (is_delegate_call _).
  - rstep H. rstep H. rstep H. apply assert_ok in H.
    apply bool_decide_eq_true in Hstep1, Hstep2.
    apply negb_true_iff, bool_decide_eq_false in H. auto.
  - rstep H. apply assert_ok in H.
    apply bool_decide_eq_true in Hstep0, H. auto.
Qed.

(** The rules of C2 are also sufficient, once the caller context of a
    delegate call is present. *)
Lemma validate_call_against_request_complete
    (private_call : Validator.PrivateCallData) (request : CallRequest) :
  let item := Validator.call_stack_item private_call in
  let callee := pi_call_context (public_inputs item) in
  cr_hash request = item_hash item ->
  (if is_delegate_call callee then
     CallerContext_is_empty (caller_context request) = false /\
     msg_sender callee = cc_msg_sender (caller_context request) /\
     storage_contract_address callee
       = cc_storage_contract_address (caller_context request) /\
     item_contract_address item <> storage_contract_address callee
   else
     storage_contract_address callee = item_contract_address item /\
     msg_sender callee = caller_contract_address request) ->
  Validator.validate_call_against_request item_hash private_call request
    = Ok tt.
Proof.
  unfold Validator.validate_call_against_request. simpl. intros Hh H.
  rewrite bool_decide_eq_true_2 by done. simpl.
  destruct (is_delegate_call _).
  - destruct H as (-> & H1 & H2 & H3). simpl.
    rewrite !bool_decide_eq_true_2 by done. simpl.
    by rewrite bool_decide_eq_false_2.
  - destruct H as (H1 & H2). by rewrite !bool_decide_eq_true_2.
Qed.

(** C5.  When [validate_call_requests] accepts, every slot [i] agrees with
    the declared hash: a non-zero hash is the hash of the request, whose
    caller contract address is the contract of the call being verified and
    whose caller context, when present, repeats that call's [msg_sender] and
    storage address; a zero hash comes with an empty request. *)
Theorem validate_call_requests_slots
    (call_requests : list CallRequest) (hashes : list Field)
    (private_call : Validator.PrivateCallData) :
  Validator.validate_call_requests call_requests hashes private_call = Ok tt ->
  forall i : nat, (i < length hashes)%nat ->
    let hash := nth i hashes ∅ in
    let request := nth i call_requests ∅ in
    let item := Validator.call_stack_item private_call in
    let verified := pi_call_context (public_inputs item) in
    if bool_decide (hash = 0) then request = ∅
    else
      cr_hash request = hash /\
      caller_contract_address request = item_contract_address item /\
      (CallerContext_is_empty (caller_context request) = false ->
       cc_msg_sender (caller_context request) = msg_sender verified /\
       cc_storage_contract_address (caller_context request)
         = storage_contract_address verified).
Proof.
  unfold Validator.validate_call_requests. intros H i Hi; simpl.
  apply for_each_checks_ok in H. rewrite Forall_forall in H.
  specialize (H i). cbv beta in H.
  assert (Hin : i ∈ seq 0 (length hashes)) by (apply elem_of_seq; lia).
  specialize (H Hin). clear Hin.
  destruct (bool_decide (nth i hashes ∅ = 0)); simpl in H.
  - apply assert_ok in H. unfold is_empty in H.
    by apply bool_decide_eq_true in H.
  - rstep H. apply assert_ok in H. apply bool_decide_eq_true in Hstep.
    unfold Validator.is_valid_caller in H.
    apply andb_true_iff in H as [H1 H2]. apply bool_decide_eq_true in H1.
    split; [exact Hstep|]. split; [exact H1|]. intros Hne.
    rewrite Hne in H2; simpl in H2.
    apply andb_true_iff in H2 as [H2 H3].
    by apply bool_decide_eq_true in H2, H3.
Qed.

(** A call that [validate_private_call_data] accepts has passed the
    static-call checks and the checks of both of its call stacks. *)
Lemma validate_private_call_data_checks
    (validate_arrays : PrivateCircuitPublicInputs -> result unit)
    (contract_logic : Validator.PrivateCallData -> result unit)
    (private_call : Validator.PrivateCallData) :
  Validator.validate_private_call_data validate_arrays contract_logic
    private_call = Ok tt ->
  let pi := public_inputs (Validator.call_stack_item private_call) in
  Validator.perform_static_call_checks private_call = Ok tt /\
  Validator.validate_call_requests (Validator.private_call_stack private_call)
    (pi_private_call_stack_hashes pi) private_call = Ok tt /\
  Validator.validate_call_requests (Validator.public_call_stack private_call)
    (pi_public_call_stack_hashes pi) private_call = Ok tt.
Proof.
  unfold Validator.validate_private_call_data. intros H.
  rstep H. rstep H. rstep H. rstep H.
  repeat match goal with u : unit |- _ => destruct u end. auto.
Qed.

End ValidatorProperties.

Lemma validate_call_against_request_rules_witness :
  Validator.validate_call_against_request (fun _ => 7)
    Sample.delegate_call Sample.delegate_request = Ok tt /\
  (cr_hash Sample.delegate_request = 7 /\
   (5 = cc_msg_sender (caller_context Sample.delegate_request) /\
    10 = cc_storage_contract_address (caller_context Sample.delegate_request) /\
    20 <> 10)).
Proof.
  split; [reflexivity|].
  exact (validate_call_against_request_rules (fun _ => 7)
           Sample.delegate_call Sample.delegate_request eq_refl).
Defined.

Lemma validate_call_requests_slots_witness :
  Validator.validate_call_requests
    (Validator.private_call_stack Sample.parent_call) [77; 0]
    Sample.parent_call = Ok tt /\
  (cr_hash (mkCallRequest 77 20 ∅ 4 5) = 77 /\
   caller_contract_address (mkCallRequest 77 20 ∅ 4 5) = 20 /\
   (CallerContext_is_empty ∅ = false ->
    cc_msg_sender ∅ = 10 /\ cc_storage_contract_address ∅ = 20)).
Proof.
  split; [reflexivity|].
  apply (validate_call_requests_slots
           (Validator.private_call_stack Sample.parent_call) [77; 0]
           Sample.parent_call eq_refl 0%nat).
  simpl. lia.
Defined.

(** ** Static calls *)

(** C6.  A static call passes [perform_static_call_checks] exactly when its
    new note hashes and new nullifiers are all empty, it declares no
    L2-to-L1 message, and each of its two log preimage lengths is 4.  The
    length counts the four bytes in which a log buffer stores the total
    length of its logs, so a length of 4 is a buffer without any log: zero
    bytes of log content.  A static call that carries a note hash, a
    nullifier, a message or any log content is therefore rejected. *)
Theorem perform_static_call_checks_sound
    (private_call : Validator.PrivateCallData) :
  let pi := public_inputs (Validator.call_stack_item private_call) in
  is_static_call (pi_call_context pi) = true ->
  Validator.perform_static_call_checks private_call = Ok tt <->
  Forall (fun n => n = ∅) (pi_new_note_hashes pi) /\
  Forall (fun n => n = ∅) (pi_new_nullifiers pi) /\
  array_length (pi_new_l2_to_l1_msgs pi) = 0%nat /\
  pi_encrypted_log_preimages_length pi = 4 /\
  pi_unencrypted_log_preimages_length pi = 4.
Proof.
  unfold Validator.perform_static_call_checks. simpl. intros ->. split.
  - intros H.
    rstep H. rstep H. rstep H. rstep H. apply assert_ok in H.
    unfold is_empty_array in Hstep, Hstep0.
    rewrite forallb_forall in Hstep, Hstep0.
    repeat split.
    + apply Forall_forall. intros x Hx. apply list_elem_of_In in Hx.
      apply Hstep in Hx. by apply bool_decide_eq_true in Hx.
    + apply Forall_forall. intros x Hx. apply list_elem_of_In in Hx.
      apply Hstep0 in Hx. by apply bool_decide_eq_true in Hx.
    + by apply Nat.eqb_eq.
    + by apply bool_decide_eq_true in Hstep2.
    + by apply bool_decide_eq_true in H.
  - intros (Hn & Hf & Hm & He & Hu).
    assert (is_empty_array (pi_new_note_hashes
              (public_inputs (Validator.call_stack_item private_call)))
            = true) as ->.
    { unfold is_empty_array. apply forallb_forall. intros x Hx.
      apply list_elem_of_In in Hx. rewrite Forall_forall in Hn.
      by apply bool_decide_eq_true, Hn. }
    assert (is_empty_array (pi_new_nullifiers
              (public_inputs (Validator.call_stack_item private_call)))
            = true) as ->.
    { unfold is_empty_array. apply forallb_forall. intros x Hx.
      apply list_elem_of_In in Hx. rewrite Forall_forall in Hf.
      by apply bool_decide_eq_true, Hf. }
    rewrite Hm, He, Hu. reflexivity.
Qed.

Lemma perform_static_call_checks_sound_witness :
  Validator.perform_static_call_checks (Sample.static_call 4) = Ok tt /\
  (Forall (fun n : NoteHash => n = ∅) [∅; ∅] /\
   Forall (fun n : Nullifier => n = ∅) [∅; ∅] /\
   array_length [∅ : L2ToL1Message] = 0%nat /\
   (4 : Field) = 4 /\ (4 : Field) = 4).
Proof.
  split; [reflexivity|].
  exact (proj1 (perform_static_call_checks_sound (Sample.static_call 4)
                  eq_refl) eq_refl).
Defined.

(** A static call without any effect is accepted when both log lengths are
    4 and refused when it reports 0, which is less than the prefix. *)
Example static_call_log_length_prefix :
  Validator.perform_static_call_checks (Sample.static_call 4) = Ok tt /\
  Validator.perform_static_call_checks (Sample.static_call 0)
    = Err "No encrypted logs are allowed for static calls".
Proof. split; reflexivity. Qed.

(** ** Call context tracker: recording effects *)

Section TrackerEffects.

Import Tracker.

Lemma bump_counter_ok (self self' : PrivateContext) :
  bump_counter self = Ok self' ->
  self' = set_side_effect_counter self (side_effect_counter self + 1).
Proof.
  unfold bump_counter. intros H. rstep H. apply u32_add_ok in Hstep as [-> _].
  by injection H as <-.
Qed.

Lemma perm_snoc_at (l1 l2 l l' : list Z) (c : Z) :
  l = l1 ++ [c] ++ l2 -> l' = l1 ++ l2 -> l ≡ₚ l' ++ [c].
Proof.
  intros -> ->. rewrite <- (assoc_L (++)). apply Permutation_app_head.
  simpl. apply Permutation_cons_append.
Qed.

(** One step: the entry appended carries the payload and the counter the
    context had, the counter moves up by one, and nothing else is recorded. *)
Lemma record_step (self self' : PrivateContext) (e : Effect) :
  record self e = Ok self' ->
  side_effect_counter self' = side_effect_counter self + 1 /\
  entries_of e self'
    = entries_of e self
      ++ [((payload e).1, (payload e).2, side_effect_counter self)] /\
  recorded_counters self' ≡ₚ recorded_counters self ++ [side_effect_counter self] /\
  nullifier_key self' = nullifier_key self /\
  nullifier_key_validation_requests self'
    = nullifier_key_validation_requests self /\
  inputs self' = inputs self.
Proof.
  destruct e; simpl; intros H; rstep H;
    apply bump_counter_ok in H; subst self';
    apply push_items in Hstep;
    unfold recorded_counters; simpl; rewrite Hstep, ?fmap_app; simpl;
    (split; [reflexivity|]); (split; [reflexivity|]);
    (split; [|done]).
  - eapply (perm_snoc_at (se_counter <$> items (new_note_hashes self)));
      [|reflexivity]. by rewrite <- !(assoc_L (++)).
  - eapply (perm_snoc_at
              ((se_counter <$> items (new_note_hashes self))
               ++ (nf_counter <$> items (new_nullifiers self))));
      by rewrite <- !(assoc_L (++)).
  - eapply (perm_snoc_at
              ((se_counter <$> items (new_note_hashes self))
               ++ (nf_counter <$> items (new_nullifiers self))
               ++ (se_counter <$> items (note_hash_read_requests self))));
      by rewrite <- !(assoc_L (++)).
  - eapply (perm_snoc_at
              ((se_counter <$> items (new_note_hashes self))
               ++ (nf_counter <$> items (new_nullifiers self))
               ++ (se_counter <$> items (note_hash_read_requests self))
               ++ (se_counter <$> items (nullifier_read_requests self))));
      by rewrite <- !(assoc_L (++)).
  - by rewrite !(assoc_L (++)).
Qed.

Lemma for_each_app {St X} (body : St -> X -> result St) (xs ys : list X)
    (s s' : St) :
  for_each body (xs ++ ys) s = Ok s' <->
  exists mid, for_each body xs s = Ok mid /\ for_each body ys mid = Ok s'.
Proof.
  revert s. induction xs as [|x xs IH]; simpl; intros s.
  - split; [eauto|]. by intros (mid & [= <-] & H).
  - destruct (body s x) as [s1|msg]; simpl.
    + apply IH.
    + split; [discriminate|]. by intros (mid & H & _).
Qed.

Lemma record_all_counter (es : list Effect) (self self' : PrivateContext) :
  record_all es self = Ok self' ->
  side_effect_counter self' = side_effect_counter self + Z.of_nat (length es).
Proof.
  unfold record_all. revert self.
  induction es as [|e es IH]; simpl; intros self H.
  - injection H as <-. lia.
  - rstep H. apply record_step in Hstep as (Hc & _). apply IH in H. lia.
Qed.

Lemma stamp_after_record (self self' : PrivateContext) (e : Effect) :
  record self e = Ok self' -> stamp e self' = side_effect_counter self.
Proof.
  intros H. apply record_step in H as (_ & He & _).
  unfold stamp. by rewrite He, last_snoc.
Qed.

Lemma stamps_seqZ (es : list Effect) (self self' : PrivateContext) :
  record_all es self = Ok self' ->
  stamps es self
    = Ok (seqZ (side_effect_counter self) (Z.of_nat (length es))).
Proof.
  unfold record_all. revert self.
  induction es as [|e es IH]; simpl; intros self H; [reflexivity|].
  rstep H. rewrite Hstep. simpl.
  rewrite (IH _ H). simpl.
  rewrite (stamp_after_record _ _ _ Hstep).
  apply record_step in Hstep as (Hc & _). rewrite Hc.
  rewrite (seqZ_cons (side_effect_counter self)) by lia.
  do 3 f_equal; lia.
Qed.

Lemma seqZ_strictly_increasing (m : Z) (n : nat) :
  StronglySorted Z.lt (seqZ m (Z.of_nat n)).
Proof.
  revert m. induction n as [|n IH]; intros m.
  - rewrite seqZ_nil by lia. constructor.
  - rewrite seqZ_cons by lia. constructor.
    + replace (Z.pred (Z.of_nat (S n))) with (Z.of_nat n) by lia. apply IH.
    + apply Forall_seqZ. lia.
Qed.

Lemma recorded_counters_grow (es : list Effect) (self self' : PrivateContext) :
  record_all es self = Ok self' ->
  recorded_counters self'
    ≡ₚ recorded_counters self
       ++ seqZ (side_effect_counter self) (Z.of_nat (length es)).
Proof.
  unfold record_all. revert self.
  induction es as [|e es IH]; simpl; intros self H.
  - injection H as <-. by rewrite seqZ_nil, app_nil_r by lia.
  - rstep H. apply IH in H. rewrite H.
    apply record_step in Hstep as (Hc & _ & Hp & _). rewrite Hp, Hc.
    rewrite (seqZ_cons (side_effect_counter self)) by lia.
    rewrite <- (assoc_L (++)). simpl.
    replace (Z.pred (Z.of_nat (S (length es))))
      with (Z.of_nat (length es)) by lia.
    replace (Z.succ (side_effect_counter self))
      with (side_effect_counter self + 1) by lia.
    done.
Qed.

(** C8.  Take any run of the five effect-recording operations that a context
    completes.  Its [k]-th operation finds the counter at [c + k], where [c]
    is the counter the run started from, appends its payload stamped with
    that counter and leaves the counter at [c + k + 1].  Read back in emission
    order, the stamps are [c, c + 1, ...]: strictly increasing and pairwise
    distinct; they are exactly what the run added to the counters held by the
    context. *)
Theorem push_stamps_strictly_increasing
    (es : list Effect) (self self' : PrivateContext) :
  record_all es self = Ok self' ->
  let c := side_effect_counter self in
  (forall (k : nat) (e : Effect), es !! k = Some e ->
     exists before after,
       record_all (take k es) self = Ok before /\
       record before e = Ok after /\
       side_effect_counter before = c + Z.of_nat k /\
       entries_of e after
         = entries_of e before
           ++ [((payload e).1, (payload e).2, c + Z.of_nat k)] /\
       side_effect_counter after = side_effect_counter before + 1) /\
  exists cs,
    stamps es self = Ok cs /\
    cs = seqZ c (Z.of_nat (length es)) /\
    StronglySorted Z.lt cs /\
    NoDup cs /\
    recorded_counters self' ≡ₚ recorded_counters self ++ cs /\
    side_effect_counter self' = c + Z.of_nat (length es).
Proof.
  intros H c. split.
  - intros k e Hk.
    pose proof (take_drop_middle es k e Hk) as Hes.
    unfold record_all in H. rewrite <- Hes in H.
    apply for_each_app in H as (before & Hb & H). simpl in H. rstep H.
    exists before, a. split; [exact Hb|]. split; [exact Hstep|].
    pose proof (record_all_counter _ _ _ Hb) as Hcb.
    rewrite length_take_le in Hcb
      by (apply lookup_lt_Some in Hk; lia).
    apply record_step in Hstep as (Hc & He & _).
    split; [exact Hcb|]. split; [|exact Hc]. by rewrite He, Hcb.
  - exists (seqZ c (Z.of_nat (length es))).
    split; [by apply stamps_seqZ in H|]. split; [reflexivity|].
    split; [apply seqZ_strictly_increasing|].
    split; [apply NoDup_seqZ|].
    split; [by apply recorded_counters_grow|by apply record_all_counter].
Qed.

Lemma push_stamps_strictly_increasing_witness :
  exists self',
    record_all Sample.effects (Sample.context false) = Ok self' /\
    ((forall (k : nat) (e : Effect), Sample.effects !! k = Some e ->
        exists before after,
          record_all (take k Sample.effects) (Sample.context false)
            = Ok before /\
          record before e = Ok after /\
          side_effect_counter before = 5 + Z.of_nat k /\
          entries_of e after
            = entries_of e before
              ++ [((payload e).1, (payload e).2, 5 + Z.of_nat k)] /\
          side_effect_counter after = side_effect_counter before + 1) /\
     exists cs,
       stamps Sample.effects (Sample.context false) = Ok cs /\
       cs = seqZ 5 3 /\
       StronglySorted Z.lt cs /\
       NoDup cs /\
       recorded_counters self' ≡ₚ [] ++ cs /\
       side_effect_counter self' = 5 + 3).
Proof.
  eexists. split; [vm_compute; reflexivity|].
  exact (push_stamps_strictly_increasing Sample.effects (Sample.context false)
           _ ltac:(vm_compute; reflexivity)).
Defined.

(** The operations do complete while the target sequence has a free slot and
    the counter can still be incremented. *)
Lemma record_succeeds (self : PrivateContext) (e : Effect) :
  side_effect_counter self + 1 <= u32_MAX ->
  (match e with
   | NewNoteHash _ =>
       len (new_note_hashes self) < length (storage (new_note_hashes self))
   | NewNullifier _ _ =>
       len (new_nullifiers self) < length (storage (new_nullifiers self))
   | NoteHashReadRequest _ =>
       len (note_hash_read_requests self)
       < length (storage (note_hash_read_requests self))
   | NullifierReadRequest _ =>
       len (nullifier_read_requests self)
       < length (storage (nullifier_read_requests self))
   | EncryptedLog _ =>
       len (encrypted_logs_hashes self)
       < length (storage (encrypted_logs_hashes self))
   end)%nat ->
  is_ok (record self e) = true.
Proof.
  intros Hc Hroom.
  destruct e; simpl;
    unfold push_new_note_hash, push_new_nullifier,
      push_note_hash_read_request, push_nullifier_read_request,
      push_encrypted_log;
    rewrite push_space by done; simpl;
    unfold bump_counter, u32_add; simpl;
    apply Z.leb_le in Hc; by rewrite Hc.
Qed.

End TrackerEffects.

(** ** Call context tracker: the nullifier key of the invocation *)

Section TrackerKeys.

Import Tracker.

Variable get_nullifier_keys_oracle : AztecAddress -> GrumpkinPoint * Field.

Lemma record_all_keeps_keys (es : list Effect) (self self' : PrivateContext) :
  record_all es self = Ok self' ->
  nullifier_key self' = nullifier_key self /\
  nullifier_key_validation_requests self'
    = nullifier_key_validation_requests self.
Proof.
  unfold record_all. revert self.
  induction es as [|e es IH]; simpl; intros self H.
  - by injection H as <-.
  - rstep H. apply IH in H as [-> ->].
    by apply record_step in Hstep as (_ & _ & _ & -> & -> & _).
Qed.

(** A context whose key is cached answers for that account only, and
    answers without touching the context. *)
Lemma request_with_cached_key (self : PrivateContext) (keys : NullifierKeys)
    (account : AztecAddress) :
  nullifier_key self = Some keys ->
  request_app_nullifier_secret_key get_nullifier_keys_oracle self account
  = if bool_decide (account = keys_account keys)
    then Ok (self, app_nullifier_secret_key keys)
    else Err "Cannot query nullifier key for more than one account per call".
Proof.
  intros Hk. unfold request_app_nullifier_secret_key. rewrite Hk. simpl.
  destruct (decide (account = keys_account keys)) as [->|Hne].
  - by rewrite !bool_decide_eq_true_2.
  - rewrite (bool_decide_eq_false_2 (keys_account keys = account)) by done.
    by rewrite bool_decide_eq_false_2.
Qed.


End TrackerKeys.


(** ** Call context tracker: nested calls *)

Section TrackerCalls.

Import Tracker.

Variable call_private_function_internal :
  AztecAddress -> FunctionSelector -> Field -> Z -> bool -> bool ->
  PrivateCallStackItem.
Variable enqueue_public_function_call_internal :
  AztecAddress -> FunctionSelector -> Field -> Z -> bool -> bool ->
  EnqueuedCall.
Variable private_item_hash : PrivateCallStackItem -> Field.
Variable public_item_hash : PublicCallStackItem -> Field.
Variable hash_args_array : list Field -> Field.
Variable pack_arguments_array : list Field -> Field.

Local Abbreviation private_packed :=
  (call_private_function_with_packed_args call_private_function_internal
     private_item_hash).
Local Abbreviation public_packed :=
  (call_public_function_with_packed_args enqueue_public_function_call_internal
     public_item_hash).
Local Abbreviation perform :=
  (Tracker.perform call_private_function_internal
     enqueue_public_function_call_internal private_item_hash public_item_hash
     hash_args_array pack_arguments_array).
Local Abbreviation callee_context :=
  (Tracker.callee_context call_private_function_internal
     enqueue_public_function_call_internal hash_args_array).
Local Abbreviation callee_end_side_effect_counter :=
  (Tracker.callee_end_side_effect_counter call_private_function_internal
     enqueue_public_function_call_internal hash_args_array).
Local Abbreviation callee_start_side_effect_counter :=
  (Tracker.callee_start_side_effect_counter call_private_function_internal
     enqueue_public_function_call_internal hash_args_array).

(** Turns the checks gathered from a completed call into equations. *)
Ltac call_kind_checks :=
  repeat match goal with
    | H : rbind _ _ = Ok _ |- _ => rstep H
    | H : assert _ _ = Ok _ |- _ => apply assert_ok in H
    | H : bool_decide _ = true |- _ => apply bool_decide_eq_true in H
    | H : eqb _ _ = true |- _ => apply eqb_prop in H
    | H : u32_add _ _ = Ok _ |- _ => apply u32_add_ok in H as [-> _]
    | H : push _ _ = Ok _ |- _ => apply push_items in H
    | H : bump_counter _ = Ok _ |- _ => apply bump_counter_ok in H; subst
    end.

Lemma private_packed_ok self t fs h st dl self' ret :
  private_packed self t fs h st dl = Ok (self', ret) ->
  let eff := st || is_static_call (call_context (inputs self)) in
  let item :=
    call_private_function_internal t fs h (side_effect_counter self) eff dl in
  let callee := pi_call_context (public_inputs item) in
  side_effect_counter self'
    = pi_end_side_effect_counter (public_inputs item) + 1 /\
  call_side_effect_counter callee = side_effect_counter self /\
  pi_start_side_effect_counter (public_inputs item)
    = side_effect_counter self /\
  is_delegate_call callee = dl /\
  is_static_call callee = eff /\
  call_kind_respected self t dl callee /\
  items (private_call_stack_hashes self')
    = items (private_call_stack_hashes self) ++ [private_item_hash item] /\
  inputs self' = inputs self.
Proof.
  unfold call_private_function_with_packed_args. intros H. simpl.
  repeat rstep H. injection H as <- _. simpl. unfold call_kind_respected.
  destruct dl; call_kind_checks; simpl in *; by repeat split.
Qed.

Lemma public_packed_ok self t fs h st dl self' :
  public_packed self t fs h st dl = Ok self' ->
  let eff := st || is_static_call (call_context (inputs self)) in
  let item :=
    enqueued_item
      (enqueue_public_function_call_internal t fs h (side_effect_counter self)
         eff dl) in
  let callee := pub_call_context item in
  side_effect_counter self' = side_effect_counter self + 1 /\
  call_side_effect_counter callee = side_effect_counter self /\
  pub_end_side_effect_counter item = 0 /\
  is_delegate_call callee = dl /\
  is_static_call callee = eff /\
  call_kind_respected self t dl callee /\
  items (public_call_stack_hashes self')
    = items (public_call_stack_hashes self) ++ [public_item_hash item] /\
  inputs self' = inputs self.
Proof.
  unfold call_public_function_with_packed_args. intros H. simpl.
  repeat rstep H. injection H as <-. simpl. unfold call_kind_respected.
  destruct dl; call_kind_checks; simpl in *; by repeat split.
Qed.

Lemma hashed_args_ok (args : list Field) (h : Field) :
  hashed_args hash_args_array pack_arguments_array args = Ok h ->
  h = hash_args_array args.
Proof. unfold hashed_args. intros H. rstep H. by injection H. Qed.

(** Every nested-call operation goes through one of the two packed-argument
    operations, with the arguments listed by [requested_*]. *)
Lemma perform_through_packed (c : NestedCall) (self self' : PrivateContext) :
  perform self c = Ok self' ->
  if is_private_call c then
    exists ret,
      private_packed self (requested_target c) (requested_selector c)
        (requested_args_hash hash_args_array c)
        (requested_static c) (requested_delegate c) = Ok (self', ret)
  else
    public_packed self (requested_target c) (requested_selector c)
      (requested_args_hash hash_args_array c)
      (requested_static c) (requested_delegate c) = Ok self'.
Proof.
  intros H.
  destruct c as [k t fs args|k t fs|t fs h st dl|k t fs args|k t fs|t fs h st dl];
    try destruct k; simpl in *;
    unfold call_private_function, static_call_private_function,
      delegate_call_private_function, call_private_function_no_args,
      static_call_private_function_no_args,
      delegate_call_private_function_no_args,
      call_public_function, static_call_public_function,
      delegate_call_public_function, call_public_function_no_args,
      static_call_public_function_no_args,
      delegate_call_public_function_no_args in H;
    repeat match goal with
      | H : rbind _ _ = Ok _ |- _ => rstep H
      | H : hashed_args _ _ _ = Ok _ |- _ => apply hashed_args_ok in H; subst
      | H : Ok _ = Ok _ |- _ => injection H as <-
      end;
    try done;
    match goal with
    | H : _ = Ok ?a |- _ => destruct a as [? ret]; by exists ret
    end.
Qed.


(** C10.  The simulator is asked to run the callee with the flag
    [requested || caller is static], and is consulted for nothing else: a
    simulator that answers alike on that one query gives the same outcome.
    The call returns only if the callee's context carries that very flag, so
    a call issued from a static context is static. *)
Theorem static_context_forces_static_calls
    (c : NestedCall) (self self' : PrivateContext) :
  perform self c = Ok self' ->
  let eff := requested_static c || is_static_call (call_context (inputs self)) in
  is_static_call (callee_context self c) = eff /\
  (is_static_call (call_context (inputs self)) = true ->
   is_static_call (callee_context self c) = true) /\
  forall other_private other_public,
    other_private (requested_target c) (requested_selector c)
      (requested_args_hash hash_args_array c) (side_effect_counter self)
      eff (requested_delegate c)
    = call_private_function_internal (requested_target c)
        (requested_selector c) (requested_args_hash hash_args_array c)
        (side_effect_counter self) eff (requested_delegate c) ->
    other_public (requested_target c) (requested_selector c)
      (requested_args_hash hash_args_array c) (side_effect_counter self)
      eff (requested_delegate c)
    = enqueue_public_function_call_internal (requested_target c)
        (requested_selector c) (requested_args_hash hash_args_array c)
        (side_effect_counter self) eff (requested_delegate c) ->
    Tracker.perform other_private other_public private_item_hash
      public_item_hash hash_args_array pack_arguments_array self c
    = Ok self'.
Proof.
  intros H eff.
  assert (Hflag : is_static_call (callee_context self c) = eff).
  { pose proof (perform_through_packed _ _ _ H) as Hp.
    unfold Tracker.callee_context, effective_static.
    destruct (is_private_call c).
    - destruct Hp as (ret & Hp). apply private_packed_ok in Hp.
      by destruct Hp as (_ & _ & _ & _ & Hs & _).
    - apply public_packed_ok in Hp.
      by destruct Hp as (_ & _ & _ & _ & Hs & _). }
  split; [exact Hflag|]. split.
  - intros Hs. rewrite Hflag. subst eff. rewrite Hs. apply orb_true_r.
  - intros other_private other_public Hpriv Hpub. rewrite <- H. subst eff.
    destruct c as [k t fs args|k t fs|t fs h st dl|k t fs args|k t fs|t fs h st dl];
      try destruct k; simpl in *;
      unfold call_private_function, static_call_private_function,
        delegate_call_private_function, call_private_function_no_args,
        static_call_private_function_no_args,
        delegate_call_private_function_no_args,
        call_public_function, static_call_public_function,
        delegate_call_public_function, call_public_function_no_args,
        static_call_public_function_no_args,
        delegate_call_public_function_no_args, hashed_args;
      try (destruct (assert _ _) as [[]|]; simpl; [|reflexivity]);
      unfold call_private_function_with_packed_args,
        call_public_function_with_packed_args;
      simpl; first [by rewrite Hpriv | by rewrite Hpub].
Qed.

End TrackerCalls.



Lemma static_context_forces_static_calls_witness :
  exists self',
    Tracker.perform Sample.simulator Sample.enqueuer (fun _ => 1) (fun _ => 2)
      Sample.hash_fields Sample.hash_fields (Sample.context true)
      (Tracker.PublicNoArgs Tracker.Plain 30 9) = Ok self' /\
    (is_static_call (Sample.callee_call_context 30 9 5 true false) = true /\
     (true = true ->
      is_static_call (Sample.callee_call_context 30 9 5 true false) = true) /\
     forall other_private other_public,
       other_private 30 9 0 5 true false = Sample.simulator 30 9 0 5 true false ->
       other_public 30 9 0 5 true false = Sample.enqueuer 30 9 0 5 true false ->
       Tracker.perform other_private other_public (fun _ => 1) (fun _ => 2)
         Sample.hash_fields Sample.hash_fields (Sample.context true)
         (Tracker.PublicNoArgs Tracker.Plain 30 9) = Ok self').
Proof.
  eexists. split; [vm_compute; reflexivity|].
  exact (static_context_forces_static_calls Sample.simulator Sample.enqueuer
           (fun _ => 1) (fun _ => 2) Sample.hash_fields Sample.hash_fields
           (Tracker.PublicNoArgs Tracker.Plain 30 9)
           (Sample.context true) _ ltac:(vm_compute; reflexivity)).
Defined.

(** ** Kernel composer: squashing and siloing *)

Lemma Forall_indices {T} (P : T -> Prop) (d : T) (l : list T) :
  Forall (fun i => P (nth i l d)) (seq 0 (length l)) <-> Forall P l.
Proof.
  rewrite !Forall_forall. split.
  - intros H x Hx. apply list_elem_of_lookup in Hx as [i Hi].
    specialize (H i). rewrite (nth_lookup_Some _ _ _ _ Hi) in H.
    apply H, elem_of_seq. apply lookup_lt_Some in Hi. lia.
  - intros H i Hi. apply elem_of_seq in Hi as [_ Hi]. simpl in Hi.
    destruct (lookup_lt_is_Some_2 l i Hi) as [x Hx].
    rewrite (nth_lookup_Some _ _ _ _ Hx). apply H.
    by apply list_elem_of_lookup_2 in Hx.
Qed.

Section ComposerProperties.

Import Composer.

Variables
  (MAX_NEW_NOTE_HASHES_PER_TX
   MAX_NEW_NULLIFIERS_PER_TX
   MAX_NEW_L2_TO_L1_MSGS_PER_TX
   MAX_PRIVATE_CALL_STACK_LENGTH_PER_TX
   MAX_PUBLIC_CALL_STACK_LENGTH_PER_TX
   MAX_ENCRYPTED_LOGS_PER_TX
   MAX_UNENCRYPTED_LOGS_PER_TX : nat).
Variable verify_squashed_transient_note_hashes_and_nullifiers :
  list NoteHashContext -> list Nullifier ->
  list NoteHashContext -> list Nullifier -> list Z -> list Z -> result unit.
Variable assert_sorted_array :
  forall T, list T -> list T -> list Z -> (T -> T -> bool) -> result unit.
Variable compute_note_hash_nonce : Field -> nat -> Field.
Variable compute_unique_siloed_note_hash : Field -> Field -> Field.

Local Abbreviation squash_transient_data :=
  (Composer.squash_transient_data
     verify_squashed_transient_note_hashes_and_nullifiers).
Local Abbreviation silo_note_hashes :=
  (Composer.silo_note_hashes compute_note_hash_nonce
     compute_unique_siloed_note_hash).
Local Abbreviation compose :=
  (Composer.compose verify_squashed_transient_note_hashes_and_nullifiers
     assert_sorted_array compute_note_hash_nonce
     compute_unique_siloed_note_hash).

(** The note hashes and nullifiers being accumulated by a composer. *)
Local Abbreviation out_note_hashes self :=
  (storage (Builder.new_note_hashes (b_end (public_inputs self)))).
Local Abbreviation out_nullifiers self :=
  (storage (Builder.new_nullifiers (b_end (public_inputs self)))).

Lemma squash_transient_data_ok (self self' : KernelCircuitPublicInputsComposer) :
  squash_transient_data self = Ok self' ->
  Forall (fun n => nullifier_counter n = 0) (note_hashes self) /\
  Forall (fun n => nf_note_hash n = 0) (nullifiers self) /\
  out_note_hashes self' = note_hashes self /\
  out_nullifiers self' = nullifiers self.
Proof.
  unfold Composer.squash_transient_data. intros H.
  rstep H. rstep H. rstep H. injection H as <-.
  destruct a0, a1.
  apply for_each_checks_ok in Hstep0, Hstep1.
  split; [|split; [|done]].
  - apply (Forall_indices _ ∅). eapply Forall_impl; [exact Hstep0|].
    intros i Hi. apply assert_ok in Hi. by apply bool_decide_eq_true in Hi.
  - apply (Forall_indices _ ∅). eapply Forall_impl; [exact Hstep1|].
    intros i Hi. apply assert_ok in Hi. by apply bool_decide_eq_true in Hi.
Qed.

(** A supplied note hash or nullifier that still carries a transient link
    makes the squash step fail. *)
Lemma squash_transient_data_rejects (self : KernelCircuitPublicInputsComposer) :
  Exists (fun n => nullifier_counter n <> 0) (note_hashes self) \/
  Exists (fun n => nf_note_hash n <> 0) (nullifiers self) ->
  is_ok (squash_transient_data self) = false.
Proof.
  intros H. destruct (squash_transient_data self) as [self'|] eqn:E;
    [|reflexivity].
  apply squash_transient_data_ok in E as (Hn & Hf & _).
  rewrite Forall_forall in Hn. rewrite Forall_forall in Hf.
  destruct H as [H|H]; apply Exists_exists in H as (x & Hx & Hne);
    exfalso; apply Hne; auto.
Qed.

Lemma with_note_hash_storage_id (self : KernelCircuitPublicInputsComposer) :
  with_note_hash_storage self (out_note_hashes self) = self.
Proof.
  destruct self as [[m b [[st n] ? ? ? ? ? ? ? ?] c] ? ? ? ? ? ? ? ? ? ? ? ? ?].
  reflexivity.
Qed.

(** What the silo step makes of the note hash [n] found at position [i]. *)
Local Abbreviation siloed first_value :=
  (fun (i : nat) (n : NoteHashContext) =>
     if bool_decide (nh_value n = 0) then n
     else mkNoteHashContext
            (compute_unique_siloed_note_hash
               (compute_note_hash_nonce first_value i) (nh_value n))
            (nh_counter n) (nullifier_counter n)).

Local Abbreviation silo_note_hash_at :=
  (Composer.silo_note_hash_at compute_note_hash_nonce
     compute_unique_siloed_note_hash).

(** The loop of [silo_note_hashes] over the positions [k, ..., k + m - 1],
    entered with the positions from [k] on still as in the copy [orig]. *)
Lemma silo_loop (first : Nullifier) (orig : list NoteHashContext) (m k : nat)
    (self0 : KernelCircuitPublicInputsComposer) (l : list NoteHashContext) :
  (forall j, (k <= j)%nat -> l !! j = orig !! j) ->
  exists l',
    for_each (silo_note_hash_at first orig) (seq k m)
      (with_note_hash_storage self0 l)
      = Ok (with_note_hash_storage self0 l') /\
    (forall j, (k <= j < k + m)%nat ->
       l' !! j = siloed (nf_value first) j <$> orig !! j) /\
    (forall j, ~ (k <= j < k + m)%nat -> l' !! j = l !! j).
Proof.
  revert k l. induction m as [|m IH]; intros k l Hl; simpl.
  - exists l. split; [reflexivity|]. split; [lia|done].
  - set (n := nth k orig ∅).
    assert (Hstep : exists l1,
      silo_note_hash_at first orig (with_note_hash_storage self0 l) k
        = Ok (with_note_hash_storage self0 l1) /\
      l1 !! k = siloed (nf_value first) k <$> orig !! k /\
      forall j, j <> k -> l1 !! j = l !! j).
    { unfold Composer.silo_note_hash_at. fold n.
      destruct (decide (nh_value n = 0)) as [Hz|Hnz].
      - exists l. rewrite (bool_decide_eq_true_2 _ Hz). simpl.
        split; [reflexivity|]. split; [|done].
        rewrite Hl by lia. subst n.
        destruct (orig !! k) as [x|] eqn:Hx; [|reflexivity]. simpl.
        rewrite (nth_lookup_Some _ _ _ _ Hx) in Hz.
        by rewrite (bool_decide_eq_true_2 _ Hz).
      - rewrite (bool_decide_eq_false_2 _ Hnz). simpl.
        eexists. split; [reflexivity|]. simpl. split.
        + subst n. destruct (orig !! k) as [x|] eqn:Hx.
          * rewrite (nth_lookup_Some _ _ _ _ Hx) in Hnz |- *.
            assert (Hlk : l !! k = Some x) by (rewrite Hl by lia; done).
            rewrite list_lookup_insert_eq by (by eapply lookup_lt_Some).
            rewrite (nth_lookup_Some _ _ _ _ Hlk). simpl.
            by rewrite (bool_decide_eq_false_2 _ Hnz).
          * exfalso. apply Hnz. by rewrite nth_lookup, Hx.
        + intros j Hj. by rewrite list_lookup_insert_ne. }
    destruct Hstep as (l1 & -> & Hk & Hother). simpl.
    destruct (IH (S k) l1) as (l' & Hrun & Hin & Hout).
    { intros j Hj. rewrite Hother by lia. apply Hl. lia. }
    exists l'. split; [exact Hrun|]. split.
    + intros j Hj. destruct (decide (j = k)) as [->|Hne].
      * rewrite Hout by lia. exact Hk.
      * apply Hin. lia.
    + intros j Hj. rewrite Hout by lia. apply Hother. lia.
Qed.

(** C3.  The silo step goes through only if the value of the first
    accumulated nullifier is not zero.  It then replaces, at every position
    [i], the value of a note hash whose value is not zero by the hash of the
    nonce of (first nullifier value, [i]) and the value it had; a note hash
    whose value is zero stays as it is, and nothing else in the composer
    changes. *)
Theorem silo_note_hashes_unique
    (self self' : KernelCircuitPublicInputsComposer) :
  silo_note_hashes self = Ok self' ->
  let first_nullifier := nth 0 (out_nullifiers self) ∅ in
  nf_value first_nullifier <> 0 /\
  (forall (i : nat) (n : NoteHashContext),
     out_note_hashes self !! i = Some n ->
     out_note_hashes self' !! i
     = Some (if bool_decide (nh_value n = 0) then n
             else mkNoteHashContext
                    (compute_unique_siloed_note_hash
                       (compute_note_hash_nonce (nf_value first_nullifier) i)
                       (nh_value n))
                    (nh_counter n) (nullifier_counter n))) /\
  length (out_note_hashes self') = length (out_note_hashes self) /\
  self' = with_note_hash_storage self (out_note_hashes self').
Proof.
  unfold Composer.silo_note_hashes, get_unchecked. intros H; simpl.
  rstep H. apply negb_true_iff, bool_decide_eq_false in Hstep.
  split; [exact Hstep|].
  set (first := nth 0 (out_nullifiers self) ∅) in *.
  set (orig := out_note_hashes self) in *.
  destruct (silo_loop first orig (length orig) 0 self orig)
    as (l' & Hrun & Hin & Hout); [done|].
  rewrite with_note_hash_storage_id in Hrun. rewrite Hrun in H.
  injection H as <-. simpl.
  assert (Hl' : l' = imap (siloed (nf_value first)) orig).
  { apply list_eq. intros j. rewrite list_lookup_imap.
    destruct (decide (j < length orig)%nat) as [Hj|Hj].
    - apply Hin. lia.
    - rewrite Hout by lia. by rewrite lookup_ge_None_2 by lia. }
  split; [|split; [by rewrite Hl', length_imap|reflexivity]].
  intros i n Hi. by rewrite Hl', list_lookup_imap, Hi.
Qed.

(** The check made on the previous kernel: its first nullifier is not zero. *)
Lemma validate_previous_kernel_values_ok (e : Builder.PrivateAccumulatedData) :
  validate_previous_kernel_values e = Ok tt ->
  nf_value (nth 0 (Builder.pad_new_nullifiers e) ∅) <> 0.
Proof.
  unfold validate_previous_kernel_values. intros H. apply assert_ok in H.
  by apply negb_true_iff, bool_decide_eq_false in H.
Qed.

(** With a zero first nullifier the silo step stops at its assertion,
    whatever the nonce and hash functions are. *)
Lemma silo_note_hashes_needs_first_nullifier
    (self : KernelCircuitPublicInputsComposer) :
  nf_value (nth 0 (out_nullifiers self) ∅) = 0 ->
  silo_note_hashes self
  = Err "The 0th nullifier in the accumulated nullifier array is zero".
Proof.
  intros H. unfold Composer.silo_note_hashes, get_unchecked.
  by rewrite (bool_decide_eq_true_2 _ H).
Qed.

Lemma propagate_sorted_arrays_supplied
    (self self' : KernelCircuitPublicInputsComposer) :
  propagate_sorted_arrays assert_sorted_array self = Ok self' ->
  note_hashes self' = note_hashes self /\ nullifiers self' = nullifiers self.
Proof.
  unfold propagate_sorted_arrays. intros H. repeat rstep H.
  by injection H as <-.
Qed.

(** C1.  When composition goes through, no supplied final note hash had a
    nullifier counter and no supplied final nullifier had a note-hash
    back-reference; the note hashes and nullifiers of the output are the
    supplied ones (up to the siloing of note-hash values), so every note hash
    of the output has nullifier counter zero and every nullifier of the output
    has back-reference zero. *)
Theorem compose_leaves_no_transient_reference
    (self self' : KernelCircuitPublicInputsComposer) :
  compose self = Ok self' ->
  Forall (fun n => nullifier_counter n = 0) (note_hashes self) /\
  Forall (fun n => nf_note_hash n = 0) (nullifiers self) /\
  nullifier_counter <$> out_note_hashes self'
    = nullifier_counter <$> note_hashes self /\
  out_nullifiers self' = nullifiers self /\
  Forall (fun n => nullifier_counter n = 0) (out_note_hashes self') /\
  Forall (fun n => nf_note_hash n = 0) (out_nullifiers self').
Proof.
  unfold Composer.compose, silo_values. intros H.
  rstep H. rstep H. rstep H. rstep H. injection H as <-.
  apply propagate_sorted_arrays_supplied in Hstep0 as [Hn Hf].
  simpl in Hn, Hf.
  apply squash_transient_data_ok in Hstep1 as (Hzn & Hzf & Hon & Hof).
  rewrite Hn in Hzn, Hon. rewrite Hf in Hzf, Hof.
  apply silo_note_hashes_unique in Hstep2 as (_ & Hs & Hlen & Hframe).
  assert (Hcounters :
    nullifier_counter <$> out_note_hashes a2
      = nullifier_counter <$> note_hashes self).
  { rewrite <- Hon. apply list_eq. intros i. rewrite !list_lookup_fmap.
    destruct (out_note_hashes a1 !! i) as [n|] eqn:Hi.
    - rewrite (Hs _ _ Hi). simpl. by destruct (bool_decide _).
    - rewrite lookup_ge_None_2; [done|].
      apply lookup_ge_None_1 in Hi. lia. }
  assert (Hnull : out_nullifiers a2 = nullifiers self).
  { rewrite Hframe. simpl. exact Hof. }
  split; [exact Hzn|]. split; [exact Hzf|]. split; [exact Hcounters|].
  split; [exact Hnull|]. split.
  - apply Forall_lookup. intros i n Hi.
    assert (Hc : (nullifier_counter <$> out_note_hashes a2) !! i
                 = Some (nullifier_counter n))
      by (by rewrite list_lookup_fmap, Hi).
    rewrite Hcounters, list_lookup_fmap in Hc.
    apply fmap_Some in Hc as (m & Hm & ->).
    by apply (Forall_lookup_1 _ _ _ _ Hzn Hm).
  - by rewrite Hnull.
Qed.

(** A supplied note hash or nullifier that still carries a transient link
    makes composition fail. *)
Lemma compose_rejects_transient_reference
    (self : KernelCircuitPublicInputsComposer) :
  Exists (fun n => nullifier_counter n <> 0) (note_hashes self) \/
  Exists (fun n => nf_note_hash n <> 0) (nullifiers self) ->
  is_ok (compose self) = false.
Proof.
  intros H. destruct (compose self) as [self'|] eqn:E; [|reflexivity].
  unfold Composer.compose in E.
  rstep E. rstep E. rstep E.
  apply propagate_sorted_arrays_supplied in Hstep0 as [Hn Hf].
  simpl in Hn, Hf.
  apply squash_transient_data_ok in Hstep1 as (Hzn & Hzf & _).
  rewrite Hn in Hzn. rewrite Hf in Hzf.
  rewrite Forall_forall in Hzn. rewrite Forall_forall in Hzf.
  destruct H as [H|H]; apply Exists_exists in H as (x & Hx & Hne);
    exfalso; apply Hne; auto.
Qed.

End ComposerProperties.

Lemma silo_note_hashes_unique_witness :
  exists self',
    Composer.silo_note_hashes Sample.nonce Sample.unique_hash
      Sample.composer_before_silo = Ok self' /\
    ((200 : Field) <> 0 /\
     (forall (i : nat) (n : NoteHashContext),
        Sample.tail_note_hashes !! i = Some n ->
        storage (Builder.new_note_hashes
                   (Composer.b_end (Composer.public_inputs self'))) !! i
        = Some (if bool_decide (nh_value n = 0) then n
                else mkNoteHashContext
                       (Sample.unique_hash (Sample.nonce 200 i) (nh_value n))
                       (nh_counter n) (nullifier_counter n))) /\
     length (storage (Builder.new_note_hashes
                        (Composer.b_end (Composer.public_inputs self'))))
     = 2%nat /\
     self' = Composer.with_note_hash_storage Sample.composer_before_silo
               (storage (Builder.new_note_hashes
                           (Composer.b_end (Composer.public_inputs self'))))).
Proof.
  eexists. split; [vm_compute; reflexivity|].
  exact (silo_note_hashes_unique Sample.nonce Sample.unique_hash
           Sample.composer_before_silo _ ltac:(vm_compute; reflexivity)).
Defined.

Lemma compose_leaves_no_transient_reference_witness :
  exists self',
    Composer.compose Sample.accept_squash Sample.accept_sorted Sample.nonce
      Sample.unique_hash Sample.composer = Ok self' /\
    (Forall (fun n => nullifier_counter n = 0) Sample.tail_note_hashes /\
     Forall (fun n => nf_note_hash n = 0) Sample.tail_nullifiers /\
     nullifier_counter
       <$> storage (Builder.new_note_hashes
                      (Composer.b_end (Composer.public_inputs self')))
     = nullifier_counter <$> Sample.tail_note_hashes /\
     storage (Builder.new_nullifiers
                (Composer.b_end (Composer.public_inputs self')))
     = Sample.tail_nullifiers /\
     Forall (fun n => nullifier_counter n = 0)
       (storage (Builder.new_note_hashes
                   (Composer.b_end (Composer.public_inputs self')))) /\
     Forall (fun n => nf_note_hash n = 0)
       (storage (Builder.new_nullifiers
                   (Composer.b_end (Composer.public_inputs self'))))).
Proof.
  eexists. split; [vm_compute; reflexivity|].
  exact (compose_leaves_no_transient_reference Sample.accept_squash
           Sample.accept_sorted Sample.nonce Sample.unique_hash
           Sample.composer _ ltac:(vm_compute; reflexivity)).
Defined.

(** On the sample tail the one note hash, of value 100 at position 0, becomes
    [unique_hash (nonce 200 0) 100]; the empty slot stays empty. *)
Example compose_sample_note_hashes :
  match Composer.compose Sample.accept_squash Sample.accept_sorted
          Sample.nonce Sample.unique_hash Sample.composer with
  | Ok self' =>
      storage (Builder.new_note_hashes
                 (Composer.b_end (Composer.public_inputs self')))
      = [mkNoteHashContext 200100 1 0; ∅]
  | Err _ => False
  end.
Proof. reflexivity. Qed.

(** A supplied note hash that still points at a nullifier is refused. *)
Example compose_sample_dangling :
  Composer.compose Sample.accept_squash Sample.accept_sorted
    Sample.nonce Sample.unique_hash
    (Composer.new 2 2 2 2 2 2 2 Sample.previous_kernel
       [mkNoteHashContext 100 1 2; ∅] Sample.tail_nullifiers
       [0; 0] [0; 0] Sample.tail_note_hashes [0; 1]
       Sample.tail_nullifiers [0; 1] [∅; ∅] [0; 1] [∅; ∅] [0; 1])
  = Err "Unresolved transient note hash".
Proof. reflexivity. Qed.

(** ** Accumulated data: the revertible / non-revertible split *)

Section SplitLoops.

Import Builder.

Context {T U : Type} `{Empty U, EqDecision U} `{Empty T}.
Variables (counter : T -> Z) (expose : T -> U) (threshold cost : Z).

Lemma billable_cons (y : U) (l : list U) :
  billable (y :: l) = (if is_empty y then 0 else 1) + billable l.
Proof.
  unfold billable, is_empty. destruct (decide (y = ∅)) as [Hy|Hy].
  - rewrite filter_cons_False by auto. rewrite bool_decide_eq_true_2 by done.
    lia.
  - rewrite filter_cons_True by done. rewrite bool_decide_eq_false_2 by done.
    simpl. lia.
Qed.

Lemma charge_ok (y : U) (gas gas' : Z) :
  charge y gas cost = Ok gas' ->
  gas' = gas + cost * (if is_empty y then 0 else 1).
Proof.
  unfold charge. destruct (is_empty y); simpl.
  - intros [= <-]. lia.
  - intros Hc. apply u32_add_ok in Hc as [-> _]. lia.
Qed.

(** A metering loop, run on [xs] from sequences holding [la] and [lb]. *)
Lemma split_metered_loop (xs : list T) (la lb : list U) (ka kb : nat)
    (ga gb : Z) (st' : Metered U) :
  for_each (split_metered_step counter expose threshold cost) xs
    (mkMetered (padded la ka) (padded lb kb) ga gb) = Ok st' ->
  let A := expose <$> non_revertible_part counter threshold xs in
  let B := expose <$> revertible_part counter threshold xs in
  st' = mkMetered (padded (la ++ A) (ka - length A))
          (padded (lb ++ B) (kb - length B))
          (ga + cost * billable A) (gb + cost * billable B).
Proof.
  revert la lb ka kb ga gb.
  induction xs as [|x xs IH]; simpl; intros la lb ka kb ga gb Hrun.
  - injection Hrun as <-. unfold billable. simpl.
    rewrite !app_nil_r, !Nat.sub_0_r. f_equal; lia.
  - rstep Hrun. unfold split_metered_step in Hstep.
    unfold non_revertible_part, revertible_part in *.
    destruct (Z.ltb_spec (counter x) threshold) as [Hlt|Hge].
    + rstep Hstep. rstep Hstep. injection Hstep as <-.
      apply push_padded_ok in Hstep0 as [Hk ->].
      apply charge_ok in Hstep1 as ->.
      apply IH in Hrun. rewrite Hrun.
      rewrite (filter_cons_True (fun x => counter x < threshold) _ _ Hlt).
      rewrite filter_cons_False by lia.
      rewrite fmap_cons, billable_cons. simpl.
      rewrite <- (assoc_L (++)). simpl.
      f_equal; [f_equal; lia | lia].
    + rstep Hstep. rstep Hstep. injection Hstep as <-.
      apply push_padded_ok in Hstep0 as [Hk ->].
      apply charge_ok in Hstep1 as ->.
      apply IH in Hrun. rewrite Hrun.
      rewrite (filter_cons_True (fun x => threshold <= counter x) _ _ Hge).
      rewrite filter_cons_False by lia.
      rewrite fmap_cons, billable_cons. simpl.
      rewrite <- (assoc_L (++)). simpl.
      f_equal; [f_equal; lia | lia].
Qed.

(** A distributing loop, likewise. *)
Lemma split_plain_loop (xs la lb : list T) (ka kb : nat)
    (st' : BoundedVec T * BoundedVec T) :
  for_each (split_plain_step counter threshold) xs
    (padded la ka, padded lb kb) = Ok st' ->
  let A := non_revertible_part counter threshold xs in
  let B := revertible_part counter threshold xs in
  st' = (padded (la ++ A) (ka - length A), padded (lb ++ B) (kb - length B)).
Proof.
  revert la lb ka kb.
  induction xs as [|x xs IH]; simpl; intros la lb ka kb Hrun.
  - injection Hrun as <-. by rewrite !app_nil_r, !Nat.sub_0_r.
  - rstep Hrun. unfold split_plain_step in Hstep. simpl in Hstep.
    unfold non_revertible_part, revertible_part in *.
    destruct (Z.ltb_spec (counter x) threshold) as [Hlt|Hge].
    + rstep Hstep. injection Hstep as <-.
      apply push_padded_ok in Hstep0 as [Hk ->].
      apply IH in Hrun. rewrite Hrun.
      rewrite (filter_cons_True (fun x => counter x < threshold) _ _ Hlt).
      rewrite filter_cons_False by lia. simpl.
      rewrite <- (assoc_L (++)). simpl.
      f_equal; f_equal; lia.
    + rstep Hstep. injection Hstep as <-.
      apply push_padded_ok in Hstep0 as [Hk ->].
      apply IH in Hrun. rewrite Hrun.
      rewrite (filter_cons_True (fun x => threshold <= counter x) _ _ Hge).
      rewrite filter_cons_False by lia. simpl.
      rewrite <- (assoc_L (++)). simpl.
      f_equal; f_equal; lia.
Qed.

Lemma billable_nonneg (l : list U) : 0 <= billable l.
Proof. unfold billable. lia. Qed.

(** The loops complete when both sequences have room for all of [xs] and the
    gas sums stay within [u32]. *)
Lemma split_metered_loop_total (xs : list T) (la lb : list U) (ka kb : nat)
    (ga gb : Z) :
  (length xs <= ka)%nat -> (length xs <= kb)%nat -> 0 <= cost ->
  ga + cost * billable (expose <$> non_revertible_part counter threshold xs)
    <= u32_MAX ->
  gb + cost * billable (expose <$> revertible_part counter threshold xs)
    <= u32_MAX ->
  exists st',
    for_each (split_metered_step counter expose threshold cost) xs
      (mkMetered (padded la ka) (padded lb kb) ga gb) = Ok st'.
Proof.
  revert la lb ka kb ga gb.
  induction xs as [|x xs IH]; simpl; intros la lb ka kb ga gb Ha Hb Hc Hga Hgb;
    [eauto|].
  unfold non_revertible_part, revertible_part in *.
  unfold split_metered_step at 1.
  destruct (Z.ltb_spec (counter x) threshold) as [Hlt|Hge].
  - rewrite (filter_cons_True (fun x => counter x < threshold) _ _ Hlt) in Hga.
    rewrite filter_cons_False in Hgb by lia.
    rewrite fmap_cons, billable_cons in Hga.
    pose proof (billable_nonneg
                  (expose <$> filter (fun x => counter x < threshold) xs)).
    cbn [m_non_revertible m_revertible m_non_revertible_da_gas_used
         m_revertible_da_gas_used].
    rewrite push_padded_free by lia. simpl. unfold charge, u32_add.
    destruct (is_empty (expose x)); simpl.
    + apply IH; try lia.
    + destruct (Z.leb_spec (ga + cost) u32_MAX); [|nia]. simpl.
      apply IH; try lia.
  - rewrite (filter_cons_True (fun x => threshold <= counter x) _ _ Hge) in Hgb.
    rewrite filter_cons_False in Hga by lia.
    rewrite fmap_cons, billable_cons in Hgb.
    pose proof (billable_nonneg
                  (expose <$> filter (fun x => threshold <= counter x) xs)).
    cbn [m_non_revertible m_revertible m_non_revertible_da_gas_used
         m_revertible_da_gas_used].
    rewrite push_padded_free by lia. simpl. unfold charge, u32_add.
    destruct (is_empty (expose x)); simpl.
    + apply IH; try lia.
    + destruct (Z.leb_spec (gb + cost) u32_MAX); [|nia]. simpl.
      apply IH; try lia.
Qed.

Lemma split_plain_loop_total (xs la lb : list T) (ka kb : nat) :
  (length xs <= ka)%nat -> (length xs <= kb)%nat ->
  exists st',
    for_each (split_plain_step counter threshold) xs
      (padded la ka, padded lb kb) = Ok st'.
Proof.
  revert la lb ka kb.
  induction xs as [|x xs IH]; simpl; intros la lb ka kb Ha Hb; [eauto|].
  unfold split_plain_step at 1. simpl.
  destruct (counter x <? threshold);
    rewrite push_padded_free by lia; simpl; apply IH; lia.
Qed.

End SplitLoops.

Section SplitProperties.

Import Builder.

Variables
  (MAX_NEW_NOTE_HASHES_PER_TX
   MAX_NEW_NULLIFIERS_PER_TX
   MAX_NEW_L2_TO_L1_MSGS_PER_TX
   MAX_PUBLIC_CALL_STACK_LENGTH_PER_TX
   MAX_ENCRYPTED_LOGS_PER_TX
   MAX_UNENCRYPTED_LOGS_PER_TX : nat).
Variables (DA_BYTES_PER_FIELD DA_GAS_PER_BYTE FIXED_DA_GAS FIXED_L2_GAS : Z).

Local Abbreviation split_to_public :=
  (Builder.split_to_public MAX_NEW_NOTE_HASHES_PER_TX
     MAX_NEW_NULLIFIERS_PER_TX MAX_NEW_L2_TO_L1_MSGS_PER_TX
     MAX_PUBLIC_CALL_STACK_LENGTH_PER_TX MAX_ENCRYPTED_LOGS_PER_TX
     MAX_UNENCRYPTED_LOGS_PER_TX DA_BYTES_PER_FIELD DA_GAS_PER_BYTE
     FIXED_DA_GAS FIXED_L2_GAS).

(** C4.  [split_to_public] sends the entries whose counter (start counter,
    for call-stack items) is below [min_revertible_side_effect_counter] to
    the non-revertible output and the others to the revertible output, in
    their order, for note hashes (exposed to public), nullifiers, public
    call-stack items and both kinds of log hashes.  The revertible gas is the
    whole teardown gas, both components, plus what the revertible note
    hashes, nullifiers and the log bytes cost; the non-revertible gas is the
    transaction overhead plus what the non-revertible note hashes and
    nullifiers cost. *)
Theorem split_to_public_partition
    (self : PrivateAccumulatedDataBuilder)
    (min_revertible_side_effect_counter : Z) (teardown_gas : Gas)
    (non_revertible revertible : PublicAccumulatedData) :
  split_to_public self min_revertible_side_effect_counter teardown_gas
    = Ok (non_revertible, revertible) ->
  let below {X} (c : X -> Z) :=
    non_revertible_part c min_revertible_side_effect_counter in
  let from {X} (c : X -> Z) :=
    revertible_part c min_revertible_side_effect_counter in
  let DA_GAS_PER_FIELD := DA_BYTES_PER_FIELD * DA_GAS_PER_BYTE in
  let note_hashes := storage (new_note_hashes self) in
  let nullifiers := storage (new_nullifiers self) in
  (pub_new_note_hashes non_revertible
     = zero_padded MAX_NEW_NOTE_HASHES_PER_TX
         (expose_to_public <$> below nh_counter note_hashes) /\
   pub_new_note_hashes revertible
     = zero_padded MAX_NEW_NOTE_HASHES_PER_TX
         (expose_to_public <$> from nh_counter note_hashes)) /\
  (pub_new_nullifiers non_revertible
     = zero_padded MAX_NEW_NULLIFIERS_PER_TX (below nf_counter nullifiers) /\
   pub_new_nullifiers revertible
     = zero_padded MAX_NEW_NULLIFIERS_PER_TX (from nf_counter nullifiers)) /\
  (pub_public_call_stack non_revertible
     = zero_padded MAX_PUBLIC_CALL_STACK_LENGTH_PER_TX
         (below cr_start_side_effect_counter (storage (public_call_stack self))) /\
   pub_public_call_stack revertible
     = zero_padded MAX_PUBLIC_CALL_STACK_LENGTH_PER_TX
         (from cr_start_side_effect_counter (storage (public_call_stack self)))) /\
  (pub_encrypted_logs_hashes non_revertible
     = zero_padded MAX_ENCRYPTED_LOGS_PER_TX
         (below se_counter (storage (encrypted_logs_hashes self))) /\
   pub_encrypted_logs_hashes revertible
     = zero_padded MAX_ENCRYPTED_LOGS_PER_TX
         (from se_counter (storage (encrypted_logs_hashes self)))) /\
  (pub_unencrypted_logs_hashes non_revertible
     = zero_padded MAX_UNENCRYPTED_LOGS_PER_TX
         (below se_counter (storage (unencrypted_logs_hashes self))) /\
   pub_unencrypted_logs_hashes revertible
     = zero_padded MAX_UNENCRYPTED_LOGS_PER_TX
         (from se_counter (storage (unencrypted_logs_hashes self)))) /\
  pub_gas_used revertible
    = mkGas
        (da_gas teardown_gas
         + (DA_GAS_PER_FIELD
              * (billable (expose_to_public <$> from nh_counter note_hashes)
                 + billable (from nf_counter nullifiers))
            + DA_GAS_PER_BYTE
                * (as_u32 (encrypted_log_preimages_length self)
                   + as_u32 (unencrypted_log_preimages_length self))))
        (l2_gas teardown_gas) /\
  pub_gas_used non_revertible
    = mkGas
        (FIXED_DA_GAS
         + DA_GAS_PER_FIELD
             * (billable (expose_to_public <$> below nh_counter note_hashes)
                + billable (below nf_counter nullifiers)))
        FIXED_L2_GAS.
Proof.
  unfold Builder.split_to_public, Gas_add. intros Hrun. simpl.
  repeat match goal with
    | H : rbind _ _ = Ok _ |- _ => rstep H; simpl in H
    | H : u32_mul _ _ = Ok _ |- _ => apply u32_mul_ok in H as [-> _]
    | H : u32_add _ _ = Ok _ |- _ => apply u32_add_ok in H as [-> _]
    | H : for_each (split_metered_step _ _ _ _) _ _ = Ok ?st |- _ =>
        rewrite !BoundedVec_new_padded in H;
        apply split_metered_loop in H; simpl in H; subst st; simpl in *
    | H : for_each (split_plain_step _ _) _ _ = Ok ?st |- _ =>
        rewrite !BoundedVec_new_padded in H;
        apply split_plain_loop in H; simpl in H; subst st; simpl in *
    | H : Ok _ = Ok ?g |- _ => is_var g; injection H as <-
    end.
  injection Hrun as <- <-. simpl. unfold zero_padded.
  rewrite !list_fmap_id.
  repeat split; try reflexivity; f_equal; lia.
Qed.

(** [split_to_public] does return a pair when the arrays have their declared
    sizes and the two gas totals, as given by C4, fit in a [u32]. *)
Lemma split_to_public_total
    (self : PrivateAccumulatedDataBuilder)
    (min_revertible_side_effect_counter : Z) (teardown_gas : Gas) :
  let below {X} (c : X -> Z) :=
    non_revertible_part c min_revertible_side_effect_counter in
  let from {X} (c : X -> Z) :=
    revertible_part c min_revertible_side_effect_counter in
  let DA_GAS_PER_FIELD := DA_BYTES_PER_FIELD * DA_GAS_PER_BYTE in
  let note_hashes := storage (new_note_hashes self) in
  let nullifiers := storage (new_nullifiers self) in
  let log_bytes :=
    as_u32 (encrypted_log_preimages_length self)
    + as_u32 (unencrypted_log_preimages_length self) in
  length note_hashes = MAX_NEW_NOTE_HASHES_PER_TX ->
  length nullifiers = MAX_NEW_NULLIFIERS_PER_TX ->
  length (storage (public_call_stack self))
    = MAX_PUBLIC_CALL_STACK_LENGTH_PER_TX ->
  length (storage (encrypted_logs_hashes self)) = MAX_ENCRYPTED_LOGS_PER_TX ->
  length (storage (unencrypted_logs_hashes self))
    = MAX_UNENCRYPTED_LOGS_PER_TX ->
  0 <= DA_GAS_PER_FIELD <= u32_MAX ->
  0 <= DA_GAS_PER_BYTE -> 0 <= da_gas teardown_gas ->
  0 <= FIXED_DA_GAS -> FIXED_L2_GAS <= u32_MAX ->
  log_bytes <= u32_MAX ->
  da_gas teardown_gas
  + (DA_GAS_PER_FIELD
       * (billable (expose_to_public <$> from nh_counter note_hashes)
          + billable (from nf_counter nullifiers))
     + DA_GAS_PER_BYTE * log_bytes) <= u32_MAX ->
  FIXED_DA_GAS
  + DA_GAS_PER_FIELD
      * (billable (expose_to_public <$> below nh_counter note_hashes)
         + billable (below nf_counter nullifiers)) <= u32_MAX ->
  exists halves,
    split_to_public self min_revertible_side_effect_counter teardown_gas
      = Ok halves.
Proof.
  intros below from cost nhs nfs log_bytes Hnh Hnf Hcs Hel Hul Hcost Hbyte
    Htd Hfd Hfl Hlog Hrev Hnon.
  subst below from.
  set (Rnh := billable
                (expose_to_public
                   <$> revertible_part nh_counter
                         min_revertible_side_effect_counter nhs)) in *.
  set (Rnf := billable
                (revertible_part nf_counter
                   min_revertible_side_effect_counter nfs)) in *.
  set (Nnh := billable
                (expose_to_public
                   <$> non_revertible_part nh_counter
                         min_revertible_side_effect_counter nhs)) in *.
  set (Nnf := billable
                (non_revertible_part nf_counter
                   min_revertible_side_effect_counter nfs)) in *.
  assert (0 <= Rnh /\ 0 <= Rnf /\ 0 <= Nnh /\ 0 <= Nnf) as (? & ? & ? & ?)
    by (repeat split; apply billable_nonneg).
  assert (0 <= log_bytes).
  { subst log_bytes. unfold as_u32.
    pose proof (Z.mod_pos_bound (encrypted_log_preimages_length self) (2 ^ 32)).
    pose proof (Z.mod_pos_bound (unencrypted_log_preimages_length self) (2 ^ 32)).
    lia. }
  unfold Builder.split_to_public, Gas_add.
  unfold u32_mul at 1. fold cost.
  destruct (Z.leb_spec cost u32_MAX) as [_|]; [|lia]. simpl.
  rewrite !BoundedVec_new_padded.
  destruct (split_metered_loop_total nh_counter expose_to_public
              min_revertible_side_effect_counter cost nhs [] []
              MAX_NEW_NOTE_HASHES_PER_TX MAX_NEW_NOTE_HASHES_PER_TX
              0 (da_gas teardown_gas)) as [st1 Hloop1];
    [fold nhs in Hnh; lia .. | fold Nnh; nia | fold Rnh; nia |].
  fold nhs. rewrite Hloop1. simpl.
  apply split_metered_loop in Hloop1. simpl in Hloop1. fold Nnh Rnh in Hloop1. subst st1.
  simpl.
  destruct (split_metered_loop_total nf_counter (fun n : Nullifier => n)
              min_revertible_side_effect_counter cost nfs [] []
              MAX_NEW_NULLIFIERS_PER_TX MAX_NEW_NULLIFIERS_PER_TX
              (0 + cost * Nnh) (da_gas teardown_gas + cost * Rnh))
    as [st2 Hloop2];
    [fold nfs in Hnf; lia .. | rewrite list_fmap_id; fold Nnf; nia
     | rewrite list_fmap_id; fold Rnf; nia |].
  fold nfs. rewrite Hloop2. simpl.
  apply split_metered_loop in Hloop2. simpl in Hloop2. rewrite !list_fmap_id in Hloop2.
  fold Nnf Rnf in Hloop2. subst st2. simpl.
  destruct (split_plain_loop_total cr_start_side_effect_counter
              min_revertible_side_effect_counter
              (storage (public_call_stack self)) [] []
              MAX_PUBLIC_CALL_STACK_LENGTH_PER_TX
              MAX_PUBLIC_CALL_STACK_LENGTH_PER_TX) as [st3 Hloop3]; [lia..|].
  rewrite Hloop3. simpl.
  destruct (split_plain_loop_total se_counter
              min_revertible_side_effect_counter
              (storage (encrypted_logs_hashes self)) [] []
              MAX_ENCRYPTED_LOGS_PER_TX MAX_ENCRYPTED_LOGS_PER_TX)
    as [st4 Hloop4]; [lia..|].
  rewrite Hloop4. simpl.
  destruct (split_plain_loop_total se_counter
              min_revertible_side_effect_counter
              (storage (unencrypted_logs_hashes self)) [] []
              MAX_UNENCRYPTED_LOGS_PER_TX MAX_UNENCRYPTED_LOGS_PER_TX)
    as [st5 Hloop5]; [lia..|].
  rewrite Hloop5. simpl.
  fold log_bytes. unfold u32_add at 1.
  destruct (Z.leb_spec log_bytes u32_MAX); [|lia]. simpl.
  unfold u32_mul.
  destruct (Z.leb_spec (DA_GAS_PER_BYTE * log_bytes) u32_MAX); [|nia]. simpl.
  unfold u32_add.
  repeat match goal with
    | |- context [Z.leb ?a ?b] =>
        destruct (Z.leb_spec a b); [|nia]; simpl
    end.
  eauto.
Qed.

End SplitProperties.

Lemma split_to_public_partition_witness :
  exists non_revertible revertible,
    Sample.split_accumulated = Ok (non_revertible, revertible) /\
    let below {X} (c : X -> Z) := Builder.non_revertible_part c 7 in
    let from {X} (c : X -> Z) := Builder.revertible_part c 7 in
    let note_hashes := storage (Builder.new_note_hashes Sample.accumulated) in
    let nullifiers := storage (Builder.new_nullifiers Sample.accumulated) in
    (Builder.pub_new_note_hashes non_revertible
       = Builder.zero_padded 6
           (expose_to_public <$> below nh_counter note_hashes) /\
     Builder.pub_new_note_hashes revertible
       = Builder.zero_padded 6
           (expose_to_public <$> from nh_counter note_hashes)) /\
    (Builder.pub_new_nullifiers non_revertible
       = Builder.zero_padded 6 (below nf_counter nullifiers) /\
     Builder.pub_new_nullifiers revertible
       = Builder.zero_padded 6 (from nf_counter nullifiers)) /\
    (Builder.pub_public_call_stack non_revertible
       = Builder.zero_padded 3
           (below cr_start_side_effect_counter
              (storage (Builder.public_call_stack Sample.accumulated))) /\
     Builder.pub_public_call_stack revertible
       = Builder.zero_padded 3
           (from cr_start_side_effect_counter
              (storage (Builder.public_call_stack Sample.accumulated)))) /\
    (Builder.pub_encrypted_logs_hashes non_revertible
       = Builder.zero_padded 2 (below se_counter [∅; ∅]) /\
     Builder.pub_encrypted_logs_hashes revertible
       = Builder.zero_padded 2 (from se_counter [∅; ∅])) /\
    (Builder.pub_unencrypted_logs_hashes non_revertible
       = Builder.zero_padded 2 (below se_counter [∅; ∅]) /\
     Builder.pub_unencrypted_logs_hashes revertible
       = Builder.zero_padded 2 (from se_counter [∅; ∅])) /\
    Builder.pub_gas_used revertible
      = mkGas
          (42 + (32 * 16
                   * (Builder.billable
                        (expose_to_public <$> from nh_counter note_hashes)
                      + Builder.billable (from nf_counter nullifiers))
                 + 16 * (as_u32 0 + as_u32 0)))
          17 /\
    Builder.pub_gas_used non_revertible
      = mkGas
          (512 + 32 * 16
                   * (Builder.billable
                        (expose_to_public <$> below nh_counter note_hashes)
                      + Builder.billable (below nf_counter nullifiers)))
          512.
Proof.
  eexists. eexists. split; [vm_compute; reflexivity|].
  exact (split_to_public_partition 6 6 2 3 2 2 32 16 512 512
           Sample.accumulated 7 (mkGas 42 17) _ _
           ltac:(vm_compute; reflexivity)).
Defined.

(** What the test [splits_revertible_and_non_revertible] asserts: the note
    hashes, nullifiers and call requests on each side, and the gas of each
    side ([4 * DA_BYTES_PER_FIELD * DA_GAS_PER_BYTE] is 2048). *)
Example splits_revertible_and_non_revertible :
  match Sample.split_accumulated with
  | Ok (non_revertible, revertible) =>
      Builder.pub_new_note_hashes non_revertible
        = [mkSideEffect 1 0; mkSideEffect 2 0; ∅; ∅; ∅; ∅] /\
      Builder.pub_new_nullifiers non_revertible
        = [mkNullifier 10 1 2; mkNullifier 20 2 4; ∅; ∅; ∅; ∅] /\
      Builder.pub_public_call_stack non_revertible
        = [mkCallRequest 1 1 ∅ 5 0; mkCallRequest 2 1 ∅ 6 0; ∅] /\
      Builder.pub_new_note_hashes revertible
        = [mkSideEffect 3 0; mkSideEffect 4 0; ∅; ∅; ∅; ∅] /\
      Builder.pub_new_nullifiers revertible
        = [mkNullifier 30 3 8; mkNullifier 40 4 11; ∅; ∅; ∅; ∅] /\
      Builder.pub_public_call_stack revertible
        = [mkCallRequest 3 3 ∅ 9 0; ∅; ∅] /\
      Builder.pub_gas_used revertible = mkGas (2048 + 42) 17 /\
      Builder.pub_gas_used non_revertible = mkGas (2048 + 512) 512
  | Err _ => False
  end.
Proof. vm_compute. repeat split. Qed.

(** ** Call context tracker: the window of an invocation *)

Lemma is_padded_padded {T} `{Empty T} (l : list T) (k : nat) :
  is_padded (padded l k).
Proof.
  unfold is_padded, padded, items. simpl.
  rewrite take_app_length, length_app, length_replicate.
  by replace (length l + k - length l)%nat with k by lia.
Qed.

Lemma push_is_padded {T} `{Empty T} (v v' : BoundedVec T) (e : T) :
  is_padded v -> push v e = Ok v' -> is_padded v'.
Proof.
  intros Hv Hp. rewrite Hv in Hp. apply push_padded_ok in Hp as [_ ->].
  apply is_padded_padded.
Qed.

Lemma is_padded_storage {T} `{Empty T} (v : BoundedVec T) :
  is_padded v ->
  storage v = items v ++ replicate (length (storage v) - len v) ∅.
Proof. intros Hv. by rewrite Hv at 1. Qed.

Section TrackerWindow.

Import Tracker.

Variable call_private_function_internal :
  AztecAddress -> FunctionSelector -> Field -> Z -> bool -> bool ->
  PrivateCallStackItem.
Variable enqueue_public_function_call_internal :
  AztecAddress -> FunctionSelector -> Field -> Z -> bool -> bool ->
  EnqueuedCall.
Variable get_nullifier_keys_oracle : AztecAddress -> GrumpkinPoint * Field.
Variable private_item_hash : PrivateCallStackItem -> Field.
Variable public_item_hash : PublicCallStackItem -> Field.
Variable hash_args_array : list Field -> Field.
Variable pack_arguments_array : list Field -> Field.
Variable emit_unencrypted_log_oracle_private :
  forall T : Type, AztecAddress -> Field -> T -> Field.
Variable process_l1_to_l2_message :
  Header -> AztecAddress -> EthAddress -> Field -> Field -> Field -> Field ->
  Field.

Local Abbreviation act :=
  (Tracker.act call_private_function_internal
     enqueue_public_function_call_internal get_nullifier_keys_oracle
     private_item_hash public_item_hash hash_args_array pack_arguments_array
     emit_unencrypted_log_oracle_private process_l1_to_l2_message).

(** Solves the frame part of a step: the sequences that were not pushed to
    are the same, the one pushed to stays padded. *)
Ltac frame_padded :=
  unfold vectors_padded; simpl;
  intros (?&?&?&?&?&?&?&?&?&?);
  repeat split;
  first [ assumption
        | match goal with
          | Hp : push ?v ?e = Ok ?a |- is_padded ?a =>
              apply (push_is_padded v a e); [assumption | exact Hp]
          end ].

(** One action: the inputs stay, the counter does not go back, and either
    nothing is stamped or one entry is stamped with the counter, which then
    moves up by one. *)
Lemma act_step (self self' : PrivateContext) (a : Action) :
  act self a = Ok self' ->
  inputs self' = inputs self /\
  (vectors_padded self -> vectors_padded self') /\
  (simulator_windows_ordered call_private_function_internal ->
   (all_counters self' = all_counters self /\
    side_effect_counter self <= side_effect_counter self') \/
   (all_counters self' ≡ₚ all_counters self ++ [side_effect_counter self] /\
    side_effect_counter self' = side_effect_counter self + 1)).
Proof.
  intros H. destruct a as [e|log|content secret sender|rcp content| |acc|c];
    simpl in H.
  - pose proof (record_step _ _ _ H) as (Hc & _ & Hp & _ & _ & Hi).
    split; [exact Hi|]. split.
    + destruct e; simpl in H; rstep H; apply bump_counter_ok in H; subst self';
        frame_padded.
    + intros _. right. split; [|exact Hc]. unfold all_counters.
      assert (Hu : unencrypted_logs_hashes self' = unencrypted_logs_hashes self).
      { destruct e; simpl in H; rstep H; apply bump_counter_ok in H;
          by subst self'. }
      rewrite Hu, Hp. rewrite <- !(assoc_L (++)).
      apply Permutation_app_head. apply Permutation_app_comm.
  - unfold emit_unencrypted_log in H. rstep H. apply bump_counter_ok in H.
    subst self'. split; [done|]. split; [frame_padded|].
    intros _. right. split; [|done]. unfold all_counters, recorded_counters. simpl.
    apply push_items in Hstep. rewrite Hstep, fmap_app. simpl.
    by rewrite !(assoc_L (++)).
  - unfold consume_l1_to_l2_message in H.
    change (record self
              (NewNullifier
                 (process_l1_to_l2_message (historical_header self)
                    (this_address self) sender
                    (chain_id (tx_context (inputs self)))
                    (version (tx_context (inputs self))) content secret) 0)
            = Ok self') in H.
    pose proof (record_step _ _ _ H) as (Hc & _ & Hp & _ & _ & Hi).
    simpl in H. split; [exact Hi|]. split.
    + rstep H. apply bump_counter_ok in H. subst self'. frame_padded.
    + intros _. right. split; [|exact Hc]. unfold all_counters.
      assert (Hu : unencrypted_logs_hashes self' = unencrypted_logs_hashes self).
      { rstep H. apply bump_counter_ok in H. by subst self'. }
      rewrite Hu, Hp. rewrite <- !(assoc_L (++)).
      apply Permutation_app_head. apply Permutation_app_comm.
  - unfold message_portal in H. rstep H. injection H as <-.
    split; [done|]. split; [frame_padded|]. intros _. left. split; [done|]. simpl. lia.
  - injection H as <-. split; [done|]. split; [frame_padded|].
    intros _. left. split; [done|]. simpl. lia.
  - rstep H. injection H as <-.
    unfold request_app_nullifier_secret_key in Hstep. rstep Hstep.
    injection Hstep as <-. simpl.
    destruct (nullifier_key self) as [keys|].
    + rstep Hstep0. rstep Hstep0. injection Hstep0 as <-. simpl.
      split; [done|]. split; [done|]. intros _. left. split; [done|lia].
    + rstep Hstep0. injection Hstep0 as <-. simpl.
      split; [done|]. split; [frame_padded|]. intros _. left. split; [done|]. simpl. lia.
  - apply perform_through_packed in H. destruct (is_private_call c).
    + destruct H as (ret & H).
      pose proof (private_packed_ok _ _ _ _ _ _ _ _ _ _ H)
        as (Hc & _ & Hs & _ & _ & _ & _ & Hi).
      split; [exact Hi|].
      unfold call_private_function_with_packed_args in H.
      repeat rstep H. injection H as <- _. split; [frame_padded|].
      intros Hsim.
      specialize (Hsim (requested_target c) (requested_selector c)
                    (requested_args_hash hash_args_array c)
                    (side_effect_counter self)
                    (requested_static c
                     || is_static_call (call_context (inputs self)))
                    (requested_delegate c)).
      left. split; [done|]. simpl in *. lia.
    + pose proof (public_packed_ok _ _ _ _ _ _ _ _ _ H)
        as (Hc & _ & _ & _ & _ & _ & _ & Hi).
      split; [exact Hi|].
      unfold call_public_function_with_packed_args in H.
      repeat rstep H. apply bump_counter_ok in Hstep2. subst.
      injection H as <-. split; [frame_padded|].
      intros _. left. split; [done|]. simpl in *. lia.
Qed.

Lemma new_vectors_padded (M1 M2 M3 M4 M5 M6 M7 M8 M9 : nat)
    (inputs : PrivateContextInputs) (args_hash : Field) :
  vectors_padded (new M1 M2 M3 M4 M5 M6 M7 M8 M9 inputs args_hash).
Proof.
  unfold vectors_padded, new. simpl. rewrite !BoundedVec_new_padded.
  repeat split; apply is_padded_padded.
Qed.

Lemma run_keeps_padded (actions : list Action) (self self' : PrivateContext) :
  for_each act actions self = Ok self' ->
  vectors_padded self -> vectors_padded self' /\ inputs self' = inputs self.
Proof.
  revert self. induction actions as [|a actions IH]; simpl; intros self H Hp.
  - by injection H as <-.
  - rstep H. apply act_step in Hstep as (Hi & Hpad & _).
    destruct (IH _ H (Hpad Hp)) as [? ->]. auto.
Qed.

Lemma run_keeps_window (actions : list Action) (self self' : PrivateContext) :
  simulator_windows_ordered call_private_function_internal ->
  for_each act actions self = Ok self' ->
  counters_in_window self -> counters_in_window self'.
Proof.
  intros Hsim. revert self.
  induction actions as [|a actions IH]; simpl; intros self H Hw.
  - by injection H as <-.
  - rstep H. apply (IH _ H). clear IH H.
    apply act_step in Hstep as (Hi & _ & Hc). specialize (Hc Hsim).
    destruct Hw as (Hle & Hall & Hnd). unfold counters_in_window.
    rewrite Hi. destruct Hc as [[Heq Hmono]|[Hperm Hnext]].
    + rewrite Heq. split; [lia|]. split; [|exact Hnd].
      eapply Forall_impl; [exact Hall|]. simpl. intros c Hc. lia.
    + rewrite Hperm, Hnext. split; [lia|]. split.
      * apply Forall_app. split.
        -- eapply Forall_impl; [exact Hall|]. simpl. intros c Hc. lia.
        -- apply Forall_singleton. lia.
      * apply NoDup_app. split; [exact Hnd|]. split; [|apply NoDup_singleton].
        intros c Hc Hin. apply list_elem_of_singleton in Hin. subst c.
        rewrite Forall_forall in Hall. specialize (Hall _ Hc). lia.
Qed.

(** X1.  Whatever a private function does with its context, and in whatever
    order, the counters stamped on the side effects it holds when it finishes
    are pairwise distinct and lie in the window that [finish] reports, which
    starts where the inputs said; this needs the nested private calls to
    report windows that are not inverted. *)
Theorem finish_counters_in_window
    (M1 M2 M3 M4 M5 M6 M7 M8 M9 : nat)
    (inputs : PrivateContextInputs) (args_hash : Field)
    (actions : list Action) (self' : PrivateContext) :
  simulator_windows_ordered call_private_function_internal ->
  for_each act actions (new M1 M2 M3 M4 M5 M6 M7 M8 M9 inputs args_hash)
    = Ok self' ->
  let pi := finish self' in
  pi_call_context pi = call_context inputs /\
  pi_start_side_effect_counter pi = start_side_effect_counter inputs /\
  pi_start_side_effect_counter pi <= pi_end_side_effect_counter pi /\
  NoDup (all_counters self') /\
  Forall (fun c => pi_start_side_effect_counter pi <= c
                   < pi_end_side_effect_counter pi) (all_counters self').
Proof.
  intros Hsim H. simpl.
  assert (Hi : Tracker.inputs self' = inputs).
  { by apply run_keeps_padded in H as [_ ->];
      [|apply new_vectors_padded]. }
  apply (run_keeps_window _ _ _ Hsim) in H.
  - destruct H as (Hle & Hall & Hnd). rewrite Hi in *. auto.
  - unfold counters_in_window. simpl. split; [lia|].
    split; [constructor|constructor].
Qed.

(** X2.  The arrays that [finish] hands to the kernel hold the recorded
    entries first and only empty entries after them, whatever was done with
    the context. *)
Theorem finish_arrays_zero_padded
    (M1 M2 M3 M4 M5 M6 M7 M8 M9 : nat)
    (inputs : PrivateContextInputs) (args_hash : Field)
    (actions : list Action) (self' : PrivateContext) :
  for_each act actions (new M1 M2 M3 M4 M5 M6 M7 M8 M9 inputs args_hash)
    = Ok self' ->
  let pi := finish self' in
  let rest {X} (v : BoundedVec X) := (length (storage v) - len v)%nat in
  pi_new_note_hashes pi
    = items (new_note_hashes self')
      ++ replicate (rest (new_note_hashes self')) ∅ /\
  pi_new_nullifiers pi
    = items (new_nullifiers self')
      ++ replicate (rest (new_nullifiers self')) ∅ /\
  pi_note_hash_read_requests pi
    = items (note_hash_read_requests self')
      ++ replicate (rest (note_hash_read_requests self')) ∅ /\
  pi_nullifier_read_requests pi
    = items (nullifier_read_requests self')
      ++ replicate (rest (nullifier_read_requests self')) ∅ /\
  pi_nullifier_key_validation_requests pi
    = items (nullifier_key_validation_requests self')
      ++ replicate (rest (nullifier_key_validation_requests self')) ∅ /\
  pi_private_call_stack_hashes pi
    = items (private_call_stack_hashes self')
      ++ replicate (rest (private_call_stack_hashes self')) ∅ /\
  pi_public_call_stack_hashes pi
    = items (public_call_stack_hashes self')
      ++ replicate (rest (public_call_stack_hashes self')) ∅ /\
  pi_new_l2_to_l1_msgs pi
    = items (new_l2_to_l1_msgs self')
      ++ replicate (rest (new_l2_to_l1_msgs self')) ∅ /\
  pi_encrypted_logs_hashes pi
    = items (encrypted_logs_hashes self')
      ++ replicate (rest (encrypted_logs_hashes self')) ∅ /\
  pi_unencrypted_logs_hashes pi
    = items (unencrypted_logs_hashes self')
      ++ replicate (rest (unencrypted_logs_hashes self')) ∅.
Proof.
  intros H. apply run_keeps_padded in H as [H _];
    [|apply new_vectors_padded].
  destruct H as (?&?&?&?&?&?&?&?&?&?). simpl.
  repeat split; by apply is_padded_storage.
Qed.

(** Only [end_setup] moves the threshold. *)
Lemma act_keeps_threshold (self self' : PrivateContext) (a : Action) :
  a <> EndSetup ->
  act self a = Ok self' ->
  min_revertible_side_effect_counter self'
  = min_revertible_side_effect_counter self.
Proof.
  intros Ha H. destruct a as [e|log|content secret sender|rcp content| |acc|c];
    simpl in H; [| | | |done| |].
  - destruct e; simpl in H; rstep H; apply bump_counter_ok in H; by subst.
  - unfold emit_unencrypted_log in H. rstep H. apply bump_counter_ok in H.
    by subst.
  - unfold consume_l1_to_l2_message, push_new_nullifier in H. rstep H.
    apply bump_counter_ok in H. by subst.
  - unfold message_portal in H. rstep H. by injection H as <-.
  - rstep H. injection H as <-.
    unfold request_app_nullifier_secret_key in Hstep. rstep Hstep.
    injection Hstep as <-. simpl.
    destruct (nullifier_key self) as [keys|].
    + rstep Hstep0. rstep Hstep0. by injection Hstep0 as <-.
    + rstep Hstep0. by injection Hstep0 as <-.
  - apply perform_through_packed in H. destruct (is_private_call c).
    + destruct H as (ret & H).
      unfold call_private_function_with_packed_args in H.
      repeat rstep H. by injection H as <- _.
    + unfold call_public_function_with_packed_args in H.
      repeat rstep H.
      match goal with
      | Hb : bump_counter _ = Ok _ |- _ => apply bump_counter_ok in Hb; subst
      end.
      by injection H as <-.
Qed.

(** A run without [end_setup]: the threshold stays, the counter does not go
    back, and what is stamped is stamped at or above the counter the run
    started from. *)
Lemma run_after_threshold (actions : list Action)
    (self self' : PrivateContext) :
  simulator_windows_ordered call_private_function_internal ->
  Forall (fun a => a <> EndSetup) actions ->
  for_each act actions self = Ok self' ->
  min_revertible_side_effect_counter self'
  = min_revertible_side_effect_counter self /\
  side_effect_counter self <= side_effect_counter self' /\
  exists later,
    all_counters self' ≡ₚ all_counters self ++ later /\
    Forall (fun c => side_effect_counter self <= c) later.
Proof.
  intros Hsim. revert self.
  induction actions as [|a actions IH]; simpl; intros self Hne H.
  - injection H as <-. split; [done|]. split; [lia|].
    exists []. by rewrite app_nil_r.
  - apply Forall_cons in Hne as [Ha Hne]. rstep H.
    match goal with
    | Hs : act self a = Ok ?mid |- _ =>
        pose proof (act_keeps_threshold _ _ _ Ha Hs) as Hthr;
        apply act_step in Hs as (_ & _ & Hc); specialize (Hc Hsim);
        destruct (IH mid Hne H) as (Hm & Hle & later & Hperm & Hall)
    end.
    split; [congruence|].
    destruct Hc as [[Heq Hmono]|[Hsnoc Hnext]].
    + split; [lia|]. exists later. split; [by rewrite Hperm, Heq|].
      eapply Forall_impl; [exact Hall|]. simpl. intros c Hc. lia.
    + split; [lia|]. exists (side_effect_counter self :: later). split.
      * rewrite Hperm, Hsnoc. by rewrite <- (assoc_L (++)).
      * constructor; [lia|].
        eapply Forall_impl; [exact Hall|]. simpl. intros c Hc. lia.
Qed.

(** X3.  The last [end_setup] of a function draws the line between its two
    phases, whatever the function does with its context before and after
    it (effects, logs, messages, key requests, nested calls): every side
    effect held when that [end_setup] is reached is stamped below the
    threshold that [finish] reports, every side effect added after it is
    stamped at or above, and the threshold is the counter at that
    [end_setup].  This needs the nested private calls to report windows that
    are not inverted. *)
Theorem end_setup_separates_phases
    (M1 M2 M3 M4 M5 M6 M7 M8 M9 : nat)
    (inputs : PrivateContextInputs) (args_hash : Field)
    (before after : list Action) (s2 : PrivateContext) :
  simulator_windows_ordered call_private_function_internal ->
  Forall (fun a => a <> EndSetup) after ->
  for_each act (before ++ EndSetup :: after)
    (new M1 M2 M3 M4 M5 M6 M7 M8 M9 inputs args_hash) = Ok s2 ->
  let threshold := pi_min_revertible_side_effect_counter (finish s2) in
  exists s1 later,
    for_each act before (new M1 M2 M3 M4 M5 M6 M7 M8 M9 inputs args_hash)
      = Ok s1 /\
    threshold = side_effect_counter s1 /\
    Forall (fun c => c < threshold) (all_counters s1) /\
    all_counters s2 ≡ₚ all_counters s1 ++ later /\
    Forall (fun c => threshold <= c) later.
Proof.
  intros Hsim Hne H. simpl.
  apply for_each_app in H as (s1 & H1 & H2). simpl in H2.
  destruct (run_after_threshold _ _ _ Hsim Hne H2)
    as (Hthr & _ & later & Hperm & Hall).
  exists s1, later. split; [exact H1|].
  rewrite Hthr. simpl. split; [reflexivity|].
  apply (run_keeps_window _ _ _ Hsim) in H1.
  - destruct H1 as (_ & Hin & _). split; [|by split].
    eapply Forall_impl; [exact Hin|]. simpl. intros c Hc. lia.
  - unfold counters_in_window. simpl. split; [lia|].
    split; constructor.
Qed.

End TrackerWindow.

Lemma finish_counters_in_window_witness :
  exists self',
    Sample.run_actions = Ok self' /\
    let pi := Tracker.finish self' in
    pi_call_context pi = Tracker.call_context (Sample.inputs false) /\
    pi_start_side_effect_counter pi = 5 /\
    pi_start_side_effect_counter pi <= pi_end_side_effect_counter pi /\
    NoDup (Tracker.all_counters self') /\
    Forall (fun c => pi_start_side_effect_counter pi <= c
                     < pi_end_side_effect_counter pi)
      (Tracker.all_counters self').
Proof.
  eexists. split; [vm_compute; reflexivity|].
  refine (finish_counters_in_window Sample.simulator Sample.enqueuer
            Sample.key_store (fun _ => 1) (fun _ => 2) Sample.hash_fields
            Sample.hash_fields Sample.log_oracle Sample.message_nullifier
            2 2 2 2 2 2 2 2 2 (Sample.inputs false) 0 Sample.actions _ _ _).
  - intros t fs h c st dl. simpl. lia.
  - vm_compute. reflexivity.
Defined.

Lemma end_setup_separates_phases_witness :
  exists s2,
    Sample.run_actions = Ok s2 /\
    let act :=
      Tracker.act Sample.simulator Sample.enqueuer Sample.key_store
        (fun _ => 1) (fun _ => 2) Sample.hash_fields Sample.hash_fields
        Sample.log_oracle Sample.message_nullifier in
    let threshold :=
      pi_min_revertible_side_effect_counter (Tracker.finish s2) in
    exists s1 later,
      for_each act [Tracker.Record (Tracker.NewNoteHash 11)]
        (Sample.context false) = Ok s1 /\
      threshold = Tracker.side_effect_counter s1 /\
      Forall (fun c => c < threshold) (Tracker.all_counters s1) /\
      Tracker.all_counters s2 ≡ₚ Tracker.all_counters s1 ++ later /\
      Forall (fun c => threshold <= c) later.
Proof.
  eexists. split; [vm_compute; reflexivity|].
  refine (end_setup_separates_phases Sample.simulator Sample.enqueuer
            Sample.key_store (fun _ => 1) (fun _ => 2) Sample.hash_fields
            Sample.hash_fields Sample.log_oracle Sample.message_nullifier
            2 2 2 2 2 2 2 2 2 (Sample.inputs false) 0
            [Tracker.Record (Tracker.NewNoteHash 11)]
            (tail (tail Sample.actions)) _ _ _ _).
  - intros t fs h c st dl. simpl. lia.
  - repeat constructor; discriminate.
  - vm_compute. reflexivity.
Defined.

(** With a nested private call that reports an inverted window the line is
    not kept: after a push stamped 5 and [end_setup] at 6, a callee reporting
    the window from 6 back to 3 makes the caller resume at 4, and the two
    pushes that follow are stamped 4 and 5, below the threshold. *)
Example end_setup_needs_ordered_windows :
  match
    for_each
      (Tracker.act Sample.inverted_simulator Sample.enqueuer Sample.key_store
         (fun _ => 1) (fun _ => 2) Sample.hash_fields Sample.hash_fields
         Sample.log_oracle Sample.message_nullifier)
      [Tracker.Record (Tracker.NewNoteHash 11); Tracker.EndSetup;
       Tracker.Nested (Tracker.Private Tracker.Plain 30 9 [1; 2]);
       Tracker.Record (Tracker.NewNullifier 12 0);
       Tracker.Record (Tracker.NewNullifier 13 0)]
      (Sample.context false)
  with
  | Ok self' =>
      Tracker.all_counters self' = [5; 4; 5] /\
      pi_min_revertible_side_effect_counter (Tracker.finish self') = 6
  | Err _ => False
  end.
Proof. vm_compute. repeat split. Qed.

(** The sample run stamps counters 5, 7 and 8 on its nullifier-free effects
    and 6 on the enqueued call; the nested private call occupies 9 to 11. *)
Example run_actions_counters :
  match Sample.run_actions with
  | Ok self' =>
      Tracker.all_counters self' = [5; 8; 7] /\
      Tracker.side_effect_counter self' = 12 /\
      Tracker.min_revertible_side_effect_counter self' = 6
  | Err _ => False
  end.
Proof. vm_compute. repeat split. Qed.

Lemma finish_arrays_zero_padded_witness :
  exists self',
    Sample.run_actions = Ok self' /\
    let pi := Tracker.finish self' in
    let rest {X} (v : BoundedVec X) := (length (storage v) - len v)%nat in
    pi_new_note_hashes pi
      = items (Tracker.new_note_hashes self')
        ++ replicate (rest (Tracker.new_note_hashes self')) ∅ /\
    pi_new_nullifiers pi
      = items (Tracker.new_nullifiers self')
        ++ replicate (rest (Tracker.new_nullifiers self')) ∅ /\
    pi_note_hash_read_requests pi
      = items (Tracker.note_hash_read_requests self')
        ++ replicate (rest (Tracker.note_hash_read_requests self')) ∅ /\
    pi_nullifier_read_requests pi
      = items (Tracker.nullifier_read_requests self')
        ++ replicate (rest (Tracker.nullifier_read_requests self')) ∅ /\
    pi_nullifier_key_validation_requests pi
      = items (Tracker.nullifier_key_validation_requests self')
        ++ replicate (rest (Tracker.nullifier_key_validation_requests self')) ∅ /\
    pi_private_call_stack_hashes pi
      = items (Tracker.private_call_stack_hashes self')
        ++ replicate (rest (Tracker.private_call_stack_hashes self')) ∅ /\
    pi_public_call_stack_hashes pi
      = items (Tracker.public_call_stack_hashes self')
        ++ replicate (rest (Tracker.public_call_stack_hashes self')) ∅ /\
    pi_new_l2_to_l1_msgs pi
      = items (Tracker.new_l2_to_l1_msgs self')
        ++ replicate (rest (Tracker.new_l2_to_l1_msgs self')) ∅ /\
    pi_encrypted_logs_hashes pi
      = items (Tracker.encrypted_logs_hashes self')
        ++ replicate (rest (Tracker.encrypted_logs_hashes self')) ∅ /\
    pi_unencrypted_logs_hashes pi
      = items (Tracker.unencrypted_logs_hashes self')
        ++ replicate (rest (Tracker.unencrypted_logs_hashes self')) ∅.
Proof.
  eexists. split; [vm_compute; reflexivity|].
  exact (finish_arrays_zero_padded Sample.simulator Sample.enqueuer
           Sample.key_store (fun _ => 1) (fun _ => 2) Sample.hash_fields
           Sample.hash_fields Sample.log_oracle Sample.message_nullifier
           2 2 2 2 2 2 2 2 2 (Sample.inputs false) 0 Sample.actions _
           ltac:(vm_compute; reflexivity)).
Defined.

(** ** Call context tracker: the setup phase *)

Section TrackerPhases.

Import Tracker.

Lemma record_all_keeps_threshold (es : list Effect)
    (self self' : PrivateContext) :
  record_all es self = Ok self' ->
  min_revertible_side_effect_counter self'
  = min_revertible_side_effect_counter self.
Proof.
  unfold record_all. revert self.
  induction es as [|e es IH]; simpl; intros self H.
  - by injection H as <-.
  - rstep H. rewrite (IH _ H).
    destruct e; simpl in Hstep; rstep Hstep;
      apply bump_counter_ok in Hstep; by subst.
Qed.

(** For effects pushed before and after one [end_setup], the stamps
    themselves: those before lie below the threshold, those after at or
    above. *)
Lemma end_setup_separates_pushes
    (before after : list Effect) (self s1 s2 : PrivateContext) :
  record_all before self = Ok s1 ->
  record_all after (end_setup s1) = Ok s2 ->
  let threshold := pi_min_revertible_side_effect_counter (finish s2) in
  threshold = side_effect_counter s1 /\
  exists cs1 cs2,
    stamps before self = Ok cs1 /\
    stamps after (end_setup s1) = Ok cs2 /\
    Forall (fun c => c < threshold) cs1 /\
    Forall (fun c => threshold <= c) cs2.
Proof.
  intros H1 H2. simpl.
  rewrite (record_all_keeps_threshold _ _ _ H2). simpl.
  split; [reflexivity|].
  exists (seqZ (side_effect_counter self) (Z.of_nat (length before))),
         (seqZ (side_effect_counter s1) (Z.of_nat (length after))).
  split; [by apply stamps_seqZ in H1|].
  split; [by apply stamps_seqZ in H2|].
  apply record_all_counter in H1. split; apply Forall_seqZ; lia.
Qed.

(** One effect goes through exactly when its sequence has a free slot and
    the counter can still be incremented; it then takes one slot of its
    kind. *)
Lemma record_iff (self : PrivateContext) (e : Effect) :
  (exists self', record self e = Ok self') <->
  (used (kind e) self < capacity (kind e) self)%nat /\
  side_effect_counter self + 1 <= u32_MAX.
Proof.
  split.
  - intros [self' H].
    destruct e; simpl in *; rstep H; apply push_ok in Hstep as (Hlt & _);
      unfold bump_counter in H; rstep H; apply u32_add_ok in Hstep as [_ Hc];
      simpl in Hc; auto.
  - intros [Hroom Hc].
    pose proof (record_succeeds self e Hc) as Hok.
    destruct (record self e) as [self'|] eqn:E; [eauto|].
    destruct e; simpl in *; by specialize (Hok Hroom).
Qed.

Lemma record_usage (self self' : PrivateContext) (e : Effect) (k : Kind) :
  record self e = Ok self' ->
  used k self' = (used k self + (if decide (kind e = k) then 1 else 0))%nat /\
  capacity k self' = capacity k self.
Proof.
  intros H.
  destruct e; simpl in H; rstep H; apply push_ok in Hstep as (_ & Hs & Hl);
    apply bump_counter_ok in H; subst self';
    destruct k; simpl; rewrite ?Hs, ?Hl, ?length_insert; split; lia.
Qed.

Lemma demand_cons (k : Kind) (e : Effect) (es : list Effect) :
  demand k (e :: es)
  = ((if decide (kind e = k) then 1 else 0) + demand k es)%nat.
Proof.
  unfold demand. destruct (decide (kind e = k)) as [Hk|Hk].
  - by rewrite filter_cons_True.
  - by rewrite filter_cons_False.
Qed.

(** X4.  A run of pushes of the five counted kinds (new note hash, new
    nullifier, note-hash read request, nullifier read request, encrypted
    log) goes through exactly when no kind asks for more slots than its
    sequence has left and the counter does not leave the 32-bit range: the
    capacities are hard limits. *)
Theorem record_all_capacity (es : list Effect) (self : PrivateContext) :
  (forall k, used k self <= capacity k self)%nat ->
  (exists self', record_all es self = Ok self') <->
  (forall k, used k self + demand k es <= capacity k self)%nat /\
  (es <> [] -> side_effect_counter self + Z.of_nat (length es) <= u32_MAX).
Proof.
  unfold record_all. revert self.
  induction es as [|e es IH]; intros self Hfit.
  - simpl. split; [|eauto]. intros _. split; [|done].
    intros k. unfold demand. simpl. specialize (Hfit k). lia.
  - simpl. split.
    + intros [self' H]. rstep H.
      assert (Hrec : exists s, record self e = Ok s) by eauto.
      apply record_iff in Hrec as [Hroom Hc].
      pose proof (record_step _ _ _ Hstep) as (Hcount & _).
      assert (Hfit' : forall k, (used k a <= capacity k a)%nat).
      { intros k. destruct (record_usage _ _ _ k Hstep) as [-> ->].
        specialize (Hfit k). destruct (decide (kind e = k)) as [<-|]; lia. }
      assert (Hrest : exists s, for_each record es a = Ok s) by eauto.
      apply (IH _ Hfit') in Hrest as [Hd Ho]. split.
      * intros k. specialize (Hd k).
        destruct (record_usage _ _ _ k Hstep) as [Hu Hcap].
        rewrite Hu, Hcap in Hd. rewrite demand_cons. lia.
      * intros _. destruct es as [|e' es']; [simpl; lia|].
        specialize (Ho ltac:(done)). rewrite Hcount in Ho.
        simpl length in *. lia.
    + intros [Hd Ho]. specialize (Ho ltac:(done)).
      assert (Hrec : exists s, record self e = Ok s).
      { apply record_iff. split.
        - specialize (Hd (kind e)). rewrite demand_cons in Hd.
          rewrite decide_True in Hd by done. lia.
        - simpl length in Ho. lia. }
      destruct Hrec as [s Hs]. rewrite Hs. simpl.
      pose proof (record_step _ _ _ Hs) as (Hcount & _).
      apply IH.
      * intros k. destruct (record_usage _ _ _ k Hs) as [-> ->].
        specialize (Hd k). rewrite demand_cons in Hd. lia.
      * split.
        -- intros k. destruct (record_usage _ _ _ k Hs) as [-> ->].
           specialize (Hd k). rewrite demand_cons in Hd. lia.
        -- intros _. rewrite Hcount. simpl length in Ho. lia.
Qed.

End TrackerPhases.

Lemma end_setup_separates_pushes_witness :
  exists s1 s2,
    Tracker.record_all Sample.effects (Sample.context false) = Ok s1 /\
    Tracker.record_all Sample.effects (Tracker.end_setup s1) = Ok s2 /\
    let threshold :=
      pi_min_revertible_side_effect_counter (Tracker.finish s2) in
    threshold = Tracker.side_effect_counter s1 /\
    exists cs1 cs2,
      Tracker.stamps Sample.effects (Sample.context false) = Ok cs1 /\
      Tracker.stamps Sample.effects (Tracker.end_setup s1) = Ok cs2 /\
      Forall (fun c => c < threshold) cs1 /\
      Forall (fun c => threshold <= c) cs2.
Proof.
  eexists. eexists. split; [vm_compute; reflexivity|].
  split; [vm_compute; reflexivity|].
  exact (end_setup_separates_pushes Sample.effects Sample.effects
           (Sample.context false) _ _
           ltac:(vm_compute; reflexivity) ltac:(vm_compute; reflexivity)).
Defined.

Lemma record_all_capacity_witness :
  (forall k, Tracker.used k (Sample.context false)
             <= Tracker.capacity k (Sample.context false))%nat /\
  ((exists self',
      Tracker.record_all Sample.effects (Sample.context false) = Ok self') <->
   (forall k, Tracker.used k (Sample.context false)
              + Tracker.demand k Sample.effects
              <= Tracker.capacity k (Sample.context false))%nat /\
   (Sample.effects <> [] ->
    Tracker.side_effect_counter (Sample.context false)
    + Z.of_nat (length Sample.effects) <= u32_MAX)).
Proof.
  assert (Hfit : forall k, (Tracker.used k (Sample.context false)
                            <= Tracker.capacity k (Sample.context false))%nat)
    by (intros []; vm_compute; lia).
  split; [exact Hfit|].
  exact (record_all_capacity Sample.effects (Sample.context false) Hfit).
Defined.

(** A third note hash does not fit in a sequence of two slots. *)
Example record_all_over_capacity :
  Tracker.record_all
    [Tracker.NewNoteHash 1; Tracker.NewNoteHash 2; Tracker.NewNoteHash 3]
    (Sample.context false)
  = Err "push out of bounds".
Proof. reflexivity. Qed.

(** ** Call-stack validator: caller and callee together *)

Lemma for_each_checks_iff {X} (check : X -> result unit) (xs : list X) :
  for_each (fun (_ : unit) x => check x) xs tt = Ok tt <->
  Forall (fun x => check x = Ok tt) xs.
Proof.
  split; [apply for_each_checks_ok|].
  induction 1 as [|x xs Hx _ IH]; simpl; [reflexivity|].
  rewrite Hx. exact IH.
Qed.

(** What [validate_call_requests] has checked on a slot with a hash. *)
Lemma validate_call_requests_slot
    (call_requests : list CallRequest) (hashes : list Field)
    (private_call : Validator.PrivateCallData) (i : nat) :
  Validator.validate_call_requests call_requests hashes private_call = Ok tt ->
  (i < length hashes)%nat -> nth i hashes ∅ <> 0 ->
  cr_hash (nth i call_requests ∅) = nth i hashes ∅ /\
  Validator.is_valid_caller (nth i call_requests ∅) private_call = true.
Proof.
  unfold Validator.validate_call_requests. intros H Hi Hne.
  apply for_each_checks_ok in H. rewrite Forall_forall in H.
  specialize (H i). cbv beta in H.
  assert (Hin : i ∈ seq 0 (length hashes)) by (apply elem_of_seq; lia).
  specialize (H Hin). rewrite bool_decide_eq_false_2 in H by done.
  simpl in H. rstep H. apply assert_ok in H.
  by apply bool_decide_eq_true in Hstep.
Qed.

Section CallAuthentication.

Variable item_hash : PrivateCallStackItem -> Field.

(** X5.  Take a request that a parent call declares in a slot with a non-zero
    hash and that its kernel check accepted, and a child call that the kernel
    accepted against this request.  Then the child is the call whose hash the
    parent declared, and its context is tied to the parent: a delegate child
    runs with the parent's [msg_sender] and storage address, on code that is
    not at that storage address; an ordinary child has the parent's contract
    address as [msg_sender] and its own address as storage address. *)
Theorem nested_call_authenticated
    (parent child : Validator.PrivateCallData)
    (call_requests : list CallRequest) (hashes : list Field) (i : nat) :
  Validator.validate_call_requests call_requests hashes parent = Ok tt ->
  (i < length hashes)%nat -> nth i hashes ∅ <> 0 ->
  Validator.validate_call_against_request item_hash child
    (nth i call_requests ∅) = Ok tt ->
  let P := pi_call_context (public_inputs (Validator.call_stack_item parent)) in
  let C := pi_call_context (public_inputs (Validator.call_stack_item child)) in
  item_hash (Validator.call_stack_item child) = nth i hashes ∅ /\
  if is_delegate_call C then
    msg_sender C = msg_sender P /\
    storage_contract_address C = storage_contract_address P /\
    item_contract_address (Validator.call_stack_item child)
      <> storage_contract_address C
  else
    msg_sender C = item_contract_address (Validator.call_stack_item parent) /\
    storage_contract_address C
      = item_contract_address (Validator.call_stack_item child).
Proof.
  intros Hp Hi Hne Hc. simpl.
  destruct (validate_call_requests_slot _ _ _ _ Hp Hi Hne) as [Hh Hv].
  unfold Validator.is_valid_caller in Hv.
  apply andb_true_iff in Hv as [Hv1 Hv2]. apply bool_decide_eq_true in Hv1.
  unfold Validator.validate_call_against_request in Hc.
  rstep Hc. apply bool_decide_eq_true in Hstep.
  split; [congruence|].
  destruct (is_delegate_call _).
  - repeat rstep Hc. apply assert_ok in Hc.
    apply negb_true_iff in Hstep0. rewrite Hstep0 in Hv2. simpl in Hv2.
    apply andb_true_iff in Hv2 as [Hs Ht].
    apply bool_decide_eq_true in Hs, Ht, Hstep1, Hstep2.
    apply negb_true_iff, bool_decide_eq_false in Hc.
    repeat split; [congruence|congruence|done].
  - rstep Hc. apply assert_ok in Hc.
    apply bool_decide_eq_true in Hstep0, Hc. split; congruence.
Qed.

End CallAuthentication.

Lemma nested_call_authenticated_witness :
  let request := mkCallRequest 7 20 (mkCallerContext 10 20) 4 5 in
  let parent :=
    Validator.mkPrivateCallData
      (Sample.item 20
         (Sample.app_inputs (mkCallContext 10 20 9 false false 3) [] [] []
            [7; 0] [0; 0] 3 6 4 4))
      [request; ∅] [∅; ∅] in
  let child :=
    Validator.mkPrivateCallData
      (Sample.item 30
         (Sample.app_inputs (mkCallContext 10 20 9 true false 4) [] [] []
            [] [] 4 5 4 4)) [] [] in
  Validator.validate_call_requests [request; ∅] [7; 0] parent = Ok tt /\
  Validator.validate_call_against_request (fun _ => 7) child request = Ok tt /\
  ((7 : Field) = 7 /\
   ((10 : Field) = 10 /\ (20 : Field) = 20 /\ (30 : Field) <> 20)).
Proof.
  intros request parent child.
  split; [reflexivity|]. split; [reflexivity|].
  refine (nested_call_authenticated (fun _ => 7) parent child
            [request; ∅] [7; 0] 0%nat _ _ _ _);
    [reflexivity | simpl; lia | discriminate | reflexivity].
Defined.

(** ** Call-stack validator: read requests *)

(** X6.  The read requests pass exactly when every request that has a value
    and is not marked transient is a member of the historical note-hash tree;
    a request without value, or a transient one, is never looked up. *)
Theorem validate_note_hash_read_requests_iff
    (check_membership : Field -> Field -> list Field -> Field -> bool)
    (root : Field) (read_requests : list SideEffect)
    (witnesses : list Validator.NoteHashReadRequestMembershipWitness) :
  Validator.validate_note_hash_read_requests check_membership root
    read_requests witnesses = Ok tt <->
  forall i : nat, (i < length read_requests)%nat ->
    let request := se_value (nth i read_requests ∅) in
    let witness := nth i witnesses ∅ in
    request <> 0 -> Validator.is_transient witness = false ->
    check_membership request (Validator.leaf_index witness)
      (Validator.sibling_path witness) root = true.
Proof.
  unfold Validator.validate_note_hash_read_requests. cbv zeta.
  rewrite for_each_checks_iff, Forall_forall. split.
  - intros H i Hi Hne Ht.
    specialize (H i). cbv beta in H.
    assert (Hin : i ∈ seq 0 (length read_requests))
      by (apply elem_of_seq; lia).
    specialize (H Hin).
    rewrite bool_decide_eq_false_2, Ht in H by done. simpl in H.
    by apply assert_ok in H.
  - intros H i Hin. apply elem_of_seq in Hin as [_ Hi]. simpl in Hi.
    specialize (H i Hi).
    destruct (decide (se_value (nth i read_requests ∅) = 0)) as [Hz|Hnz].
    + by rewrite bool_decide_eq_true_2.
    + rewrite bool_decide_eq_false_2 by done. simpl.
      destruct (Validator.is_transient (nth i witnesses ∅)) eqn:Ht;
        [reflexivity|]. simpl. by rewrite H.
Qed.

(** ** Accumulated data: metered gas *)

Section MeterLoop.

Import Builder.

Context {T : Type} `{Empty T, EqDecision T}.
Variable cost : Z.

Lemma meter_fields_ok (array : list T) (b0 b : Z) :
  meter_fields cost array b0 = Ok b -> b = b0 + cost * billable array.
Proof.
  unfold meter_fields. revert b0.
  induction array as [|x xs IH]; simpl; intros b0 Hrun.
  - injection Hrun as <-. unfold billable. simpl. lia.
  - rstep Hrun. apply charge_ok in Hstep as ->. apply IH in Hrun.
    rewrite billable_cons. lia.
Qed.

Lemma meter_fields_total (array : list T) (b0 : Z) :
  0 <= cost -> b0 + cost * billable array <= u32_MAX ->
  exists b, meter_fields cost array b0 = Ok b.
Proof.
  unfold meter_fields. intros Hc. revert b0.
  induction array as [|x xs IH]; simpl; intros b0 Hb; [eauto|].
  rewrite billable_cons in Hb. pose proof (billable_nonneg xs).
  unfold charge, u32_add. destruct (is_empty x); simpl.
  - apply IH. lia.
  - destruct (Z.leb_spec (b0 + cost) u32_MAX); [|nia]. simpl.
    apply IH. lia.
Qed.

Lemma meter_fields_bound (array : list T) (b0 b : Z) :
  b0 <= u32_MAX -> meter_fields cost array b0 = Ok b -> b <= u32_MAX.
Proof.
  unfold meter_fields. revert b0.
  induction array as [|x xs IH]; simpl; intros b0 Hb Hrun.
  - by injection Hrun as <-.
  - rstep Hrun. apply (IH a); [|exact Hrun].
    unfold charge in Hstep. destruct (is_empty x); simpl in Hstep.
    + by injection Hstep as <-.
    + by apply u32_add_ok in Hstep as [-> ?].
Qed.

(** Filling an empty slot with a non-empty entry adds one billable entry. *)
Lemma billable_push (v v' : BoundedVec T) (e : T) :
  is_padded v -> push v e = Ok v' -> e <> ∅ ->
  billable (storage v') = billable (storage v) + 1.
Proof.
  intros Hv Hp He. rewrite Hv in Hp |- *.
  apply push_padded_ok in Hp as [Hk ->]. simpl.
  set (l := items v). set (k := (length (storage v) - len v)%nat) in *.
  destruct k as [|k]; [lia|]. simpl. replace (k - 0)%nat with k by lia.
  unfold billable. rewrite <- (assoc_L (++)). rewrite !filter_app. simpl.
  rewrite (filter_cons_True (fun y => y <> ∅) e) by done.
  rewrite (filter_cons_False (fun y => y <> ∅) ∅) by auto.
  rewrite !length_app. simpl. lia.
Qed.

End MeterLoop.

Section MeteredGas.

Import Builder.

Variables
  (MAX_NEW_NOTE_HASHES_PER_TX
   MAX_NEW_NULLIFIERS_PER_TX
   MAX_NEW_L2_TO_L1_MSGS_PER_TX
   MAX_PUBLIC_CALL_STACK_LENGTH_PER_TX
   MAX_ENCRYPTED_LOGS_PER_TX
   MAX_UNENCRYPTED_LOGS_PER_TX : nat).
Variables (DA_BYTES_PER_FIELD DA_GAS_PER_BYTE FIXED_DA_GAS FIXED_L2_GAS : Z).
Variable MAX_PUBLIC_DATA_UPDATE_REQUESTS_PER_TX : nat.
Variable compute_tx_logs_hash : list SideEffect -> Field.

Local Abbreviation to_metered_gas_used :=
  (Builder.to_metered_gas_used DA_BYTES_PER_FIELD DA_GAS_PER_BYTE).
Local Abbreviation to_combined :=
  (Builder.to_combined DA_BYTES_PER_FIELD DA_GAS_PER_BYTE FIXED_DA_GAS
     FIXED_L2_GAS MAX_PUBLIC_DATA_UPDATE_REQUESTS_PER_TX compute_tx_logs_hash).
Local Abbreviation split_to_public :=
  (Builder.split_to_public MAX_NEW_NOTE_HASHES_PER_TX
     MAX_NEW_NULLIFIERS_PER_TX MAX_NEW_L2_TO_L1_MSGS_PER_TX
     MAX_PUBLIC_CALL_STACK_LENGTH_PER_TX MAX_ENCRYPTED_LOGS_PER_TX
     MAX_UNENCRYPTED_LOGS_PER_TX DA_BYTES_PER_FIELD DA_GAS_PER_BYTE
     FIXED_DA_GAS FIXED_L2_GAS).

(** The bytes that [to_metered_gas_used] counts. *)
Local Abbreviation metered_bytes self :=
  (DA_BYTES_PER_FIELD
     * (billable (storage (new_note_hashes self))
        + billable (storage (new_nullifiers self))
        + billable (storage (new_l2_to_l1_msgs self)))
   + as_u32 (encrypted_log_preimages_length self)
   + as_u32 (unencrypted_log_preimages_length self)).

Lemma as_u32_nonneg (x : Field) : 0 <= as_u32 x.
Proof. unfold as_u32. pose proof (Z.mod_pos_bound x (2 ^ 32)). lia. Qed.

Lemma to_metered_gas_used_ok (self : PrivateAccumulatedDataBuilder) (g : Gas) :
  to_metered_gas_used self = Ok g ->
  g = mkGas (DA_GAS_PER_BYTE * metered_bytes self) 0 /\
  metered_bytes self <= u32_MAX /\
  DA_GAS_PER_BYTE * metered_bytes self <= u32_MAX.
Proof.
  unfold Builder.to_metered_gas_used. intros H.
  rstep H. rstep H. rstep H. rstep H. rstep H. rstep H. injection H as <-.
  pose proof Hstep1 as Hb.
  apply meter_fields_bound in Hb.
  2:{ apply meter_fields_bound in Hstep0; [done|].
      apply meter_fields_bound in Hstep; [done|]. unfold u32_MAX. lia. }
  apply meter_fields_ok in Hstep, Hstep0, Hstep1.
  apply u32_add_ok in Hstep2 as [-> ?], Hstep3 as [-> ?].
  apply u32_mul_ok in Hstep4 as [-> ?]. subst.
  replace (metered_bytes self)
    with (0 + DA_BYTES_PER_FIELD * billable (storage (new_note_hashes self))
          + DA_BYTES_PER_FIELD * billable (storage (new_nullifiers self))
          + DA_BYTES_PER_FIELD * billable (storage (new_l2_to_l1_msgs self))
          + as_u32 (encrypted_log_preimages_length self)
          + as_u32 (unencrypted_log_preimages_length self)) by lia.
  auto.
Qed.

(** X7.  The gas metered for a private-only tail is all data-availability
    gas: [DA_GAS_PER_BYTE] for each of [DA_BYTES_PER_FIELD] bytes of every
    non-empty note hash, nullifier and L2-to-L1 message, and for every log
    byte.  The metering goes through exactly when the byte count and the gas
    fit in 32 bits. *)
Theorem to_metered_gas_used_closed_form
    (self : PrivateAccumulatedDataBuilder) :
  0 <= DA_BYTES_PER_FIELD -> 0 <= DA_GAS_PER_BYTE ->
  ((exists g, to_metered_gas_used self = Ok g) <->
   metered_bytes self <= u32_MAX /\
   DA_GAS_PER_BYTE * metered_bytes self <= u32_MAX) /\
  (forall g, to_metered_gas_used self = Ok g ->
     g = mkGas (DA_GAS_PER_BYTE * metered_bytes self) 0).
Proof.
  intros Hf Hb. split; [split|].
  - intros [g Hg]. by apply to_metered_gas_used_ok in Hg as (_ & ? & ?).
  - intros [Hbytes Hgas].
    pose proof (billable_nonneg (storage (new_note_hashes self))).
    pose proof (billable_nonneg (storage (new_nullifiers self))).
    pose proof (billable_nonneg (storage (new_l2_to_l1_msgs self))).
    pose proof (as_u32_nonneg (encrypted_log_preimages_length self)).
    pose proof (as_u32_nonneg (unencrypted_log_preimages_length self)).
    unfold Builder.to_metered_gas_used.
    destruct (meter_fields_total DA_BYTES_PER_FIELD
                (storage (new_note_hashes self)) 0 Hf) as [b1 Hm1]; [nia|].
    rewrite Hm1. simpl. apply meter_fields_ok in Hm1. subst b1.
    destruct (meter_fields_total DA_BYTES_PER_FIELD
                (storage (new_nullifiers self))
                (0 + DA_BYTES_PER_FIELD
                       * billable (storage (new_note_hashes self))) Hf)
      as [b2 Hm2]; [nia|].
    rewrite Hm2. simpl. apply meter_fields_ok in Hm2. subst b2.
    destruct (meter_fields_total DA_BYTES_PER_FIELD
                (storage (new_l2_to_l1_msgs self))
                (0 + DA_BYTES_PER_FIELD
                       * billable (storage (new_note_hashes self))
                 + DA_BYTES_PER_FIELD
                     * billable (storage (new_nullifiers self))) Hf)
      as [b3 Hm3]; [nia|].
    rewrite Hm3. simpl. apply meter_fields_ok in Hm3. subst b3.
    unfold u32_add, u32_mul.
    repeat match goal with
      | |- context [Z.leb ?a ?b] =>
          destruct (Z.leb_spec a b); [|nia]; simpl
      end.
    eauto.
  - intros g Hg. by apply to_metered_gas_used_ok in Hg as (? & _).
Qed.

(** X8.  One more non-empty note hash, nullifier or message costs the gas of
    one field more: metered gas never goes down when an effect is added. *)
Theorem metered_gas_grows_with_effects
    (self self' : PrivateAccumulatedDataBuilder) (g g' : Gas) :
  0 <= DA_BYTES_PER_FIELD -> 0 <= DA_GAS_PER_BYTE ->
  one_more_effect self self' ->
  to_metered_gas_used self = Ok g ->
  to_metered_gas_used self' = Ok g' ->
  da_gas g' = da_gas g + DA_GAS_PER_BYTE * DA_BYTES_PER_FIELD /\
  da_gas g <= da_gas g' /\ l2_gas g' = l2_gas g.
Proof.
  intros Hf Hb Hmore Hg Hg'.
  apply to_metered_gas_used_ok in Hg as (-> & _).
  apply to_metered_gas_used_ok in Hg' as (-> & _).
  destruct Hmore as [self n v Hn Hp Hpush|self n v Hn Hp Hpush
                    |self m v Hm Hp Hpush]; simpl;
    rewrite (billable_push _ _ _ Hp Hpush) by done;
    (split; [lia|]); (split; [nia|reflexivity]).
Qed.

Lemma billable_halves {X U : Type} `{Empty U, EqDecision U}
    (f : X -> U) (c : X -> Z) (threshold : Z) (l : list X) :
  billable (f <$> non_revertible_part c threshold l)
  + billable (f <$> revertible_part c threshold l)
  = billable (f <$> l).
Proof.
  unfold non_revertible_part, revertible_part.
  induction l as [|x l IH]; [reflexivity|].
  destruct (decide (c x < threshold)) as [Hlt|Hge].
  - rewrite (filter_cons_True (fun x => c x < threshold) _ _ Hlt).
    rewrite filter_cons_False by lia.
    rewrite !fmap_cons, !billable_cons. lia.
  - rewrite (filter_cons_False (fun x => c x < threshold) _ _ Hge).
    rewrite filter_cons_True by lia.
    rewrite !fmap_cons, !billable_cons. lia.
Qed.

(** The gas of the two halves that [split_to_public] returns. *)
Lemma split_to_public_gas
    (self : PrivateAccumulatedDataBuilder) (threshold : Z)
    (teardown_gas : Gas) (non_revertible revertible : PublicAccumulatedData) :
  split_to_public self threshold teardown_gas
    = Ok (non_revertible, revertible) ->
  let cost := DA_BYTES_PER_FIELD * DA_GAS_PER_BYTE in
  let note_hashes := storage (new_note_hashes self) in
  let nullifiers := storage (new_nullifiers self) in
  pub_gas_used revertible
    = mkGas
        (da_gas teardown_gas
         + (cost
              * (billable
                   (expose_to_public
                      <$> revertible_part nh_counter threshold note_hashes)
                 + billable (revertible_part nf_counter threshold nullifiers))
            + DA_GAS_PER_BYTE
                * (as_u32 (encrypted_log_preimages_length self)
                   + as_u32 (unencrypted_log_preimages_length self))))
        (l2_gas teardown_gas) /\
  pub_gas_used non_revertible
    = mkGas
        (FIXED_DA_GAS
         + cost
             * (billable
                  (expose_to_public
                     <$> non_revertible_part nh_counter threshold note_hashes)
                + billable (non_revertible_part nf_counter threshold nullifiers)))
        FIXED_L2_GAS.
Proof.
  unfold Builder.split_to_public, Gas_add. intros Hrun. simpl.
  repeat match goal with
    | H : rbind _ _ = Ok _ |- _ => rstep H; simpl in H
    | H : u32_mul _ _ = Ok _ |- _ => apply u32_mul_ok in H as [-> _]
    | H : u32_add _ _ = Ok _ |- _ => apply u32_add_ok in H as [-> _]
    | H : for_each (split_metered_step _ _ _ _) _ _ = Ok ?st |- _ =>
        rewrite !BoundedVec_new_padded in H;
        apply split_metered_loop in H; simpl in H; subst st; simpl in *
    | H : for_each (split_plain_step _ _) _ _ = Ok ?st |- _ =>
        rewrite !BoundedVec_new_padded in H;
        apply split_plain_loop in H; simpl in H; subst st; simpl in *
    | H : Ok _ = Ok ?g |- _ => is_var g; injection H as <-
    end.
  injection Hrun as <- <-. simpl. rewrite !list_fmap_id.
  split; f_equal; lia.
Qed.

(** X9.  The two tails meter the same effects differently.  The gas that
    [to_combined] reports is the gas of the two halves of [split_to_public]
    together, plus the cost of one field for every non-empty L2-to-L1 message
    and for every note hash that is not empty but has value zero: the split
    charges for neither.  The execution gas of both is the overhead plus the
    teardown gas. *)
Theorem combined_gas_against_split_gas
    (self : PrivateAccumulatedDataBuilder) (threshold : Z)
    (teardown_gas : Gas) (combined : CombinedAccumulatedData)
    (non_revertible revertible : PublicAccumulatedData) :
  to_combined self teardown_gas = Ok combined ->
  split_to_public self threshold teardown_gas
    = Ok (non_revertible, revertible) ->
  let note_hashes := storage (new_note_hashes self) in
  da_gas (cad_gas_used combined)
  = da_gas (pub_gas_used non_revertible) + da_gas (pub_gas_used revertible)
    + DA_BYTES_PER_FIELD * DA_GAS_PER_BYTE
        * (billable (storage (new_l2_to_l1_msgs self))
           + (billable note_hashes
              - billable (expose_to_public <$> note_hashes))) /\
  l2_gas (cad_gas_used combined)
  = l2_gas (pub_gas_used non_revertible) + l2_gas (pub_gas_used revertible).
Proof.
  intros Hc Hs. simpl.
  apply split_to_public_gas in Hs as [-> ->]. simpl.
  unfold Builder.to_combined, Gas_add in Hc.
  rstep Hc. apply to_metered_gas_used_ok in Hstep as (-> & _).
  repeat match goal with
    | H : rbind _ _ = Ok _ |- _ => rstep H; simpl in H
    | H : u32_add _ _ = Ok _ |- _ => apply u32_add_ok in H as [-> _]
    | H : Ok _ = Ok ?g |- _ => is_var g; injection H as <-
    end.
  simpl.
  pose proof (billable_halves expose_to_public nh_counter threshold
                (storage (new_note_hashes self))).
  pose proof (billable_halves (fun n : Nullifier => n) nf_counter threshold
                (storage (new_nullifiers self))) as Hn.
  rewrite !list_fmap_id in Hn.
  split; nia.
Qed.

End MeteredGas.

Lemma to_metered_gas_used_closed_form_witness :
  let bytes :=
    32 * (Builder.billable (storage (Builder.new_note_hashes Sample.accumulated))
          + Builder.billable
              (storage (Builder.new_nullifiers Sample.accumulated))
          + Builder.billable
              (storage (Builder.new_l2_to_l1_msgs Sample.accumulated)))
    + as_u32 0 + as_u32 0 in
  0 <= 32 /\ 0 <= 16 /\
  (((exists g, Builder.to_metered_gas_used 32 16 Sample.accumulated = Ok g) <->
    bytes <= u32_MAX /\ 16 * bytes <= u32_MAX) /\
   (forall g, Builder.to_metered_gas_used 32 16 Sample.accumulated = Ok g ->
      g = mkGas (16 * bytes) 0)).
Proof.
  intros bytes. split; [lia|]. split; [lia|].
  apply (to_metered_gas_used_closed_form 32 16 Sample.accumulated); lia.
Defined.

Lemma metered_gas_grows_with_effects_witness :
  Builder.one_more_effect Sample.accumulated Sample.accumulated_more /\
  Builder.to_metered_gas_used 32 16 Sample.accumulated = Ok (mkGas 4096 0) /\
  Builder.to_metered_gas_used 32 16 Sample.accumulated_more
    = Ok (mkGas 4608 0) /\
  (4608 = 4096 + 16 * 32 /\ 4096 <= 4608 /\ (0 : Z) = 0).
Proof.
  assert (Hmore : Builder.one_more_effect Sample.accumulated
                    Sample.accumulated_more).
  { refine (Builder.more_note_hash Sample.accumulated
              (mkNoteHashContext 5 12 0) _ _ _ _);
      [discriminate | vm_compute; reflexivity | vm_compute; reflexivity]. }
  split; [exact Hmore|]. split; [vm_compute; reflexivity|].
  split; [vm_compute; reflexivity|].
  refine (metered_gas_grows_with_effects 32 16 Sample.accumulated
            Sample.accumulated_more (mkGas 4096 0) (mkGas 4608 0)
            _ _ Hmore _ _);
    [lia | lia | vm_compute; reflexivity | vm_compute; reflexivity].
Defined.

Lemma combined_gas_against_split_gas_witness :
  exists combined non_revertible revertible,
    Builder.to_combined 32 16 512 512 2 (fun _ => 0) Sample.accumulated
      (mkGas 42 17) = Ok combined /\
    Sample.split_accumulated = Ok (non_revertible, revertible) /\
    let note_hashes := storage (Builder.new_note_hashes Sample.accumulated) in
    da_gas (Builder.cad_gas_used combined)
    = da_gas (Builder.pub_gas_used non_revertible)
      + da_gas (Builder.pub_gas_used revertible)
      + 32 * 16
          * (Builder.billable
               (storage (Builder.new_l2_to_l1_msgs Sample.accumulated))
             + (Builder.billable note_hashes
                - Builder.billable (expose_to_public <$> note_hashes))) /\
    l2_gas (Builder.cad_gas_used combined)
    = l2_gas (Builder.pub_gas_used non_revertible)
      + l2_gas (Builder.pub_gas_used revertible).
Proof.
  eexists. eexists. eexists. split; [vm_compute; reflexivity|].
  split; [vm_compute; reflexivity|].
  exact (combined_gas_against_split_gas 6 6 2 3 2 2 32 16 512 512 2
           (fun _ => 0) Sample.accumulated 7 (mkGas 42 17) _ _ _
           ltac:(vm_compute; reflexivity) ltac:(vm_compute; reflexivity)).
Defined.

(** ** Kernel composer: what a tail accepts and what it returns *)

Section ComposerOutcome.

Import Composer.

Variable verify_squashed_transient_note_hashes_and_nullifiers :
  list NoteHashContext -> list Nullifier ->
  list NoteHashContext -> list Nullifier -> list Z -> list Z -> result unit.
Variable assert_sorted_array :
  forall T, list T -> list T -> list Z -> (T -> T -> bool) -> result unit.
Variable compute_note_hash_nonce : Field -> nat -> Field.
Variable compute_unique_siloed_note_hash : Field -> Field -> Field.

Local Abbreviation silo_note_hashes :=
  (Composer.silo_note_hashes compute_note_hash_nonce
     compute_unique_siloed_note_hash).
Local Abbreviation siloed_note_hash :=
  (Composer.siloed_note_hash compute_note_hash_nonce
     compute_unique_siloed_note_hash).
Local Abbreviation compose :=
  (Composer.compose verify_squashed_transient_note_hashes_and_nullifiers
     assert_sorted_array compute_note_hash_nonce
     compute_unique_siloed_note_hash).
Local Abbreviation compose_public :=
  (Composer.compose_public verify_squashed_transient_note_hashes_and_nullifiers
     assert_sorted_array compute_note_hash_nonce
     compute_unique_siloed_note_hash).
Local Abbreviation tail_checks :=
  (Composer.tail_checks verify_squashed_transient_note_hashes_and_nullifiers
     assert_sorted_array).
Local Abbreviation composed_end :=
  (Composer.composed_end compute_note_hash_nonce
     compute_unique_siloed_note_hash).
Local Abbreviation composed :=
  (Composer.composed compute_note_hash_nonce
     compute_unique_siloed_note_hash).
Local Abbreviation out_note_hashes self :=
  (storage (Builder.new_note_hashes (b_end (public_inputs self)))).
Local Abbreviation out_nullifiers self :=
  (storage (Builder.new_nullifiers (b_end (public_inputs self)))).

(** The silo step as one equation. *)
Lemma silo_note_hashes_eq (self : KernelCircuitPublicInputsComposer) :
  silo_note_hashes self
  = if bool_decide (nf_value (nth 0 (out_nullifiers self) ∅) = 0)
    then Err "The 0th nullifier in the accumulated nullifier array is zero"
    else Ok (with_note_hash_storage self
               (imap (siloed_note_hash
                        (nf_value (nth 0 (out_nullifiers self) ∅)))
                  (out_note_hashes self))).
Proof.
  unfold Composer.silo_note_hashes, get_unchecked.
  destruct (bool_decide _); simpl; [reflexivity|].
  set (first := nth 0 (out_nullifiers self) ∅).
  set (orig := out_note_hashes self).
  destruct (silo_loop compute_note_hash_nonce compute_unique_siloed_note_hash
              first orig (length orig) 0 self orig)
    as (l' & Hrun & Hin & Hout); [done|].
  rewrite with_note_hash_storage_id in Hrun. rewrite Hrun. do 2 f_equal.
  apply list_eq. intros j. rewrite list_lookup_imap.
  destruct (decide (j < length orig)%nat) as [Hj|Hj].
  - apply Hin. lia.
  - rewrite Hout by lia. by rewrite lookup_ge_None_2 by lia.
Qed.

Lemma checks_all_zero {T} (f : T -> Z) (d : T) (msg : string) (l : list T) :
  for_each
    (fun (_ : unit) (i : nat) => assert (bool_decide (f (nth i l d) = 0)) msg)
    (seq 0 (length l)) tt = Ok tt <->
  Forall (fun n => f n = 0) l.
Proof.
  rewrite for_each_checks_iff. rewrite <- (Forall_indices _ d).
  apply Forall_proper; [|done]. intros i. split.
  - intros H. apply assert_ok in H. by apply bool_decide_eq_true in H.
  - intros H. by rewrite bool_decide_eq_true_2.
Qed.

Lemma compose_eq (self self' : KernelCircuitPublicInputsComposer) :
  compose self = Ok self' <-> tail_checks self /\ self' = composed self.
Proof.
  unfold Composer.compose, silo_values, Composer.tail_checks.
  split.
  - intros H. rstep H. apply Nat.eqb_eq in Hstep.
    rstep H. rstep H. rstep H. injection H as <-.
    unfold propagate_sorted_arrays in Hstep0. simpl in Hstep0.
    repeat rstep Hstep0. injection Hstep0 as <-.
    repeat match goal with u : unit |- _ => destruct u end.
    unfold Composer.squash_transient_data in Hstep1. simpl in Hstep1.
    repeat rstep Hstep1. injection Hstep1 as <-.
    repeat match goal with u : unit |- _ => destruct u end.
    repeat match goal with
           | Hc : for_each _ (seq 0 (length _)) tt = Ok tt |- _ =>
               apply checks_all_zero in Hc
           end.
    match goal with
    | Hs : silo_note_hashes _ = Ok _ |- _ =>
        rewrite silo_note_hashes_eq in Hs; simpl in Hs;
        destruct (decide (nf_value (nth 0 (nullifiers self) ∅) = 0))
          as [Hz|Hnz];
        [by rewrite bool_decide_eq_true_2 in Hs
        |rewrite bool_decide_eq_false_2 in Hs by done; injection Hs as <-]
    end.
    by repeat split.
  - intros [(Hcs & H1 & H2 & H3 & H4 & Hv & Hn & Hf & Hz) ->].
    rewrite Hcs. simpl. unfold propagate_sorted_arrays. simpl.
    rewrite H1, H2, H3, H4. simpl.
    unfold Composer.squash_transient_data. cbn -[for_each]. rewrite Hv.
    match goal with
    | |- context [for_each ?body (seq 0 (length (note_hashes self))) tt] =>
        assert (for_each body (seq 0 (length (note_hashes self))) tt = Ok tt)
          as -> by (by apply (checks_all_zero nullifier_counter ∅))
    end.
    cbv beta iota delta [rbind].
    match goal with
    | |- context [for_each ?body (seq 0 (length (nullifiers self))) tt] =>
        assert (for_each body (seq 0 (length (nullifiers self))) tt = Ok tt)
          as -> by (by apply (checks_all_zero nf_note_hash ∅))
    end.
    fold (@rbind KernelCircuitPublicInputsComposer
            KernelCircuitPublicInputsComposer).
    rewrite silo_note_hashes_eq. simpl.
    by rewrite bool_decide_eq_false_2.
Qed.

(** X10. A tail is composed exactly when: the previous kernel has no private
    call left; each of the four sorted arrays passes [assert_sorted_array]
    against the previous kernel's array; the squash verification accepts the
    sorted arrays against the supplied final ones; no supplied note hash
    names a nullifier and no supplied nullifier names a note hash; and the
    first supplied nullifier has a value. *)
Theorem compose_accepts_iff (self : KernelCircuitPublicInputsComposer) :
  (exists self', compose self = Ok self') <->
  let previous := prev_end (previous_kernel self) in
  array_length (Builder.pad_private_call_stack previous) = 0%nat /\
  assert_sorted_array _ (Builder.pad_new_note_hashes previous)
    (sorted_note_hashes self) (sorted_note_hashes_indexes self)
    asc_sort_by_counters = Ok tt /\
  assert_sorted_array _ (Builder.pad_new_nullifiers previous)
    (sorted_nullifiers self) (sorted_nullifiers_indexes self)
    asc_sort_by_counters = Ok tt /\
  assert_sorted_array _ (Builder.pad_encrypted_logs_hashes previous)
    (sorted_encrypted_log_hashes self)
    (sorted_encrypted_log_hashes_indexes self) asc_sort_by_counters = Ok tt /\
  assert_sorted_array _ (Builder.pad_unencrypted_logs_hashes previous)
    (sorted_unencrypted_log_hashes self)
    (sorted_unencrypted_log_hashes_indexes self) asc_sort_by_counters
    = Ok tt /\
  verify_squashed_transient_note_hashes_and_nullifiers
    (sorted_note_hashes self) (sorted_nullifiers self)
    (note_hashes self) (nullifiers self)
    (transient_nullifier_indexes_for_note_hashes self)
    (transient_note_hash_indexes_for_nullifiers self) = Ok tt /\
  Forall (fun n => nullifier_counter n = 0) (note_hashes self) /\
  Forall (fun n => nf_note_hash n = 0) (nullifiers self) /\
  nf_value (nth 0 (nullifiers self) ∅) <> 0.
Proof.
  split.
  - intros [self' H]. apply compose_eq in H. exact (proj1 H).
  - intros H. exists (composed self). apply compose_eq. split; [exact H|done].
Qed.

(** X11. What a composed tail holds.  Its nullifiers are the supplied final
    ones.  Its note hashes are the supplied final ones position by position:
    an empty value stays empty, any other value [v] at position [i] becomes
    [compute_unique_siloed_note_hash (compute_note_hash_nonce first i) v]
    with [first] the value of the first supplied nullifier, which is not
    zero; counters are kept and no note hash names a nullifier.  Messages
    and log preimage lengths come from the previous kernel, log hashes from
    the sorted hints, constants and the maximum block number from the
    previous kernel; the hints themselves are left as they were. *)
Theorem compose_output (self self' : KernelCircuitPublicInputsComposer) :
  compose self = Ok self' ->
  let previous := previous_kernel self in
  let first := nf_value (nth 0 (nullifiers self) ∅) in
  let e := b_end (public_inputs self') in
  first <> 0 /\
  Builder.new_nullifiers e = array_to_bounded_vec (nullifiers self) /\
  len (Builder.new_note_hashes e) = array_length (note_hashes self) /\
  length (storage (Builder.new_note_hashes e)) = length (note_hashes self) /\
  (forall i n, note_hashes self !! i = Some n ->
     exists n', storage (Builder.new_note_hashes e) !! i = Some n' /\
       nh_counter n' = nh_counter n /\
       nullifier_counter n' = 0 /\
       (nh_value n = 0 -> nh_value n' = 0) /\
       (nh_value n <> 0 ->
          nh_value n'
          = compute_unique_siloed_note_hash
              (compute_note_hash_nonce first i) (nh_value n))) /\
  Builder.new_l2_to_l1_msgs e
  = array_to_bounded_vec (Builder.pad_new_l2_to_l1_msgs (prev_end previous)) /\
  Builder.encrypted_logs_hashes e
  = array_to_bounded_vec (sorted_encrypted_log_hashes self) /\
  Builder.unencrypted_logs_hashes e
  = array_to_bounded_vec (sorted_unencrypted_log_hashes self) /\
  Builder.encrypted_log_preimages_length e
  = Builder.pad_encrypted_log_preimages_length (prev_end previous) /\
  Builder.unencrypted_log_preimages_length e
  = Builder.pad_unencrypted_log_preimages_length (prev_end previous) /\
  b_constants (public_inputs self') = prev_constants previous /\
  b_max_block_number (public_inputs self') = prev_max_block_number previous /\
  set_public_inputs self' (public_inputs self) = self.
Proof.
  intros H. apply compose_eq in H as [Hc ->].
  destruct Hc as (_ & _ & _ & _ & _ & _ & Hn & _ & Hz).
  cbv zeta. simpl. repeat split; try done.
  - by rewrite length_imap.
  - intros i n Hi. rewrite list_lookup_imap, Hi. simpl.
    eexists. split; [reflexivity|].
    rewrite Forall_lookup in Hn. specialize (Hn i n Hi).
    unfold Composer.siloed_note_hash. case_bool_decide; simpl; by repeat split.
  - by destruct self.
Qed.

(** X12. A composer starts from empty public inputs.  From there [compose]
    returns a tail whose public call stack is empty, whatever the previous
    kernel holds, while [compose_public] returns the same tail with the
    previous kernel's public call stack put in; in both the private call
    stack is empty. *)
Theorem compose_public_call_stack
    (MAX_NEW_NOTE_HASHES_PER_TX MAX_NEW_NULLIFIERS_PER_TX
     MAX_NEW_L2_TO_L1_MSGS_PER_TX MAX_PRIVATE_CALL_STACK_LENGTH_PER_TX
     MAX_PUBLIC_CALL_STACK_LENGTH_PER_TX MAX_ENCRYPTED_LOGS_PER_TX
     MAX_UNENCRYPTED_LOGS_PER_TX : nat)
    (self c p : KernelCircuitPublicInputsComposer) :
  public_inputs self
  = empty_builder MAX_NEW_NOTE_HASHES_PER_TX MAX_NEW_NULLIFIERS_PER_TX
      MAX_NEW_L2_TO_L1_MSGS_PER_TX MAX_PRIVATE_CALL_STACK_LENGTH_PER_TX
      MAX_PUBLIC_CALL_STACK_LENGTH_PER_TX MAX_ENCRYPTED_LOGS_PER_TX
      MAX_UNENCRYPTED_LOGS_PER_TX ->
  compose self = Ok c ->
  compose_public self = Ok p ->
  Builder.public_call_stack (b_end (public_inputs c))
  = BoundedVec_new MAX_PUBLIC_CALL_STACK_LENGTH_PER_TX /\
  Builder.public_call_stack (b_end (public_inputs p))
  = array_to_bounded_vec
      (Builder.pad_public_call_stack (prev_end (previous_kernel self))) /\
  Builder.private_call_stack (b_end (public_inputs c))
  = BoundedVec_new MAX_PRIVATE_CALL_STACK_LENGTH_PER_TX /\
  Builder.private_call_stack (b_end (public_inputs p))
  = BoundedVec_new MAX_PRIVATE_CALL_STACK_LENGTH_PER_TX /\
  set_public_end p
    (end_with_public_call_stack (b_end (public_inputs p))
       (Builder.public_call_stack (b_end (public_inputs c)))) = c.
Proof.
  intros Hnew Hc Hp. unfold Composer.compose_public in Hp.
  rewrite Hc in Hp. simpl in Hp. injection Hp as <-.
  apply compose_eq in Hc as [_ ->].
  destruct self. simpl in *. subst.
  unfold Composer.composed, propagate_sorted_public_call_requests,
    set_public_end, set_public_inputs, set_end, end_with_public_call_stack.
  simpl. by repeat split.
Qed.

End ComposerOutcome.

Lemma compose_output_witness :
  exists self',
    Composer.compose Sample.accept_squash Sample.accept_sorted
      Sample.nonce Sample.unique_hash Sample.composer = Ok self' /\
    Builder.new_nullifiers (Composer.b_end (Composer.public_inputs self'))
    = array_to_bounded_vec (Composer.nullifiers Sample.composer).
Proof.
  eexists. split; [vm_compute; reflexivity|].
  exact (proj1 (proj2 (compose_output Sample.accept_squash
    Sample.accept_sorted Sample.nonce Sample.unique_hash Sample.composer _
    ltac:(vm_compute; reflexivity)))).
Defined.

Lemma compose_public_call_stack_witness :
  exists c p,
    Composer.compose Sample.accept_squash Sample.accept_sorted
      Sample.nonce Sample.unique_hash Sample.composer = Ok c /\
    Composer.compose_public Sample.accept_squash Sample.accept_sorted
      Sample.nonce Sample.unique_hash Sample.composer = Ok p /\
    Builder.public_call_stack (Composer.b_end (Composer.public_inputs c))
    = BoundedVec_new 2.
Proof.
  eexists. eexists.
  split; [vm_compute; reflexivity|]. split; [vm_compute; reflexivity|].
  exact (proj1 (compose_public_call_stack Sample.accept_squash
    Sample.accept_sorted Sample.nonce Sample.unique_hash 2 2 2 2 2 2 2
    Sample.composer _ _ ltac:(vm_compute; reflexivity)
    ltac:(vm_compute; reflexivity) ltac:(vm_compute; reflexivity))).
Defined.

(** ** Nested calls: the context's checks against the kernel's *)

Section CallChain.

Variable call_private_function_internal :
  AztecAddress -> FunctionSelector -> Field -> Z -> bool -> bool ->
  PrivateCallStackItem.
Variable item_hash : PrivateCallStackItem -> Field.

(** X13.  A context runs the call [parent] and makes an ordinary (not
    delegate) private call, for which the simulator hands back the item of
    [child]; the context accepts it.  The kernel accepts the requests that
    [parent] declares and accepts [child] against one of them.  Then
    [parent] runs on its own storage: its storage address is its contract
    address, which is also the child's [msg_sender].  Hence, if the kernel
    accepted [parent] itself against a request, [parent] is not a delegate
    call: a call that runs as a delegate cannot make an ordinary private call
    that passes both sets of checks. *)
Theorem ordinary_nested_call_runs_on_own_storage
    (self self' : Tracker.PrivateContext)
    (target : AztecAddress) (fs : FunctionSelector) (args_hash : Field)
    (is_static : bool) (ret : Tracker.PackedReturns)
    (parent child : Validator.PrivateCallData) (parent_request : CallRequest)
    (call_requests : list CallRequest) (hashes : list Field) (i : nat) :
  let P := pi_call_context (public_inputs (Validator.call_stack_item parent)) in
  let C := pi_call_context (public_inputs (Validator.call_stack_item child)) in
  Tracker.call_context (Tracker.inputs self) = P ->
  Tracker.call_private_function_with_packed_args
    call_private_function_internal item_hash self target fs args_hash
    is_static false = Ok (self', ret) ->
  call_private_function_internal target fs args_hash
    (Tracker.side_effect_counter self)
    (is_static || is_static_call (Tracker.call_context (Tracker.inputs self))) false
  = Validator.call_stack_item child ->
  Validator.validate_call_requests call_requests hashes parent = Ok tt ->
  (i < length hashes)%nat -> nth i hashes ∅ <> 0 ->
  Validator.validate_call_against_request item_hash child
    (nth i call_requests ∅) = Ok tt ->
  (storage_contract_address P
     = item_contract_address (Validator.call_stack_item parent) /\
   msg_sender C = item_contract_address (Validator.call_stack_item parent) /\
   item_contract_address (Validator.call_stack_item child) = target /\
   storage_contract_address C = target) /\
  (Validator.validate_call_against_request item_hash parent parent_request
     = Ok tt ->
   is_delegate_call P = false).
Proof.
  intros P C Hctx Hcall Hitem Hp Hi Hne Hc.
  unfold Tracker.call_private_function_with_packed_args in Hcall.
  rewrite Hitem in Hcall. repeat rstep Hcall.
  repeat match goal with
         | H : rbind _ _ = Ok _ |- _ => rstep H
         | H : assert _ _ = Ok _ |- _ => apply assert_ok in H
         | H : bool_decide _ = true |- _ => apply bool_decide_eq_true in H
         | H : eqb _ _ = true |- _ => apply eqb_prop in H
         end.
  simpl in *.
  destruct (validate_call_requests_slot _ _ _ _ Hp Hi Hne) as [_ Hv].
  unfold Validator.is_valid_caller in Hv.
  apply andb_true_iff in Hv as [Hv _]. apply bool_decide_eq_true in Hv.
  unfold Validator.validate_call_against_request in Hc.
  rstep Hc.
  match goal with
  | H : is_delegate_call _ = false |- _ => rewrite H in Hc
  end.
  rstep Hc. apply assert_ok in Hc.
  repeat match goal with
         | H : bool_decide _ = true |- _ => apply bool_decide_eq_true in H
         end.
  assert (storage_contract_address P
          = item_contract_address (Validator.call_stack_item parent)) as Hown
    by (subst P C; congruence).
  split.
  - repeat split; subst P C; congruence.
  - intros Hparent.
    unfold Validator.validate_call_against_request in Hparent.
    rstep Hparent. fold P in Hparent.
    destruct (is_delegate_call P); [|reflexivity].
    repeat rstep Hparent. apply assert_ok in Hparent.
    apply negb_true_iff, bool_decide_eq_false in Hparent.
    by symmetry in Hown.
Qed.

End CallChain.

Lemma ordinary_nested_call_runs_on_own_storage_witness :
  let sim := Sample.simulator in
  let self := Sample.context false in
  let parent :=
    Validator.mkPrivateCallData
      (Sample.item 20
         (Sample.app_inputs (mkCallContext 10 20 9 false false 5) [] [] []
            [7; 0] [0; 0] 5 8 4 4))
      [mkCallRequest 7 20 ∅ 5 7; ∅] [∅; ∅] in
  let child := Validator.mkPrivateCallData (sim 30 9 0 5 false false) [] [] in
  exists self',
    Tracker.call_private_function_with_packed_args sim (fun _ => 7) self
      30 9 0 false false = Ok (self', 0) /\
    Validator.validate_call_against_request (fun _ => 7) parent
      (mkCallRequest 7 10 ∅ 5 8) = Ok tt /\
    is_delegate_call
      (pi_call_context (public_inputs (Validator.call_stack_item parent)))
    = false.
Proof.
  intros sim self parent child.
  eexists. split; [vm_compute; reflexivity|].
  split; [vm_compute; reflexivity|].
  refine (proj2 (ordinary_nested_call_runs_on_own_storage sim (fun _ => 7)
            self _ 30 9 0 false 0 parent child (mkCallRequest 7 10 ∅ 5 8)
            [mkCallRequest 7 20 ∅ 5 7; ∅] [7; 0] 0%nat
            ltac:(vm_compute; reflexivity) ltac:(vm_compute; reflexivity)
            ltac:(vm_compute; reflexivity) ltac:(vm_compute; reflexivity)
            ltac:(simpl; lia) ltac:(discriminate)
            ltac:(vm_compute; reflexivity)) _).
  vm_compute; reflexivity.
Defined.

(** ** The ECDSA public key note: packing and unpacking *)

Section NoteProperties.

Import Note.
Variable NoteHeader : Type.
Context `{Empty NoteHeader}.

Lemma nth_byte (l : list Z) (i : nat) :
  Forall (fun b => 0 <= b < 256) l -> 0 <= nth i l 0 < 256.
Proof.
  intros Hl. rewrite nth_lookup. destruct (l !! i) as [b|] eqn:Hi; simpl.
  - exact (proj1 (Forall_lookup _ l) Hl i b Hi).
  - lia.
Qed.

Lemma pow256_S (k : nat) : 256 ^ Z.of_nat (S k) = 256 * 256 ^ Z.of_nat k.
Proof. rewrite Nat2Z.inj_succ, Z.pow_succ_r by lia. reflexivity. Qed.

Lemma pow256_pos (k : nat) : 0 < 256 ^ Z.of_nat k.
Proof. apply Z.pow_pos_nonneg; lia. Qed.

Lemma be_partial_bound (l : list Z) (k : nat) :
  Forall (fun b => 0 <= b < 256) l ->
  0 <= be_partial l k < 256 ^ Z.of_nat k.
Proof.
  intros Hl. induction k as [|k IH]; simpl be_partial; [simpl; lia|].
  rewrite pow256_S. pose proof (nth_byte l (30 - k) Hl).
  pose proof (pow256_pos k). nia.
Qed.

Lemma pow256_fits (k : nat) : (k <= 31)%nat -> 256 ^ Z.of_nat k < Fr_modulus.
Proof.
  intros Hk. apply Z.le_lt_trans with (256 ^ 31).
  - apply Z.pow_le_mono_r; lia.
  - reflexivity.
Qed.

Lemma serialize_loop (self : EcdsaPublicKeyNote NoteHeader) (k : nat) :
  (k <= 31)%nat ->
  Forall (fun b => 0 <= b < 256) (note_x self) ->
  Forall (fun b => 0 <= b < 256) (note_y self) ->
  fold_left (serialize_step self) (seq 1 k) (0, 0, 1)
  = (be_partial (note_x self) k, be_partial (note_y self) k,
     256 ^ Z.of_nat k).
Proof.
  intros Hk Hx Hy. induction k as [|k IH]; [reflexivity|].
  rewrite seq_S, fold_left_app, IH by lia. simpl fold_left.
  unfold serialize_step. simpl fst. simpl snd.
  replace (31 - (1 + k))%nat with (30 - k)%nat by lia.
  pose proof (be_partial_bound (note_x self) k Hx).
  pose proof (be_partial_bound (note_y self) k Hy).
  pose proof (nth_byte (note_x self) (30 - k) Hx).
  pose proof (nth_byte (note_y self) (30 - k) Hy).
  pose proof (pow256_pos k). pose proof (pow256_fits (S k) Hk) as Hfit.
  rewrite pow256_S in Hfit.
  unfold field_add, field_mul.
  rewrite (Z.mod_small (nth (30 - k) (note_x self) 0 * _)) by nia.
  rewrite (Z.mod_small (nth (30 - k) (note_y self) 0 * _)) by nia.
  rewrite (Z.mod_small (256 ^ Z.of_nat k * 256)) by nia.
  rewrite !Z.mod_small by nia.
  simpl be_partial. rewrite pow256_S. f_equal. lia.
Qed.

Lemma be_partial_digit (l : list Z) (k j : nat) :
  Forall (fun b => 0 <= b < 256) l -> (j < k)%nat ->
  (be_partial l k / 256 ^ Z.of_nat j) mod 256 = nth (30 - j) l 0.
Proof.
  intros Hl. induction k as [|k IH]; [lia|]. intros Hj. simpl be_partial.
  pose proof (pow256_pos j) as Hpj.
  destruct (decide (j = k)) as [->|Hne].
  - rewrite Z.div_add by lia.
    rewrite (Z.div_small (be_partial l k)) by (by apply be_partial_bound).
    rewrite Z.add_0_l. apply Z.mod_small, nth_byte, Hl.
  - replace (Z.of_nat k) with (Z.of_nat j + Z.of_nat (S (k - S j))) by lia.
    rewrite Z.pow_add_r, pow256_S by lia.
    replace (nth (30 - k) l 0 * (256 ^ Z.of_nat j
               * (256 * 256 ^ Z.of_nat (k - S j))))
      with (nth (30 - k) l 0 * 256 ^ Z.of_nat (k - S j) * 256
            * 256 ^ Z.of_nat j) by lia.
    rewrite Z.div_add by lia. rewrite Z.mod_add by lia. apply IH. lia.
Qed.

Lemma be_partial_digits (l : list Z) (v : Z) (k : nat) :
  (forall j, (j < k)%nat ->
     nth (30 - j) l 0 = (v / 256 ^ Z.of_nat j) mod 256) ->
  be_partial l k = v mod 256 ^ Z.of_nat k.
Proof.
  induction k as [|k IH]; intros Hd.
  - simpl. by rewrite Z.mod_1_r.
  - simpl be_partial. rewrite IH by (intros j Hj; apply Hd; lia).
    rewrite Hd by lia. rewrite pow256_S.
    rewrite (Z.mul_comm 256). pose proof (pow256_pos k).
    rewrite Z.rem_mul_r by lia. lia.
Qed.

(** What the copy loop and the last assignment leave in a 32-byte array. *)
Lemma copy_low_bytes_nth (part x : list Z) (last : Z) (j : nat) :
  length x = 32%nat -> (j < 32)%nat ->
  nth j (<[31%nat := last]> (copy_low_bytes part x)) 0
  = if decide (j = 31%nat) then last else nth (j + 1) part 0.
Proof.
  intros Hx Hj. unfold copy_low_bytes.
  assert (forall k l, length l = 32%nat -> (k <= 31)%nat ->
            length (fold_left
                      (fun (x : list Z) (i : nat) =>
                         <[i := nth (i + 1) part 0]> x) (seq 0 k) l)
            = 32%nat /\
            forall i, (i < k)%nat ->
              fold_left (fun (x : list Z) (i : nat) =>
                           <[i := nth (i + 1) part 0]> x) (seq 0 k) l !! i
              = Some (nth (i + 1) part 0)) as Hloop.
  { intros k l Hl. induction k as [|k IH]; intros Hk.
    - split; [done|lia].
    - rewrite seq_S, fold_left_app. simpl.
      destruct IH as [IHl IHi]; [lia|]. split.
      + by rewrite length_insert.
      + intros i Hi. destruct (decide (i = k)) as [->|Hne].
        * apply list_lookup_insert_eq. lia.
        * rewrite list_lookup_insert_ne by done. apply IHi. lia. }
  destruct (Hloop 31%nat x Hx ltac:(lia)) as [Hlen Hi].
  rewrite nth_lookup. case_decide as Hj31.
  - subst j. rewrite list_lookup_insert_eq by lia. reflexivity.
  - rewrite list_lookup_insert_ne by done. rewrite Hi by lia. reflexivity.
Qed.

Lemma copy_low_bytes_length (part x : list Z) (last : Z) :
  length (<[31%nat := last]> (copy_low_bytes part x)) = length x.
Proof.
  rewrite length_insert. unfold copy_low_bytes.
  generalize (seq 0 31). intros idx. revert x.
  induction idx as [|i idx IH]; intros x; [done|].
  simpl. by rewrite IH, length_insert.
Qed.

Lemma to_be_bytes_ok (v : Field) :
  0 <= v < Fr_modulus ->
  to_be_bytes v 32
  = Ok (map (fun i : nat => (v / 256 ^ Z.of_nat (32 - 1 - i)) mod 256)
          (seq 0 32)).
Proof.
  intros Hv. unfold to_be_bytes.
  assert ((v <? 256 ^ Z.of_nat 32) = true) as ->; [|reflexivity].
  apply Z.ltb_lt. eapply Z.lt_trans; [apply Hv|reflexivity].
Qed.

Lemma be_bytes_nth (v : Z) (j : nat) :
  (j < 32)%nat ->
  nth j (map (fun i : nat => (v / 256 ^ Z.of_nat (32 - 1 - i)) mod 256)
           (seq 0 32)) 0
  = (v / 256 ^ Z.of_nat (31 - j)) mod 256.
Proof.
  intros Hj. rewrite nth_lookup, list_lookup_fmap, lookup_seq_lt by done.
  cbn [fmap option_fmap option_map default Nat.add]. unfold id.
  do 3 f_equal.
Qed.

Lemma list_eq_nth (l1 l2 : list Z) :
  length l1 = length l2 ->
  (forall j, (j < length l1)%nat -> nth j l1 0 = nth j l2 0) -> l1 = l2.
Proof.
  intros Hl Hn. apply list_eq. intros j.
  destruct (decide (j < length l1)%nat) as [Hj|Hj].
  - specialize (Hn j Hj). rewrite !nth_lookup in Hn.
    destruct (lookup_lt_is_Some_2 l1 j Hj) as [a Ha].
    destruct (lookup_lt_is_Some_2 l2 j ltac:(lia)) as [b Hb].
    rewrite Ha, Hb in *. simpl in Hn. by subst.
  - by rewrite !lookup_ge_None_2 by lia.
Qed.

(** The bytes that [deserialize_content] reads out of [(packed, last)]. *)
Lemma unpacked_nth (packed last : Z) (j : nat) :
  (j < 32)%nat ->
  nth j
    (<[31%nat :=
        nth 31 (map (fun i : nat => (last / 256 ^ Z.of_nat (32 - 1 - i))
                                    mod 256) (seq 0 32)) 0]>
       (copy_low_bytes
          (map (fun i : nat => (packed / 256 ^ Z.of_nat (32 - 1 - i)) mod 256)
             (seq 0 32))
          (replicate 32 0))) 0
  = if decide (j = 31%nat) then last mod 256
    else (packed / 256 ^ Z.of_nat (30 - j)) mod 256.
Proof.
  intros Hj. rewrite copy_low_bytes_nth by done.
  case_decide.
  - rewrite be_bytes_nth by lia. simpl. by rewrite Z.div_1_r.
  - rewrite be_bytes_nth by lia. do 3 f_equal. lia.
Qed.

Lemma unpack_pack (l : list Z) :
  is_bytes32 l ->
  <[31%nat :=
      nth 31 (map (fun i : nat => (nth 31 l 0 / 256 ^ Z.of_nat (32 - 1 - i))
                                  mod 256) (seq 0 32)) 0]>
    (copy_low_bytes
       (map (fun i : nat => (be_partial l 31 / 256 ^ Z.of_nat (32 - 1 - i))
                            mod 256) (seq 0 32))
       (replicate 32 0))
  = l.
Proof.
  intros [Hlen Hb]. apply list_eq_nth.
  - by rewrite copy_low_bytes_length, length_replicate.
  - intros j Hj. rewrite copy_low_bytes_length, length_replicate in Hj.
    rewrite unpacked_nth by done. case_decide as Hj31.
    + subst j. apply Z.mod_small, nth_byte, Hb.
    + rewrite be_partial_digit by (done || lia). f_equal. lia.
Qed.

Lemma field_fits_byte (b : Z) : 0 <= b < 256 -> 0 <= b < Fr_modulus.
Proof. intros Hb. split; [lia|]. eapply Z.lt_trans; [apply Hb|reflexivity]. Qed.

(** X14.  Packing a note and unpacking the five fields gives back the two
    32-byte halves and the owner; the header is not carried, the note that
    comes back has an empty one. *)
Theorem deserialize_serialize_content (note : EcdsaPublicKeyNote NoteHeader) :
  is_bytes32 (note_x note) -> is_bytes32 (note_y note) ->
  deserialize_content NoteHeader (serialize_content note)
  = Ok (new NoteHeader (note_x note) (note_y note) (note_owner note)).
Proof.
  intros Hx Hy. unfold serialize_content.
  rewrite serialize_loop by (lia || apply Hx || apply Hy).
  unfold deserialize_content. cbn [nth fst snd].
  pose proof (be_partial_bound (note_x note) 31 (proj2 Hx)) as Hbx.
  pose proof (be_partial_bound (note_y note) 31 (proj2 Hy)) as Hby.
  pose proof (pow256_fits 31 ltac:(lia)) as Hfit.
  rewrite (to_be_bytes_ok (be_partial (note_x note) 31)) by lia.
  rewrite (to_be_bytes_ok (be_partial (note_y note) 31)) by lia.
  rewrite (to_be_bytes_ok (nth 31 (note_x note) 0))
    by apply field_fits_byte, nth_byte, Hx.
  rewrite (to_be_bytes_ok (nth 31 (note_y note) 0))
    by apply field_fits_byte, nth_byte, Hy.
  cbn [rbind]. rewrite (unpack_pack _ Hx), (unpack_pack _ Hy). reflexivity.
Qed.

Lemma unpacked_bytes32 (packed last : Z) :
  is_bytes32
    (<[31%nat :=
        nth 31 (map (fun i : nat => (last / 256 ^ Z.of_nat (32 - 1 - i))
                                    mod 256) (seq 0 32)) 0]>
       (copy_low_bytes
          (map (fun i : nat => (packed / 256 ^ Z.of_nat (32 - 1 - i)) mod 256)
             (seq 0 32))
          (replicate 32 0))).
Proof.
  split.
  - by rewrite copy_low_bytes_length, length_replicate.
  - apply Forall_lookup. intros j b Hj.
    assert (j < 32)%nat as Hlt.
    { apply lookup_lt_Some in Hj.
      by rewrite copy_low_bytes_length, length_replicate in Hj. }
    pose proof (unpacked_nth packed last j Hlt) as Hn.
    rewrite nth_lookup, Hj in Hn. simpl in Hn. subst b.
    case_decide; apply Z.mod_pos_bound; lia.
Qed.

Lemma pack_unpack (packed last : Z) :
  be_partial
    (<[31%nat :=
        nth 31 (map (fun i : nat => (last / 256 ^ Z.of_nat (32 - 1 - i))
                                    mod 256) (seq 0 32)) 0]>
       (copy_low_bytes
          (map (fun i : nat => (packed / 256 ^ Z.of_nat (32 - 1 - i)) mod 256)
             (seq 0 32))
          (replicate 32 0))) 31
  = packed mod 256 ^ 31.
Proof.
  rewrite (be_partial_digits _ packed 31); [reflexivity|].
  intros j Hj. rewrite unpacked_nth by lia.
  case_decide; [lia|]. do 3 f_equal. lia.
Qed.

(** X15.  Five fields always unpack to a note, both halves of which are
    32 bytes.  Packing that note gives the fields back reduced: the first
    and third modulo [256 ^ 31], the second and fourth modulo [256], the
    owner as it was.  So unpacking then packing returns the same fields
    exactly when the first and third fit 31 bytes and the second and fourth
    fit one byte; whatever lies above is dropped without a failure. *)
Theorem serialize_deserialize_content (serialized_note : list Field) :
  length serialized_note = 5%nat ->
  Forall (fun v => 0 <= v < Fr_modulus) serialized_note ->
  exists note,
    deserialize_content NoteHeader serialized_note = Ok note /\
    is_bytes32 (note_x note) /\ is_bytes32 (note_y note) /\
    serialize_content note
    = [nth 0 serialized_note 0 mod 256 ^ 31; nth 1 serialized_note 0 mod 256;
       nth 2 serialized_note 0 mod 256 ^ 31; nth 3 serialized_note 0 mod 256;
       nth 4 serialized_note 0] /\
    (serialize_content note = serialized_note <->
     nth 0 serialized_note 0 < 256 ^ 31 /\ nth 1 serialized_note 0 < 256 /\
     nth 2 serialized_note 0 < 256 ^ 31 /\ nth 3 serialized_note 0 < 256).
Proof.
  intros Hlen Hf.
  destruct serialized_note as [|s0 [|s1 [|s2 [|s3 [|s4 [|]]]]]]; try done.
  apply Forall_cons in Hf as [H0 Hf]. apply Forall_cons in Hf as [H1 Hf].
  apply Forall_cons in Hf as [H2 Hf]. apply Forall_cons in Hf as [H3 _].
  unfold deserialize_content. cbn [nth].
  rewrite !to_be_bytes_ok by done. cbn [rbind].
  eexists. split; [reflexivity|].
  pose proof (unpacked_bytes32 s0 s1) as Hx.
  pose proof (unpacked_bytes32 s2 s3) as Hy.
  split; [exact Hx|]. split; [exact Hy|].
  match goal with
  | |- serialize_content ?n = _ /\ _ =>
      assert (serialize_content n
              = [s0 mod 256 ^ 31; s1 mod 256; s2 mod 256 ^ 31; s3 mod 256; s4])
        as Hs
  end.
  { unfold serialize_content.
    rewrite serialize_loop by (lia || apply Hx || apply Hy).
    cbn [fst snd note_x note_y note_owner].
    rewrite !pack_unpack.
    rewrite (unpacked_nth s0 s1 31 ltac:(lia)).
    rewrite (unpacked_nth s2 s3 31 ltac:(lia)).
    reflexivity. }
  split; [exact Hs|]. rewrite Hs. split.
  - intros Heq. injection Heq as E0 E1 E2 E3.
    apply Z.mod_small_iff in E0, E1, E2, E3; lia.
  - intros (L0 & L1 & L2 & L3). by rewrite !Z.mod_small by lia.
Qed.

End NoteProperties.

Lemma deserialize_serialize_content_witness :
  Note.is_bytes32 (Note.note_x Sample.key_note) /\
  Note.is_bytes32 (Note.note_y Sample.key_note) /\
  Note.deserialize_content Field (Note.serialize_content Sample.key_note)
  = Ok (Note.new Field (Note.note_x Sample.key_note)
          (Note.note_y Sample.key_note) 10).
Proof.
  assert (Note.is_bytes32 (Note.note_x Sample.key_note)) as Hx.
  { split; [reflexivity|]. refine (bool_decide_unpack _ _). vm_compute. exact I. }
  assert (Note.is_bytes32 (Note.note_y Sample.key_note)) as Hy.
  { split; [reflexivity|]. refine (bool_decide_unpack _ _). vm_compute. exact I. }
  split; [exact Hx|]. split; [exact Hy|].
  exact (deserialize_serialize_content Field Sample.key_note Hx Hy).
Defined.

Lemma serialize_deserialize_content_witness :
  exists note,
    Note.deserialize_content Field Sample.key_fields = Ok note /\
    Note.serialize_content note = [5; 44; 7; 8; 9].
Proof.
  destruct (serialize_deserialize_content Field Sample.key_fields
              ltac:(reflexivity)
              ltac:(refine (bool_decide_unpack _ _); vm_compute; exact I))
    as (note & Hd & _ & _ & Hs & _).
  exists note. split; [exact Hd|]. rewrite Hs. reflexivity.
Defined.
